(** * Image-Checker: the Netlify functions [fb-scrape] and [screenshot-post]

    A shallow embedding of the two serverless functions that acquire
    evidence about a Facebook post:

    - [fb-scrape] (static pipeline): candidate hosts, the
      candidate x user-agent fetch loop with login-wall detection, and the
      regular-expression based metadata extractor;
    - [screenshot-post] (render pipeline): URL normalisation, cookie
      parsing, region detection and the browser session's life cycle;
    - the fetch loops and the extractor of the two earlier versions of
      [fb-scrape].

    JavaScript strings are modelled as [string]; a character stands for one
    code unit below 256, and the Numbers of the region detector as IEEE
    754 binary64 values.  Regular-expression literals are embedded as terms
    of a small pattern language whose matcher is the backtracking,
    continuation-passing matcher of the ECMAScript specification.  What the
    platform provides (the WHATWG URL parser, [JSON.parse],
    [decodeURIComponent], the network and the browser) enters as a
    parameter. *)

From Stdlib Require Import String Ascii List Bool Arith ZArith Lia.
From Stdlib Require SpecFloat.
Import ListNotations.

Set Implicit Arguments.

Local Open Scope list_scope.
Local Open Scope string_scope.
Local Open Scope nat_scope.

(** ** JavaScript string primitives *)

Module Js.

Definition code (c : ascii) : nat := nat_of_ascii c.

(** [WhiteSpace] and [LineTerminator] code units below 256: TAB, LF, VT,
    FF, CR, SP and NBSP.  Both [String.prototype.trim] and the class
    escape [\s] use this set. *)
Definition is_space (c : ascii) : bool :=
  let n := code c in
  ((9 <=? n) && (n <=? 13)) || (n =? 32) || (n =? 160).

(** Simple case folding used by the [i] flag, restricted to ASCII
    letters: a pattern letter never matches a code unit above 127. *)
Definition lower (c : ascii) : ascii :=
  let n := code c in
  if (65 <=? n) && (n <=? 90) then ascii_of_nat (n + 32) else c.

Definition eq_ci (a b : ascii) : bool := Ascii.eqb (lower a) (lower b).

Fixpoint lower_string (s : string) : string :=
  match s with
  | EmptyString => EmptyString
  | String c s' => String (lower c) (lower_string s')
  end.

Definition truthy (s : string) : bool :=
  match s with EmptyString => false | _ => true end.

(** [a || b] on strings. *)
Definition or_else (a b : string) : string := if truthy a then a else b.

Fixpoint starts_with (p s : string) : bool :=
  match p, s with
  | EmptyString, _ => true
  | String a p', String b s' => Ascii.eqb a b && starts_with p' s'
  | String _ _, EmptyString => false
  end.

Fixpoint drop (n : nat) (s : string) : string :=
  match n, s with
  | O, _ => s
  | S n', String _ s' => drop n' s'
  | S _, EmptyString => EmptyString
  end.

Fixpoint take (n : nat) (s : string) : string :=
  match n, s with
  | O, _ => EmptyString
  | S n', String c s' => String c (take n' s')
  | S _, EmptyString => EmptyString
  end.

(** [s.includes(p)]. *)
Fixpoint includes (p s : string) : bool :=
  starts_with p s ||
  match s with
  | EmptyString => false
  | String _ s' => includes p s'
  end.

(** [s.indexOf(c)] for a one-character needle; [None] stands for -1. *)
Fixpoint index_of (c : ascii) (s : string) : option nat :=
  match s with
  | EmptyString => None
  | String a s' =>
      if Ascii.eqb a c then Some 0
      else match index_of c s' with Some i => Some (S i) | None => None end
  end.

Fixpoint trim_start (s : string) : string :=
  match s with
  | String c s' => if is_space c then trim_start s' else s
  | EmptyString => EmptyString
  end.

Fixpoint trim_end (s : string) : string :=
  match s with
  | EmptyString => EmptyString
  | String c s' =>
      match trim_end s' with
      | EmptyString => if is_space c then EmptyString else String c EmptyString
      | t => String c t
      end
  end.

Definition trim (s : string) : string := trim_end (trim_start s).

(** [s.split(c)] for a one-character separator. *)
Fixpoint split (sep : ascii) (s : string) : list string :=
  match s with
  | EmptyString => [EmptyString]
  | String c s' =>
      if Ascii.eqb c sep then EmptyString :: split sep s'
      else match split sep s' with
           | [] => [String c EmptyString]
           | p :: ps => String c p :: ps
           end
  end.

(** *** Numbers

    A Number is an IEEE 754 binary64 value: 53 bits of precision, and
    arithmetic that rounds to the nearest value, ties to even. *)

Definition number : Type := SpecFloat.spec_float.

Definition prec : Z := 53.
Definition emax : Z := 1024.

(** The Number of an integer literal. *)
Definition num (z : Z) : number := SpecFloat.binary_normalize prec emax z 0 false.

(** [a + b] and [a - b]. *)
Definition num_add (a b : number) : number := SpecFloat.SFadd prec emax a b.
Definition num_sub (a b : number) : number := SpecFloat.SFsub prec emax a b.

(** [a > b]: false when either is [NaN]. *)
Definition num_gt (a b : number) : bool := SpecFloat.SFltb b a.

(** [Math.max(a, b)]: [NaN] when either is [NaN]; [+0] is larger than
    [-0]. *)
Definition math_max (a b : number) : number :=
  match a, b with
  | SpecFloat.S754_nan, _ | _, SpecFloat.S754_nan => SpecFloat.S754_nan
  | _, _ =>
      match SpecFloat.SFcompare a b with
      | Some Lt => b
      | Some Gt => a
      | _ => match a with SpecFloat.S754_zero true => b | _ => a end
      end
  end.

End Js.

(** ** Regular expressions

    The fragment of ECMAScript patterns that the two functions use:
    one-character atoms (literals, [\s], classes), greedy [*] and [+] over
    such an atom, concatenation, alternation, one capturing group and the
    assertions [^] and [$] (no [m] flag). *)

Module Re.

Inductive regex : Type :=
| Empty : regex
| Chr : (ascii -> bool) -> regex
| Cat : regex -> regex -> regex
| Alt : regex -> regex -> regex
| Star : (ascii -> bool) -> regex
| Group : regex -> regex
| Bos : regex
| Eos : regex.

Definition Plus (p : ascii -> bool) : regex := Cat (Chr p) (Star p).

(** The concatenation of the items of a pattern, left to right. *)
Fixpoint seq (rs : list regex) : regex :=
  match rs with
  | [] => Empty
  | r :: rs' => Cat r (seq rs')
  end.

(** Atoms. *)
Definition ch (c : ascii) : ascii -> bool := fun x => Ascii.eqb x c.
Definition ch_i (c : ascii) : ascii -> bool := fun x => Js.eq_ci x c.
Definition ws : ascii -> bool := Js.is_space.

Fixpoint mem (set : string) (x : ascii) : bool :=
  match set with
  | EmptyString => false
  | String c set' => Ascii.eqb x c || mem set' x
  end.

Definition one_of (set : string) : ascii -> bool := mem set.
Definition none_of (set : string) : ascii -> bool := fun x => negb (mem set x).

(** A literal run of characters, without and with the [i] flag. *)
Fixpoint lit (s : string) : regex :=
  match s with
  | EmptyString => Empty
  | String c s' => Cat (Chr (ch c)) (lit s')
  end.

Fixpoint lit_i (s : string) : regex :=
  match s with
  | EmptyString => Empty
  | String c s' => Cat (Chr (ch_i c)) (lit_i s')
  end.

(** A matcher state is the index reached, the input that remains and the
    capture of group 1. *)
Definition Cont (A : Type) : Type := nat -> string -> option string -> option A.

Section Matcher.
Variable A : Type.

(** Greedy repetition of a one-character atom: take one more when
    possible, and fall back to the continuation when the rest fails. *)
Fixpoint star_loop (p : ascii -> bool) (i : nat) (s : string)
         (cap : option string) (k : Cont A) : option A :=
  match s with
  | String c s' =>
      if p c then
        match star_loop p (S i) s' cap k with
        | Some r => Some r
        | None => k i s cap
        end
      else k i s cap
  | EmptyString => k i s cap
  end.

Fixpoint run (r : regex) (i : nat) (s : string) (cap : option string)
         (k : Cont A) : option A :=
  match r with
  | Empty => k i s cap
  | Chr p =>
      match s with
      | String c s' => if p c then k (S i) s' cap else None
      | EmptyString => None
      end
  | Cat r1 r2 => run r1 i s cap (fun i' s' cap' => run r2 i' s' cap' k)
  | Alt r1 r2 =>
      match run r1 i s cap k with
      | Some x => Some x
      | None => run r2 i s cap k
      end
  | Star p => star_loop p i s cap k
  | Group r1 =>
      run r1 i s cap (fun i' s' _ => k i' s' (Some (Js.take (i' - i) s)))
  | Bos => if i =? 0 then k i s cap else None
  | Eos =>
      match s with
      | EmptyString => k i s cap
      | String _ _ => None
      end
  end.
End Matcher.

(** A match: where it ends, what follows it, and group 1. *)
Record result : Type := mkResult {
  m_end : nat;
  m_rest : string;
  m_cap : option string
}.

Definition match_at (r : regex) (i : nat) (s : string) : option result :=
  run r i s None (fun i' s' cap => Some (mkResult i' s' cap)).

(** The leftmost match at or after index [i], [s] being the input from
    [i] on: its start index, the input from there, and the match. *)
Fixpoint search_from (r : regex) (i : nat) (s : string)
  : option (nat * string * result) :=
  match match_at r i s with
  | Some m => Some (i, s, m)
  | None =>
      match s with
      | String _ s' => search_from r (S i) s'
      | EmptyString => None
      end
  end.

(** [re.test(s)]. *)
Definition test (r : regex) (s : string) : bool :=
  match search_from r 0 s with Some _ => true | None => false end.

(** [s.match(re)] without the [g] flag, reduced to what the callers
    read: group 1 of the leftmost match. *)
Definition match1 (r : regex) (s : string) : option string :=
  match search_from r 0 s with
  | Some (_, _, m) =>
      Some (match m_cap m with Some c => c | None => EmptyString end)
  | None => None
  end.

(** [s.replace(re, rep)] without the [g] flag: the leftmost match only. *)
Definition replace_first (r : regex) (rep : string) (s : string) : string :=
  match search_from r 0 s with
  | Some (i, _, m) => Js.take i s ++ rep ++ m_rest m
  | None => s
  end.

(** [s.replace(re, rep)] with the [g] flag.  [skip] counts the characters
    of the current match that are still to be passed over. *)
Fixpoint replace_all_from (r : regex) (rep : string) (i : nat) (s : string)
         (skip : nat) : string :=
  match s with
  | EmptyString =>
      match skip with
      | O => match match_at r i s with Some _ => rep | None => EmptyString end
      | S _ => EmptyString
      end
  | String c s' =>
      match skip with
      | S k => replace_all_from r rep (S i) s' k
      | O =>
          match match_at r i s with
          | Some m =>
              match m_end m - i with
              | O => rep ++ String c (replace_all_from r rep (S i) s' 0)
              | S n => rep ++ replace_all_from r rep (S i) s' n
              end
          | None => String c (replace_all_from r rep (S i) s' 0)
          end
      end
  end.

Definition replace_all (r : regex) (rep : string) (s : string) : string :=
  replace_all_from r rep 0 s 0.

(** The loop [while ((m = re.exec(s)) !== null)] of a [g] pattern whose
    matches are never empty: group 1 of every match, left to right, each
    search starting where the previous match ended. *)
Fixpoint exec_all_from (r : regex) (i : nat) (s : string) (skip : nat)
  : list string :=
  match s with
  | EmptyString => []
  | String _ s' =>
      match skip with
      | S k => exec_all_from r (S i) s' k
      | O =>
          match match_at r i s with
          | Some m =>
              (match m_cap m with Some c => c | None => EmptyString end)
                :: exec_all_from r (S i) s' (m_end m - i - 1)
          | None => exec_all_from r (S i) s' 0
          end
      end
  end.

Definition exec_all (r : regex) (s : string) : list string :=
  exec_all_from r 0 s 0.

End Re.

(** ** URLs

    The URL record of the WHATWG URL Standard with its serialiser and the
    getters and the setter of the [URL] class that the functions use.
    Parsing text into a record is the platform's part (see [Platform]). *)

Module Url.

Record t : Type := mk {
  scheme : string;            (* without the colon *)
  username : string;
  password : string;
  host : option string;       (* serialised host; [None] is the null host *)
  port : option string;       (* decimal digits; [None] is the default port *)
  path : string;              (* serialised path *)
  opaque_path : bool;
  query : option string;      (* without the question mark *)
  fragment : option string    (* without the hash sign *)
}.

Definition hostname (u : t) : string :=
  match host u with Some h => h | None => "" end.

Definition port_suffix (u : t) : string :=
  match port u with Some p => ":" ++ p | None => "" end.

(** The [host] getter: the host with the port when there is one. *)
Definition host_port (u : t) : string :=
  match host u with
  | Some h => h ++ port_suffix u
  | None => ""
  end.

Definition pathname (u : t) : string := path u.

Definition search (u : t) : string :=
  match query u with
  | Some (String c q) => "?" ++ String c q
  | _ => ""
  end.

Definition hash (u : t) : string :=
  match fragment u with
  | Some (String c f) => "#" ++ String c f
  | _ => ""
  end.

Definition credentials (u : t) : string :=
  if Js.truthy (username u) || Js.truthy (password u) then
    username u ++ (if Js.truthy (password u) then ":" ++ password u else "") ++ "@"
  else "".

(** The URL serialiser: the [href] getter and [toString()]. *)
Definition href (u : t) : string :=
  scheme u ++ ":" ++
  match host u with
  | Some h => "//" ++ credentials u ++ h ++ port_suffix u
  | None =>
      if negb (opaque_path u) && Js.starts_with "//" (path u) then "/." else ""
  end ++
  path u ++
  match query u with Some q => "?" ++ q | None => "" end ++
  match fragment u with Some f => "#" ++ f | None => "" end.

Definition tuple_scheme (s : string) : bool :=
  String.eqb s "http" || String.eqb s "https" || String.eqb s "ftp" ||
  String.eqb s "ws" || String.eqb s "wss".

Definition tuple_origin (u : t) : string :=
  scheme u ++ "://" ++ host_port u.

(** The [origin] getter.  The origin of a [blob:] URL is that of the URL
    in its path when that one is http(s); [parse] is the URL parser. *)
Definition origin (parse : string -> option t) (u : t) : string :=
  if tuple_scheme (scheme u) then tuple_origin u
  else if String.eqb (scheme u) "blob" then
    match parse (path u) with
    | Some v =>
        if String.eqb (scheme v) "http" || String.eqb (scheme v) "https"
        then tuple_origin v else "null"
    | None => "null"
    end
  else "null".

(** The [hostname] setter, for a value that the host parser accepts
    unchanged under every scheme, as [mbasic.facebook.com] is: nothing
    happens on a URL with an opaque path. *)
Definition set_hostname (u : t) (h : string) : t :=
  if opaque_path u then u
  else mk (scheme u) (username u) (password u) (Some h) (port u)
          (path u) (opaque_path u) (query u) (fragment u).

End Url.

(** ** JavaScript values

    The values that [JSON.parse] produces, and [undefined].  A number is
    represented by the decimal string that [Number::toString] gives it
    (so [0] and [-0] are both ["0"]); this is all the functions observe of
    a number. *)

Module Json.

#[warnings="-register-all"]
Inductive value : Type :=
| Undefined : value
| Null : value
| Bool : bool -> value
| Num : string -> value
| Str : string -> value
| Arr : list value -> value
| Obj : list (string * value) -> value.

(** [ToBoolean]. *)
Definition truthy (v : value) : bool :=
  match v with
  | Undefined | Null => false
  | Bool b => b
  | Num n => negb (String.eqb n "0" || String.eqb n "NaN")
  | Str s => Js.truthy s
  | Arr _ | Obj _ => true
  end.

(** [a || b]. *)
Definition or_else (a b : value) : value := if truthy a then a else b.

Fixpoint lookup (k : string) (fields : list (string * value)) : value :=
  match fields with
  | [] => Undefined
  | (k', v) :: rest => if String.eqb k' k then v else lookup k rest
  end.

(** [c.k] for the property names the functions read ([name], [value],
    [domain], [path], [httpOnly], [secure], [sameSite], [expires], [url],
    [cookies], [cookie]), none of which a prototype defines: [None] is
    the [TypeError] of reading a property of [null] or [undefined]. *)
Definition get (c : value) (k : string) : option value :=
  match c with
  | Undefined | Null => None
  | Obj fields => Some (lookup k fields)
  | Bool _ | Num _ | Str _ | Arr _ => Some Undefined
  end.

Fixpoint join (sep : string) (parts : list string) : string :=
  match parts with
  | [] => ""
  | [p] => p
  | p :: rest => p ++ sep ++ join sep rest
  end.

(** The object has an own property [k]. *)
Definition has_key (k : string) (fields : list (string * value)) : bool :=
  existsb (fun p => String.eqb (fst p) k) fields.

(** [String(v)].  [None] is the [TypeError] of converting an object that
    has an own [toString] property: a property that comes from JSON is
    never callable, and [valueOf] does not give a primitive either.  An
    array is joined with commas, [null] and [undefined] elements giving
    the empty string, and throws when one of its elements does. *)
Fixpoint to_string (v : value) : option string :=
  match v with
  | Undefined => Some "undefined"
  | Null => Some "null"
  | Bool true => Some "true"
  | Bool false => Some "false"
  | Num n => Some n
  | Str s => Some s
  | Arr items =>
      match
        (fix elements (l : list value) : option (list string) :=
           match l with
           | [] => Some []
           | e :: rest =>
               match
                 match e with
                 | Undefined | Null => Some ""
                 | _ => to_string e
                 end,
                 elements rest
               with
               | Some s, Some ss => Some (s :: ss)
               | _, _ => None
               end
           end) items
      with
      | Some parts => Some (join "," parts)
      | None => None
      end
  | Obj fields =>
      if has_key "toString" fields then None else Some "[object Object]"
  end.

Definition is_array (v : value) : bool :=
  match v with Arr _ => true | _ => false end.

End Json.

(** ** The platform

    What the functions call and the repository does not define:
    [new URL(s)], [new URL(s, base)], [URLSearchParams.get],
    [decodeURIComponent] and [JSON.parse].  [None] stands for a thrown
    [TypeError], [URIError] or [SyntaxError], and for the [null] of a
    missing search parameter. *)

Record Platform : Type := mkPlatform {
  URL_parse : string -> option Url.t;
  URL_parse_base : string -> string -> option Url.t;
  searchParams_get : Url.t -> string -> option string;
  decodeURIComponent : string -> option string;
  JSON_parse : string -> option Json.value
}.

(** The network as [safeFetch] sees it: [fetch] with the 8 second abort
    timer.  [None] is the [null] it returns when the request fails, is
    aborted or throws; the body is [""] when it cannot be read. *)

Record FetchResult : Type := mkFetchResult {
  ok : bool;
  status : nat;
  url : string;
  text : string
}.

Definition Headers : Type := list (string * string).

Record Network : Type := mkNetwork {
  World : Type;
  safeFetch : World -> string -> Headers -> option FetchResult * World
}.

(** ** fb-scrape *)

Module FbScrape.

Import Re.

Definition dq : ascii := "034"%char.
Definition quotes : string := String dq "'".

(** The source's patterns are quoted in the comments with [Q] for the
    class of the two quote characters (double and single) and [^Q] for
    its complement, and with a space between a star and a closing
    parenthesis. *)

(** [/<meta\s+ATTR=Q KEY Q\s+content=Q([^Q]* )Q[^>]*>/i] *)
Definition meta_re (attr key : string) : regex :=
  seq [ lit_i "<meta"; Plus ws; lit_i attr; lit "="; Chr (one_of quotes);
        lit_i key; Chr (one_of quotes); Plus ws; lit_i "content="; Chr (one_of quotes);
        Group (Star (none_of quotes)); Chr (one_of quotes);
        Star (none_of ">"); lit ">" ].

Definition re_ogTitle : regex := meta_re "property" "og:title".
Definition re_ogDesc : regex := meta_re "property" "og:description".
Definition re_metaDesc : regex := meta_re "name" "description".
Definition re_ogImage : regex := meta_re "property" "og:image".
Definition re_ogImageSecure : regex := meta_re "property" "og:image:secure_url".
Definition re_ogImageUrl : regex := meta_re "property" "og:image:url".
Definition re_ogSite : regex := meta_re "property" "og:site_name".
Definition re_twDesc : regex := meta_re "name" "twitter:description".

(** [/<title>([^<]* )<\/title>/i] *)
Definition re_title : regex :=
  seq [ lit_i "<title>"; Group (Star (none_of "<")); lit_i "</title>" ].

(** [/<img[^>]+(?:data-src|src)=Q([^Q]+)Q[^>]*>/ig] *)
Definition re_img : regex :=
  seq [ lit_i "<img"; Plus (none_of ">");
        Alt (lit_i "data-src") (lit_i "src"); lit "=";
        Chr (one_of quotes); Group (Plus (none_of quotes)); Chr (one_of quotes);
        Star (none_of ">"); lit ">" ].

(** [/pixel|analytics|spacer/i] *)
Definition re_tracking : regex :=
  Alt (lit_i "pixel") (Alt (lit_i "analytics") (lit_i "spacer")).

(** [/\.svg($|\?)/i] *)
Definition re_svg : regex :=
  seq [ lit_i ".svg"; Group (Alt Eos (lit "?")) ].

(** [/See\s+posts,\s+photos\s+and\s+more\s+on\s+Facebook/i] *)
Definition re_login1 : regex :=
  seq [ lit_i "See"; Plus ws; lit_i "posts,"; Plus ws; lit_i "photos"; Plus ws;
        lit_i "and"; Plus ws; lit_i "more"; Plus ws; lit_i "on"; Plus ws;
        lit_i "Facebook" ].

(** [/Log\s*in\s*or\s*sign\s*up\s*to\s*view/i] *)
Definition re_login2 : regex :=
  seq [ lit_i "Log"; Star ws; lit_i "in"; Star ws; lit_i "or"; Star ws;
        lit_i "sign"; Star ws; lit_i "up"; Star ws; lit_i "to"; Star ws;
        lit_i "view" ].

(** [/Log\s*into\s*Facebook/i] *)
Definition re_login3 : regex :=
  seq [ lit_i "Log"; Star ws; lit_i "into"; Star ws; lit_i "Facebook" ].

Definition isFacebookLoginInterstitial (html : string) : bool :=
  if negb (Js.truthy html) then false
  else if test re_login1 html then true
  else if test re_login2 html then true
  else if test re_login3 html then true
  else false.

Definition decodeHtml (str : string) : string :=
  replace_all (lit "&#39;") "'"
    (replace_all (lit "&quot;") (String dq "")
      (replace_all (lit "&gt;") ">"
        (replace_all (lit "&lt;") "<"
          (replace_all (lit "&amp;") "&" str)))).

Definition extractTitle (html : string) : string :=
  match match1 re_title html with
  | Some m1 => decodeHtml m1
  | None => ""
  end.

Definition buildHeaders (uaVariant : string) : Headers :=
  let ua :=
    if String.eqb uaVariant "fb"
    then "facebookexternalhit/1.1 (+http://www.facebook.com/externalhit_uatext/)"
    else "Mozilla/5.0 (Windows NT 10.0; Win64; x64) AppleWebKit/537.36 (KHTML, like Gecko) Chrome/124.0 Safari/537.36" in
  [ ("User-Agent", ua);
    ("Accept", "text/html,application/xhtml+xml,application/xml;q=0.9,*/*;q=0.8");
    ("Accept-Language", "en-US,en;q=0.9");
    ("Cache-Control", "no-cache") ].

Record Meta : Type := mkMeta {
  name : string;
  caption : string;
  image : string;
  ogTitle : string;
  ogDesc : string;
  rawTitle : string
}.

Section WithPlatform.
Variable P : Platform.

(** The host list of [buildCandidateUrls], before it is mapped to
    URLs. *)
Definition candidateHosts (u : Url.t) : list string :=
  let hosts := [Url.host_port u] in
  let hosts :=
    if negb (existsb (String.eqb "m.facebook.com") hosts)
    then (hosts ++ ["m.facebook.com"])%list else hosts in
  let hosts :=
    if negb (existsb (String.eqb "mbasic.facebook.com") hosts)
    then (hosts ++ ["mbasic.facebook.com"])%list else hosts in
  hosts.

(** [u.href.substring(u.origin.length)] *)
Definition candidatePaths (u : Url.t) : string :=
  Js.drop (String.length (Url.origin (URL_parse P) u)) (Url.href u).

(** [buildCandidateUrls], which reads the same in every version of the
    function; [None] is the [TypeError] of [new URL(input)]. *)
Definition buildCandidateUrls (input : string) : option (list string) :=
  match URL_parse P input with
  | None => None
  | Some u =>
      let paths := candidatePaths u in
      Some (map (fun h => "https://" ++ h ++ paths) (candidateHosts u))
  end.

Definition unwrapSafeImage (imageUrl : string) : string :=
  match URL_parse P imageUrl with
  | None => imageUrl
  | Some u =>
      if Js.includes "/safe_image.php" (Url.pathname u) then
        match searchParams_get P u "url" with
        | Some original =>
            if Js.truthy original then
              match decodeURIComponent P original with
              | Some decoded =>
                  match URL_parse P decoded with
                  | Some v => Url.href v
                  | None => decoded
                  end
              | None => imageUrl
              end
            else imageUrl
        | None => imageUrl
        end
      else imageUrl
  end.

(** The body of the [while] loop of [extractImageFallback] for one
    match: the candidate it pushes, if any. *)
Definition imageCandidate (baseUrl src : string) : option string :=
  if negb (Js.truthy src) then None
  else match URL_parse_base P src baseUrl with
       | None => None
       | Some u =>
           let abs := Url.href u in
           if negb (Js.truthy abs) then None
           else if Js.starts_with "data:" abs then None
           else if test re_tracking abs then None
           else if test re_svg abs then None
           else Some abs
       end.

Fixpoint imageCandidates (baseUrl : string) (srcs : list string) : list string :=
  match srcs with
  | [] => []
  | src :: rest =>
      match imageCandidate baseUrl src with
      | Some abs => abs :: imageCandidates baseUrl rest
      | None => imageCandidates baseUrl rest
      end
  end.

Definition extractImageFallback (html baseUrl : string) : string :=
  let candidates := imageCandidates baseUrl (exec_all re_img html) in
  match find (Js.includes "/safe_image.php") candidates with
  | Some c => unwrapSafeImage c
  | None =>
      match candidates with
      | c :: _ => c
      | [] => ""
      end
  end.

Definition extractMeta (html baseUrl : string) : Meta :=
  let pick := fun re =>
    match match1 re html with Some m1 => decodeHtml m1 | None => "" end in
  let ogTitle := pick re_ogTitle in
  let ogDesc := pick re_ogDesc in
  let metaDesc := pick re_metaDesc in
  let ogImage := pick re_ogImage in
  let ogImageSecure := pick re_ogImageSecure in
  let ogImageUrl := pick re_ogImageUrl in
  let ogSite := pick re_ogSite in
  let twDesc := pick re_twDesc in
  let titleTag := extractTitle html in
  let image := Js.or_else ogImage (Js.or_else ogImageSecure ogImageUrl) in
  let image :=
    if Js.truthy image then
      unwrapSafeImage
        (match URL_parse_base P image baseUrl with
         | Some u => Url.href u
         | None => image
         end)
    else image in
  let image :=
    if negb (Js.truthy image) then extractImageFallback html baseUrl else image in
  let name := Js.or_else ogSite (Js.or_else ogTitle (Js.or_else titleTag "")) in
  let caption := Js.or_else ogDesc (Js.or_else twDesc (Js.or_else metaDesc "")) in
  mkMeta name caption image ogTitle ogDesc titleTag.

(** *** The handler: the candidate x user-agent loop *)

Variable N : Network.

Definition userAgents : list string := ["chrome"; "fb"].

(** The entry pushed on [tried]: the candidate and its user agent. *)
Definition triedEntry (candidate ua : string) : string :=
  candidate ++ " [ua:" ++ ua ++ "]".

(** The variables the loop assigns: [tried], and [html] with
    [finalUrl], which are set together. *)
Record LoopState : Type := mkLoop {
  world : World N;
  tried : list string;
  fetched : option (string * string)   (* html, finalUrl *)
}.

(** The inner [for (const ua of userAgents)]; [fetched] set on return
    is the [break outer]. *)
Fixpoint tryUserAgents (candidate : string) (uas : list string)
         (w : World N) (tried0 : list string) : LoopState :=
  match uas with
  | [] => mkLoop w tried0 None
  | ua :: rest =>
      let tried := (tried0 ++ [triedEntry candidate ua])%list in
      let (res, w) := safeFetch N w candidate (buildHeaders ua) in
      match res with
      | Some r =>
          if ok r && Js.truthy (text r) then
            if negb (isFacebookLoginInterstitial (text r)) then
              mkLoop w tried (Some (text r, Js.or_else (url r) candidate))
            else tryUserAgents candidate rest w tried
          else tryUserAgents candidate rest w tried
      | None => tryUserAgents candidate rest w tried
      end
  end.

(** The outer [for (const candidate of candidates)]. *)
Fixpoint tryCandidates (candidates uas : list string)
         (w : World N) (tried0 : list string) : LoopState :=
  match candidates with
  | [] => mkLoop w tried0 None
  | candidate :: rest =>
      let st := tryUserAgents candidate uas w tried0 in
      match fetched st with
      | Some _ => st
      | None => tryCandidates rest uas (world st) (tried st)
      end
  end.

(** The JSON body of the response, once [url] is a non-empty string. *)
Record Scraped : Type := mkScraped {
  s_inputUrl : string;
  s_finalUrl : string;
  s_name : string;
  s_caption : string;
  s_imageUrl : string;
  s_ogTitle : string;
  s_ogDesc : string;
  s_rawTitle : string;
  s_tried : list string
}.

Inductive Body : Type :=
| MissingUrl                          (* ok:false, reason:'missing-url' *)
| FetchFailed (tried : list string)   (* ok:false, reason:'fetch-failed' *)
| Exception                           (* ok:false, reason:'exception' *)
| Success (r : Scraped).              (* ok:true *)

(** The [try] block of the handler from the test of [url] on, [url]
    being the value read from the request body:
    [if (!url || typeof url !== 'string')] answers 'missing-url'. *)
Definition scrape (url : Json.value) (w : World N) : Body * World N :=
  match url with
  | Json.Str inputUrl =>
      if negb (Js.truthy inputUrl) then (MissingUrl, w)
      else
        match buildCandidateUrls inputUrl with
        | None => (Exception, w)
        | Some candidates =>
            let st := tryCandidates candidates userAgents w [] in
            match fetched st with
            | None => (FetchFailed (tried st), world st)
            | Some (html, finalUrl) =>
                let meta := extractMeta html finalUrl in
                (Success
                   (mkScraped inputUrl finalUrl
                      (Js.or_else (name meta) "unknown")
                      (Js.or_else (caption meta) "")
                      (Js.or_else (image meta) "")
                      (Js.or_else (ogTitle meta) "")
                      (Js.or_else (ogDesc meta) "")
                      (Js.or_else (rawTitle meta) "")
                      (tried st)),
                 world st)
            end
        end
  | _ => (MissingUrl, w)
  end.

Inductive Response : Type :=
| Preflight                           (* 200 with an empty body *)
| MethodNotAllowed                    (* 405 *)
| Answer (body : Body).               (* 200 with a JSON body *)

(** The handler.  [JSON.parse(event.body || '{}')] and the destructuring
    of its result happen inside the [try]: a body that does not parse, or
    parses to [null], is answered with 'exception'. *)
Definition handler (httpMethod eventBody : string) (w : World N)
  : Response * World N :=
  if String.eqb httpMethod "OPTIONS" then (Preflight, w)
  else if negb (String.eqb httpMethod "POST") then (MethodNotAllowed, w)
  else
    match JSON_parse P (Js.or_else eventBody "{}") with
    | None => (Answer Exception, w)
    | Some parsed =>
        match Json.get parsed "url" with
        | None => (Answer Exception, w)
        | Some url => let (body, w') := scrape url w in (Answer body, w')
        end
    end.

End WithPlatform.

End FbScrape.

(** ** screenshot-post *)

Module ScreenshotPost.

Import Re.

(** [/facebook\.com$/i] *)
Definition re_facebook : regex := seq [ lit_i "facebook.com"; Eos ].

(** [/^www\./] *)
Definition re_www : regex := seq [ Bos; lit "www." ].

(** *** Cookies *)

Record Cookie : Type := mkCookie {
  name : string;
  value : string;
  domain : Json.value;
  path : Json.value;
  httpOnly : bool;
  secure : bool;
  sameSite : option Json.value;   (* [None]: the record has no such key *)
  expires : option string         (* a number, when the key is present *)
}.

(** The callback of [arr.map] in [sanitizeCookiesArray]: the outer
    [None] is a [TypeError], the inner one the [null] that
    [filter(Boolean)] removes. *)
Definition sanitizeCookie (c : Json.value) : option (option Cookie) :=
  match Json.get c "name", Json.get c "value", Json.get c "domain",
        Json.get c "path", Json.get c "httpOnly", Json.get c "secure",
        Json.get c "sameSite", Json.get c "expires" with
  | Some c_name, Some c_value, Some c_domain, Some c_path, Some c_httpOnly,
    Some c_secure, Some c_sameSite, Some c_expires =>
      match Json.to_string (Json.or_else c_name (Json.Str "")),
            Json.to_string (Json.or_else c_value (Json.Str "")) with
      | Some name_s, Some value_s =>
          let name := Js.trim name_s in
          let value := Js.trim value_s in
          if negb (Js.truthy name) then Some None
          else
            Some (Some
              (mkCookie name value
                 (Json.or_else c_domain (Json.Str ".facebook.com"))
                 (Json.or_else c_path (Json.Str "/"))
                 (Json.truthy c_httpOnly)
                 (match c_secure with Json.Bool b => b | _ => true end)
                 (Some (Json.or_else c_sameSite (Json.Str "Lax")))
                 (match c_expires with Json.Num n => Some n | _ => None end)))
      | _, _ => None
      end
  | _, _, _, _, _, _, _, _ => None
  end.

Fixpoint sanitizeCookies (items : list Json.value) : option (list Cookie) :=
  match items with
  | [] => Some []
  | c :: rest =>
      match sanitizeCookie c with
      | None => None
      | Some oc =>
          match sanitizeCookies rest with
          | None => None
          | Some cs =>
              Some (match oc with Some k => k :: cs | None => cs end)
          end
      end
  end.

(** [None] is a [TypeError] thrown by the callback. *)
Definition sanitizeCookiesArray (arr : Json.value) : option (list Cookie) :=
  match arr with
  | Json.Arr items => sanitizeCookies items
  | _ => Some []
  end.

(** The callback of [parts.map] for a cookie header string. *)
Definition headerCookie (p : string) : option Cookie :=
  match Js.index_of "=" p with
  | None => None
  | Some eq =>
      let name := Js.trim (Js.take eq p) in
      let value := Js.trim (Js.drop (eq + 1) p) in
      Some (mkCookie name value (Json.Str ".facebook.com") (Json.Str "/")
              false true None None)
  end.

Fixpoint filter_some (A : Type) (l : list (option A)) : list A :=
  match l with
  | [] => []
  | Some x :: rest => x :: filter_some rest
  | None :: rest => filter_some rest
  end.

Section WithPlatform.
Variable P : Platform.

Definition normalizeFacebookUrl (input : string) : string :=
  match URL_parse P input with
  | Some u =>
      if test re_facebook (Url.hostname u)
         || test re_facebook (replace_first re_www "" (Url.hostname u))
      then Url.href (Url.set_hostname u "mbasic.facebook.com")
      else input
  | None => input
  end.

Definition parseCookies (input : Json.value) : list Cookie :=
  if negb (Json.truthy input) then []
  else
    match input with
    | Json.Arr _ =>
        match sanitizeCookiesArray input with
        | Some cs => cs
        | None => []
        end
    | Json.Str s =>
        let trimmed := Js.trim s in
        if negb (Js.truthy trimmed) then []
        else if Js.starts_with "[" trimmed then
          match JSON_parse P trimmed with
          | Some arr =>
              match sanitizeCookiesArray arr with
              | Some cs => cs
              | None => []
              end
          | None => []
          end
        else
          let parts :=
            filter Js.truthy (map Js.trim (Js.split ";" trimmed)) in
          filter_some (map headerCookie parts)
    | _ => []
    end.

End WithPlatform.

(** *** The browser session

    The handler drives a headless browser.  Each call of the browser API
    either returns or throws, as the environment decides; the handler's
    run is recorded as the list of the calls it made. *)

Inductive Op : Type :=
| LaunchLocal            (* require('puppeteer').launch(...) *)
| ExecutablePath         (* chromium.executablePath() *)
| LaunchLambda           (* puppeteer.launch(...) of puppeteer-core *)
| NewPage
| SetDefaultNavigationTimeout
| SetDefaultTimeout
| SetUserAgent
| SetRequestInterception
| OnRequest
| GotoRoot               (* page.goto('https://mbasic.facebook.com/') *)
| SetCookie
| GotoTarget             (* page.goto(url) *)
| AddStyleTag
| WaitForTimeout
| QuerySelector          (* page.$(...) *)
| BoundingBox
| Screenshot
| CloseAfterCapture      (* browser.close() after the screenshot *)
| CloseInCatch.          (* browser.close() in the catch block *)

(** Pixel rectangles; the four members are Numbers. *)
Record Rect : Type := mkRect {
  x : Js.number;
  y : Js.number;
  width : Js.number;
  height : Js.number
}.

Inductive Event : Type :=
| Called (op : Op) (returned : bool)
| Shot (fullPage : bool) (clip : option Rect) (returned : bool).

Record Env : Type := mkEnv {
  runningOnLambda : bool;          (* !!process.env.AWS_EXECUTION_ENV *)
  returns : Op -> bool;            (* [false]: the call throws *)
  element : bool;                  (* page.$ found an element *)
  box : option Rect;               (* what boundingBox() resolves to *)
  buffer : string;                 (* the screenshot, base64 encoded *)
  ENV_COOKIES_JSON : string;
  ENV_COOKIE_HEADER : string
}.

Record State : Type := mkState {
  trace : list Event;
  browser : bool                   (* [browser] is not [null] *)
}.

(** Computations that log their calls and may throw ([None]). *)
Definition M (A : Type) : Type := State -> State * option A.

Definition ret (A : Type) (a : A) : M A := fun st => (st, Some a).

Definition bind (A B : Type) (m : M A) (k : A -> M B) : M B :=
  fun st =>
    match m st with
    | (st', Some a) => k a st'
    | (st', None) => (st', None)
    end.

Definition throw (A : Type) : M A := fun st => (st, None).

Definition try_catch (A : Type) (m : M A) (handler : M A) : M A :=
  fun st =>
    match m st with
    | (st', Some a) => (st', Some a)
    | (st', None) => handler st'
    end.

Definition log (e : Event) : M unit :=
  fun st => (mkState (trace st ++ [e])%list (browser st), Some tt).

Definition assignBrowser : M unit :=
  fun st => (mkState (trace st) true, Some tt).

Definition getBrowser : M bool := fun st => (st, Some (browser st)).

Declare Scope js_scope.
Delimit Scope js_scope with js.
Notation "x <- m ;; k" := (bind m (fun x => k))
  (at level 61, m at next level, right associativity) : js_scope.
Notation "m ;; k" := (bind m (fun _ => k))
  (at level 61, right associativity) : js_scope.

(** The clip of a bounding box: [Math.max(0, box.x - 8)], ... *)
Definition clipOf (b : Rect) : Rect :=
  mkRect (Js.math_max (Js.num 0) (Js.num_sub (x b) (Js.num 8)))
         (Js.math_max (Js.num 0) (Js.num_sub (y b) (Js.num 8)))
         (Js.num_add (width b) (Js.num 16))
         (Js.num_add (height b) (Js.num 16)).

Inductive ResponseBody : Type :=
| NoBody
| MethodNotAllowed
| InvalidRequestBody
| Captured (dataUrl url : string)
| FailedToScreenshot.

Record Response : Type := mkResponse {
  statusCode : nat;
  body : ResponseBody
}.

Section Render.
Variable E : Env.

Local Open Scope js_scope.

Definition call (op : Op) : M unit :=
  log (Called op (returns E op)) ;;
  if returns E op then ret tt else throw unit.

(** The inner [try { ... } catch (localErr) { ... }] that assigns
    [browser]. *)
Definition launch : M unit :=
  try_catch
    (if negb (runningOnLambda E)
     then call LaunchLocal ;; assignBrowser
     else throw unit)
    (call ExecutablePath ;; call LaunchLambda ;; assignBrowser).

(** [let clip = null; try { ... } catch (_) {}] *)
Definition detectRegion : M (option Rect) :=
  try_catch
    (call QuerySelector ;;
     if element E then
       call BoundingBox ;;
       match box E with
       | Some b =>
           if Js.num_gt (width b) (Js.num 0) && Js.num_gt (height b) (Js.num 0)
           then ret (Some (clipOf b))
           else ret None
       | None => ret None
       end
     else ret None)
    (ret None).

(** [page.screenshot({ ..., fullPage: !clip, clip: clip || undefined })] *)
Definition screenshot (clip : option Rect) : M string :=
  let fullPage := match clip with Some _ => false | None => true end in
  log (Shot fullPage clip (returns E Screenshot)) ;;
  if returns E Screenshot then ret (buffer E) else throw string.

(** The calls between the launch and the region detection: page set-up,
    request interception, cookies, navigation and style injection. *)
Definition openPage (url : string) (cookies : list Cookie) : M unit :=
  call NewPage ;;
  call SetDefaultNavigationTimeout ;;
  call SetDefaultTimeout ;;
  call SetUserAgent ;;
  try_catch (call SetRequestInterception ;; call OnRequest) (ret tt) ;;
  match cookies with
  | _ :: _ => try_catch (call GotoRoot ;; call SetCookie) (ret tt)
  | [] => ret tt
  end ;;
  call GotoTarget ;;
  call AddStyleTag ;;
  call WaitForTimeout.

(** Region detection, the screenshot, [await browser.close()] and the
    200 response. *)
Definition capture (url : string) : M Response :=
  clip <- detectRegion ;;
  buf <- screenshot clip ;;
  call CloseAfterCapture ;;
  ret (mkResponse 200 (Captured ("data:image/jpeg;base64," ++ buf) url)).

(** [try { if (browser && ...) { await browser.close(); } } catch (_) {}] *)
Definition closeInCatch : M unit :=
  try_catch
    (b <- getBrowser ;; if b then call CloseInCatch else ret tt)
    (ret tt).

(** The second [try { ... } catch (err) { ... }] of the handler. *)
Definition render (url : string) (cookies : list Cookie) : M Response :=
  try_catch
    (launch ;; openPage url cookies ;; capture url)
    (closeInCatch ;; ret (mkResponse 500 FailedToScreenshot)).

End Render.

Section Handler.
Variable P : Platform.
Variable E : Env.

(** [event.body ? JSON.parse(event.body) : {}] *)
Definition parseBody (eventBody : string) : option Json.value :=
  if Js.truthy eventBody then JSON_parse P eventBody else Some (Json.Obj []).

Definition envCookies : Json.value :=
  Json.or_else (Json.Str (ENV_COOKIES_JSON E))
    (Json.or_else (Json.Str (ENV_COOKIE_HEADER E)) (Json.Str "")).

Definition getCookieInput (eventBody : string) : Json.value :=
  match parseBody eventBody with
  | Some b =>
      match Json.get b "cookies", Json.get b "cookie" with
      | Some cookies, Some cookie =>
          Json.or_else cookies (Json.or_else cookie envCookies)
      | _, _ => envCookies
      end
  | None => envCookies
  end.

(** The first [try { ... } catch (_) { return 400 }]: [None] is the
    400 response. *)
Definition requestUrl (eventBody : string) : option string :=
  match parseBody eventBody with
  | Some b =>
      match Json.get b "url" with
      | Some u =>
          match Json.to_string (Json.or_else u (Json.Str "")) with
          | Some s =>
              let url := Js.trim s in
              if negb (Js.truthy url) then None
              else Some (normalizeFacebookUrl P url)
          | None => None
          end
      | None => None
      end
  | None => None
  end.

Definition handler (httpMethod eventBody : string) : M Response :=
  if String.eqb httpMethod "OPTIONS" then ret (mkResponse 200 NoBody)
  else if negb (String.eqb httpMethod "POST")
  then ret (mkResponse 405 MethodNotAllowed)
  else
    match requestUrl eventBody with
    | None => ret (mkResponse 400 InvalidRequestBody)
    | Some url =>
        render E url (parseCookies P (getCookieInput eventBody))
    end.

(** One invocation: the browser variable starts as [null]. *)
Definition invoke (httpMethod eventBody : string) : list Event * option Response :=
  let (st, r) := handler httpMethod eventBody (mkState [] false) in
  (trace st, r).

End Handler.

(** A cookie record as the JavaScript object it is, for feeding the
    parser its own output. *)
Definition cookieValue (c : Cookie) : Json.value :=
  Json.Obj
    ([ ("name", Json.Str (name c)); ("value", Json.Str (value c));
       ("domain", domain c); ("path", path c);
       ("httpOnly", Json.Bool (httpOnly c)); ("secure", Json.Bool (secure c)) ]
     ++ match sameSite c with Some v => [("sameSite", v)] | None => [] end
     ++ match expires c with Some n => [("expires", Json.Num n)] | None => [] end)%list.

End ScreenshotPost.

(** ** Vocabulary of the specification *)

Module Spec.

Import FbScrape.

(** [candidate x identity] pairs in row-major order: every identity for
    the first candidate, then every identity for the second, ... *)
Definition rowMajor (candidates uas : list string) : list (string * string) :=
  flat_map (fun c => map (fun ua => (c, ua)) uas) candidates.

Definition entryOf (p : string * string) : string := triedEntry (fst p) (snd p).

(** The index of the first element that satisfies [f]. *)
Fixpoint first_index (A : Type) (f : A -> bool) (l : list A) : option nat :=
  match l with
  | [] => None
  | a :: rest =>
      if f a then Some 0
      else match first_index f rest with Some n => Some (S n) | None => None end
  end.

(** An attempt qualifies when it got a response that is HTTP-successful,
    has a body and is not a login interstitial. *)
Definition qualifies (res : option FetchResult) : bool :=
  match res with
  | Some r => ok r && Js.truthy (text r) && negb (isFacebookLoginInterstitial (text r))
  | None => false
  end.

(** The same without the body: HTTP-successful and not a login
    interstitial. *)
Definition httpOkNotLogin (res : option FetchResult) : bool :=
  match res with
  | Some r => ok r && negb (isFacebookLoginInterstitial (text r))
  | None => false
  end.

Section Attempts.
Variable N : Network.

(** What the network answers when the pairs are fetched one after the
    other, all of them. *)
Fixpoint attempts (w : World N) (ps : list (string * string))
  : list (option FetchResult) :=
  match ps with
  | [] => []
  | (c, ua) :: rest =>
      let (res, w') := safeFetch N w c (buildHeaders ua) in
      res :: attempts w' rest
  end.

Fixpoint worldAfter (w : World N) (ps : list (string * string)) : World N :=
  match ps with
  | [] => w
  | (c, ua) :: rest =>
      worldAfter (snd (safeFetch N w c (buildHeaders ua))) rest
  end.

(** What the loop leaves in [html] and [finalUrl] when attempt [n] is
    the one it stops at. *)
Definition fetchedAt (ps : list (string * string))
           (rs : list (option FetchResult)) (n : nat) : option (string * string) :=
  match nth_error ps n, nth_error rs n with
  | Some (c, _), Some (Some r) => Some (text r, Js.or_else (url r) c)
  | _, _ => None
  end.
End Attempts.

(** [p] is a prefix of [s] up to the case of ASCII letters. *)
Fixpoint starts_with_ci (p s : string) : bool :=
  match p, s with
  | EmptyString, _ => true
  | String a p', String b s' => Js.eq_ci b a && starts_with_ci p' s'
  | String _ _, EmptyString => false
  end.

(** [s] is [t] up to the case of ASCII letters. *)
Definition equal_ci (t s : string) : bool :=
  starts_with_ci t s && (String.length s =? String.length t).

(** [s] ends with [t] up to the case of ASCII letters. *)
Fixpoint ends_with_ci (t s : string) : bool :=
  equal_ci t s ||
  match s with
  | String _ s' => ends_with_ci t s'
  | EmptyString => false
  end.

(** The rectangle of whole pixels at ([x], [y]), [w] wide and [h] high. *)
Definition pixels (x y w h : Z) : ScreenshotPost.Rect :=
  ScreenshotPost.mkRect (Js.num x) (Js.num y) (Js.num w) (Js.num h).


(** The box of the element that the region detector found and could
    measure, when it has positive width and height. *)
Definition detectedBox (E : ScreenshotPost.Env) : option ScreenshotPost.Rect :=
  if ScreenshotPost.returns E ScreenshotPost.QuerySelector
     && ScreenshotPost.element E
     && ScreenshotPost.returns E ScreenshotPost.BoundingBox
  then match ScreenshotPost.box E with
       | Some b =>
           if Js.num_gt (ScreenshotPost.width b) (Js.num 0)
              && Js.num_gt (ScreenshotPost.height b) (Js.num 0)
           then Some b else None
       | None => None
       end
  else None.

(** A browser session was acquired: one of the two launches returned. *)
Definition launched (e : ScreenshotPost.Event) : bool :=
  match e with
  | ScreenshotPost.Called ScreenshotPost.LaunchLocal true
  | ScreenshotPost.Called ScreenshotPost.LaunchLambda true => true
  | _ => false
  end.

Definition acquired (tr : list ScreenshotPost.Event) : bool := existsb launched tr.

Definition closeAttempt (e : ScreenshotPost.Event) : bool :=
  match e with
  | ScreenshotPost.Called ScreenshotPost.CloseAfterCapture _
  | ScreenshotPost.Called ScreenshotPost.CloseInCatch _ => true
  | _ => false
  end.

(** The last call of the run is [browser.close()]. *)
Definition closedAtExit (tr : list ScreenshotPost.Event) : bool :=
  match rev tr with
  | e :: _ => closeAttempt e
  | [] => false
  end.

(** The screenshots taken during a run, with their arguments. *)
Fixpoint shots (tr : list ScreenshotPost.Event) : list (bool * option ScreenshotPost.Rect) :=
  match tr with
  | [] => []
  | ScreenshotPost.Shot fullPage clip _ :: rest => (fullPage, clip) :: shots rest
  | ScreenshotPost.Called _ _ :: rest => shots rest
  end.

(** A call that neither acquires nor closes a session nor takes a
    screenshot. *)
Definition plain (e : ScreenshotPost.Event) : bool :=
  negb (launched e) && negb (closeAttempt e) &&
  match e with ScreenshotPost.Shot _ _ _ => false | _ => true end.

(** The arguments of the one screenshot a run may take: the clip of the
    detected box, or the full page when there is none. *)
Definition expectedShot (E : ScreenshotPost.Env) : bool * option ScreenshotPost.Rect :=
  match detectedBox E with
  | Some b => (false, Some (ScreenshotPost.clipOf b))
  | None => (true, None)
  end.

(** A computation is quiet when it leaves [browser] alone and makes plain
    calls only. *)
Definition Quiet (A : Type) (m : ScreenshotPost.M A) : Prop :=
  forall st : ScreenshotPost.State,
  exists evs : list ScreenshotPost.Event,
    fst (m st) = ScreenshotPost.mkState (ScreenshotPost.trace st ++ evs)%list
                   (ScreenshotPost.browser st) /\
    forallb plain evs = true.

(** A cookie record in normal form: the name is not empty, name and value
    are trimmed, and domain, path and sameSite hold a truthy value. *)
Definition normalized (k : ScreenshotPost.Cookie) : Prop :=
  Js.truthy (ScreenshotPost.name k) = true /\
  Js.trim (ScreenshotPost.name k) = ScreenshotPost.name k /\
  Js.trim (ScreenshotPost.value k) = ScreenshotPost.value k /\
  Json.truthy (ScreenshotPost.domain k) = true /\
  Json.truthy (ScreenshotPost.path k) = true /\
  exists v, ScreenshotPost.sameSite k = Some v /\ Json.truthy v = true.

(** The first non-empty string of a list, or the empty string. *)
Fixpoint first_nonempty (l : list string) : string :=
  match l with
  | [] => ""
  | a :: rest => if Js.truthy a then a else first_nonempty rest
  end.

(** Unescaping of the five entities in one pass, left to right: every
    entity of the input is replaced once, and the replacement is not read
    again.  [skip] counts the characters of the current entity that are
    still to be passed over. *)
Fixpoint unescape_from (s : string) (skip : nat) : string :=
  match s with
  | EmptyString => EmptyString
  | String c s' =>
      match skip with
      | S k => unescape_from s' k
      | O =>
          if Js.starts_with "&amp;" s then String "&" (unescape_from s' 4)
          else if Js.starts_with "&lt;" s then String "<" (unescape_from s' 3)
          else if Js.starts_with "&gt;" s then String ">" (unescape_from s' 3)
          else if Js.starts_with "&quot;" s then String FbScrape.dq (unescape_from s' 5)
          else if Js.starts_with "&#39;" s then String "'" (unescape_from s' 4)
          else String c (unescape_from s' 0)
      end
  end.

Definition unescapeHtml (s : string) : string := unescape_from s 0.

(** The decoded content of the first tag that a meta pattern matches. *)
Definition metaContent (re : Re.regex) (html : string) : string :=
  match Re.match1 re html with
  | Some raw => FbScrape.decodeHtml raw
  | None => ""
  end.

(** The image named by the page's meta tags: Open Graph image, then its
    secure-URL variant, then its URL variant. *)
Definition metaImage (html : string) : string :=
  first_nonempty [ metaContent FbScrape.re_ogImage html;
                   metaContent FbScrape.re_ogImageSecure html;
                   metaContent FbScrape.re_ogImageUrl html ].

(** An image URL qualifies when it is not a data URI, does not match the
    tracking-pixel and spacer names, and is not an SVG. *)
Definition qualifying (abs : string) : bool :=
  negb (Js.starts_with "data:" abs) &&
  negb (Re.test FbScrape.re_tracking abs) &&
  negb (Re.test FbScrape.re_svg abs).

(** [f] holds of [s] or of one of its suffixes. *)
Fixpoint anywhere (f : string -> bool) (s : string) : bool :=
  f s ||
  match s with
  | String _ s' => anywhere f s'
  | EmptyString => false
  end.

(** [w] occurs in [s], up to the case of ASCII letters. *)
Definition contains_ci (w s : string) : bool := anywhere (starts_with_ci w) s.

(** The tracking-pixel and spacer names. *)
Definition trackingName (abs : string) : bool :=
  contains_ci "pixel" abs || contains_ci "analytics" abs || contains_ci "spacer" abs.

(** [.svg], in any letter case, at the end of the URL or right before a
    question mark. *)
Definition svgFile (abs : string) : bool :=
  anywhere
    (fun t =>
       starts_with_ci ".svg" t &&
       match Js.drop 4 t with
       | EmptyString => true
       | String c _ => Ascii.eqb c "?"
       end) abs.

(** The same three conditions, read off the characters of the URL. *)
Definition acceptable (abs : string) : bool :=
  negb (Js.starts_with "data:" abs) && negb (trackingName abs) && negb (svgFile abs).

Section Images.
Variable P : Platform.

(** A meta image resolved against the base, or as written when it does
    not resolve. *)
Definition resolvedOrRaw (baseUrl image : string) : string :=
  match URL_parse_base P image baseUrl with
  | Some u => Url.href u
  | None => image
  end.

(** The original that a redirector URL carries: the decoded [url]
    parameter, when it is not empty, of a URL whose path contains
    [/safe_image.php]. *)
Definition redirectTarget (imageUrl : string) : option string :=
  match URL_parse P imageUrl with
  | Some u =>
      if Js.includes "/safe_image.php" (Url.pathname u) then
        match searchParams_get P u "url" with
        | Some (String c original) => decodeURIComponent P (String c original)
        | _ => None
        end
      else None
  | None => None
  end.

(** Proxy-unwrapping: a redirector URL is replaced by its original,
    serialised again when it parses as a URL; every other string is left
    as it is. *)
Definition unwrapped (imageUrl : string) : string :=
  match redirectTarget imageUrl with
  | Some decoded =>
      match URL_parse P decoded with
      | Some v => Url.href v
      | None => decoded
      end
  | None => imageUrl
  end.

(** The absolute URL of an [<img>] source, when it has one. *)
Definition resolveSrc (baseUrl src : string) : option string :=
  if Js.truthy src then
    match URL_parse_base P src baseUrl with
    | Some u => Some (Url.href u)
    | None => None
    end
  else None.

(** The qualifying images of a page, in document order. *)
Definition qualifyingImages (html baseUrl : string) : list string :=
  filter acceptable
    (ScreenshotPost.filter_some
       (map (resolveSrc baseUrl) (Re.exec_all FbScrape.re_img html))).

(** The fallback as the claim words it: the first qualifying image,
    proxy-unwrapped. *)
Definition firstQualifyingImage (html baseUrl : string) : string :=
  match qualifyingImages html baseUrl with
  | c :: _ => unwrapped c
  | [] => ""
  end.

(** The fallback with the redirector's preference: the first qualifying
    image whose URL contains [/safe_image.php], proxy-unwrapped, and
    otherwise the first qualifying image. *)
Definition fallbackImage (html baseUrl : string) : string :=
  match find (Js.includes "/safe_image.php") (qualifyingImages html baseUrl) with
  | Some c => unwrapped c
  | None =>
      match qualifyingImages html baseUrl with
      | c :: _ => c
      | [] => ""
      end
  end.

End Images.

(** The hostname is [facebook.com] or one of its subdomains. *)
Definition facebookDomain (h : string) : bool :=
  equal_ci "facebook.com" h || ends_with_ci ".facebook.com" h.

End Spec.

(** ** Example inputs

    A platform and a network for the concrete runs below.  The platform is
    the real one restricted to the inputs of the examples: each URL of
    [urls] parses to the record listed for it (the strings are their own
    serialisations), and every other input is answered as a failure. *)

Module Demo.

Definition https (host path : string) (query : option string) : Url.t :=
  Url.mk "https" "" "" (Some host) None path false query None.

Definition url_post : Url.t :=
  https "www.facebook.com" "/somepage/posts/123" None.

Definition url_mobile : Url.t :=
  https "m.facebook.com" "/somepage/posts/123" None.

Definition url_credentials : Url.t :=
  Url.mk "https" "user" "pw" (Some "www.facebook.com") None
         "/somepage/posts/123" false None None.

Definition url_notfacebook : Url.t := https "notfacebook.com" "/x" None.

Definition url_example : Url.t := https "example.com" "/article" None.

Definition url_icon : Url.t :=
  https "static.xx.fbcdn.net" "/rsrc.php/v3/y4/r/icon.png" None.

Definition url_safe_image : Url.t :=
  https "external.xx.fbcdn.net" "/safe_image.php"
        (Some "url=https%3A%2F%2Fexample.com%2Fphoto.jpg").

Definition url_photo : Url.t := https "example.com" "/photo.jpg" None.

Definition urls : list Url.t :=
  [ url_post; url_mobile; url_credentials; url_notfacebook; url_example;
    url_icon; url_safe_image; url_photo ].

Definition parse (s : string) : option Url.t :=
  find (fun u => String.eqb (Url.href u) s) urls.

(** A string in double quotes. *)
Definition quoted (s : string) : string :=
  String FbScrape.dq (s ++ String FbScrape.dq "").

(** The request body [{"url":"not a url"}]. *)
Definition body_not_a_url : string :=
  "{" ++ quoted "url" ++ ":" ++ quoted "not a url" ++ "}".

(** The request body [{"url":"https://www.facebook.com/somepage/posts/123"}]. *)
Definition body_post : string :=
  "{" ++ quoted "url" ++ ":" ++
  quoted "https://www.facebook.com/somepage/posts/123" ++ "}".

(** The request body [{"url":{"toString":1}}]. *)
Definition body_url_object : string :=
  "{" ++ quoted "url" ++ ":{" ++ quoted "toString" ++ ":1}}".

(** The cookie array [[{"name":"a","value":"b"}]] as JSON text. *)
Definition cookies_json : string :=
  "[{" ++ quoted "name" ++ ":" ++ quoted "a" ++ "," ++
  quoted "value" ++ ":" ++ quoted "b" ++ "}]".

Definition cookies_array : Json.value :=
  Json.Arr [ Json.Obj [ ("name", Json.Str "a"); ("value", Json.Str "b") ] ].

Definition platform : Platform :=
  mkPlatform
    parse
    (fun s _ => parse s)       (* the examples resolve absolute URLs only *)
    (fun u k =>
       if String.eqb k "url" && String.eqb (Url.href u) (Url.href url_safe_image)
       then Some "https://example.com/photo.jpg" else None)
    (fun s => if Js.includes "%" s then None else Some s)
    (fun s =>
       if String.eqb s body_not_a_url
       then Some (Json.Obj [ ("url", Json.Str "not a url") ])
       else if String.eqb s body_post
       then Some (Json.Obj
                    [ ("url", Json.Str "https://www.facebook.com/somepage/posts/123") ])
       else if String.eqb s cookies_json then Some cookies_array
       else if String.eqb s body_url_object
       then Some (Json.Obj [ ("url", Json.Obj [ ("toString", Json.Num "1") ]) ])
       else if String.eqb s "{}" then Some (Json.Obj [])
       else None).

(** A network that answers the first request with an empty 200 response
    and the second with a page. *)
Definition emptyThenPage : Network :=
  mkNetwork
    (fun (n : nat) (target : string) (_ : Headers) =>
       (match n with
        | 0 => Some (mkFetchResult true 200 target "")
        | 1 => Some (mkFetchResult true 200 target "<title>Post</title>")
        | _ => None
        end, S n)).

(** A network that answers the first request with a login wall (status
    200) and every later one with a page. *)
Definition wallThenPage : Network :=
  mkNetwork
    (fun (n : nat) (target : string) (_ : Headers) =>
       (match n with
        | 0 => Some (mkFetchResult true 200 target
                       "<title>Log into Facebook</title>")
        | _ => Some (mkFetchResult true 200 target "<title>Post</title>")
        end, S n)).

(** Environments of the render pipeline: one where every browser call
    returns and the post container is found, at the page's top-left
    corner; and one where nothing can even be launched. *)
Definition env_ok : ScreenshotPost.Env :=
  ScreenshotPost.mkEnv false (fun _ => true) true
    (Some (Spec.pixels 0 0 100 50)) "AAAA" "" "".

(** The same with the post container away from the page's edges. *)
Definition env_inner : ScreenshotPost.Env :=
  ScreenshotPost.mkEnv false (fun _ => true) true
    (Some (Spec.pixels 20 30 100 50)) "AAAA" "" "".


Definition env_down : ScreenshotPost.Env :=
  ScreenshotPost.mkEnv false (fun _ => false) false None "" "" "".

End Demo.

(** ** fb-scrape, the two earlier versions

    [src/netlify/functions/fb-scrape.js] holds two earlier versions of the
    function.  Both try every candidate once, with one set of headers, keep
    the page of every successful response and stop at the first page that
    has Open Graph tags; neither looks for a login interstitial.  The first
    goes through [safeFetch]; the second calls [fetch] itself and reads the
    body inside a [try]. *)

Module FbScrapeEarlier.

Import Re FbScrape.

(** [/<meta\s+property=Q og:(title|image|description)Q/i] *)
Definition re_containsOg : regex :=
  seq [ lit_i "<meta"; Plus ws; lit_i "property="; Chr (one_of quotes);
        lit_i "og:";
        Group (Alt (lit_i "title") (Alt (lit_i "image") (lit_i "description")));
        Chr (one_of quotes) ].

Definition containsOg (html : string) : bool := test re_containsOg html.

Definition buildHeaders : Headers :=
  [ ("User-Agent", "Mozilla/5.0 (Windows NT 10.0; Win64; x64) AppleWebKit/537.36 (KHTML, like Gecko) Chrome/124.0 Safari/537.36");
    ("Accept", "text/html,application/xhtml+xml,application/xml;q=0.9,*/*;q=0.8");
    ("Accept-Language", "en-US,en;q=0.9");
    ("Cache-Control", "no-cache") ].

Record Meta : Type := mkMeta {
  name : string;
  caption : string;
  image : string
}.

(** [extractMeta], the same in both versions. *)
Definition extractMeta (P : Platform) (html baseUrl : string) : Meta :=
  let pick := fun re =>
    match match1 re html with Some m1 => decodeHtml m1 | None => "" end in
  let ogTitle := pick re_ogTitle in
  let ogDesc := pick re_ogDesc in
  let ogImage := pick re_ogImage in
  let ogSite := pick re_ogSite in
  let twDesc := pick re_twDesc in
  let titleTag := extractTitle html in
  let image := ogImage in
  let image :=
    if Js.truthy image then
      match URL_parse_base P image baseUrl with
      | Some u => Url.href u
      | None => image
      end
    else image in
  let name := Js.or_else ogSite (Js.or_else ogTitle (Js.or_else titleTag "")) in
  let caption := Js.or_else ogDesc (Js.or_else twDesc "") in
  mkMeta name caption image.

(** *** The first version: the loop over [safeFetch] *)

Section First.
Variable N : Network.

(** The variables of the loop: [tried], and [html] with [finalUrl]. *)
Record LoopState : Type := mkLoop {
  world : World N;
  tried : list string;
  fetched : option (string * string)
}.

(** [for (const candidate of candidates) { ... }]; [fetched0] is what
    [html] and [finalUrl] hold when the loop reaches the candidate. *)
Fixpoint tryCandidates (candidates : list string) (w : World N)
         (tried0 : list string) (fetched0 : option (string * string)) : LoopState :=
  match candidates with
  | [] => mkLoop w tried0 fetched0
  | candidate :: rest =>
      let tried := (tried0 ++ [candidate])%list in
      let (res, w) := safeFetch N w candidate buildHeaders in
      match res with
      | Some r =>
          if ok r && Js.truthy (text r) then
            let fetched := Some (text r, Js.or_else (url r) candidate) in
            if containsOg (text r) then mkLoop w tried fetched
            else tryCandidates rest w tried fetched
          else tryCandidates rest w tried fetched0
      | None => tryCandidates rest w tried fetched0
      end
  end.

End First.

(** *** The second version: the loop over [fetch] *)

(** What [fetch] resolves to, as far as the loop reads it; [r_text] is
    [None] when reading the body fails. *)
Record RawResponse : Type := mkRawResponse {
  r_ok : bool;
  r_url : string;
  r_text : option string
}.

(** [fetch(...).catch(() => null)] *)
Record RawNetwork : Type := mkRawNetwork {
  RawWorld : Type;
  fetch : RawWorld -> string -> Headers -> option RawResponse * RawWorld
}.

Section Second.
Variable N : RawNetwork.

Record RawLoopState : Type := mkRawLoop {
  raw_world : RawWorld N;
  raw_tried : list string;
  raw_fetched : option (string * string)
}.

Fixpoint tryCandidatesRaw (candidates : list string) (w : RawWorld N)
         (tried0 : list string) (fetched0 : option (string * string)) : RawLoopState :=
  match candidates with
  | [] => mkRawLoop w tried0 fetched0
  | candidate :: rest =>
      let tried := (tried0 ++ [candidate])%list in
      let (res, w) := fetch N w candidate buildHeaders in
      match res with
      | Some r =>
          if r_ok r then
            match r_text r with
            | Some html =>
                let fetched := Some (html, Js.or_else (r_url r) candidate) in
                if containsOg html then mkRawLoop w tried fetched
                else tryCandidatesRaw rest w tried fetched
            | None => tryCandidatesRaw rest w tried fetched0
            end
          else tryCandidatesRaw rest w tried fetched0
      | None => tryCandidatesRaw rest w tried fetched0
      end
  end.

(** The status of the response to a POST whose body has [url] as its
    [url] member: 400 when [url] is falsy or not a string, 500 when it
    does not parse, 502 when [html] is [null] or empty after the loop,
    else 200. *)
Definition status (P : Platform) (url : Json.value) (w : RawWorld N) : nat :=
  match url with
  | Json.Str inputUrl =>
      if negb (Js.truthy inputUrl) then 400
      else
        match buildCandidateUrls P inputUrl with
        | None => 500
        | Some candidates =>
            match raw_fetched (tryCandidatesRaw candidates w [] None) with
            | Some (html, _) => if Js.truthy html then 200 else 502
            | None => 502
            end
        end
  | _ => 400
  end.

End Second.

End FbScrapeEarlier.

(** ** Vocabulary of the further properties *)

Module Law.

(** The shape of every record that the cookie header path builds: the
    fixed defaults, and name and value trimmed. *)
Definition headerRecord (k : ScreenshotPost.Cookie) : Prop :=
  ScreenshotPost.domain k = Json.Str ".facebook.com" /\
  ScreenshotPost.path k = Json.Str "/" /\
  ScreenshotPost.httpOnly k = false /\
  ScreenshotPost.secure k = true /\
  ScreenshotPost.sameSite k = None /\
  ScreenshotPost.expires k = None /\
  Js.trim (ScreenshotPost.name k) = ScreenshotPost.name k /\
  Js.trim (ScreenshotPost.value k) = ScreenshotPost.value k.

(** The record the header path builds for a name and a value. *)
Definition headerCookieOf (p : string * string) : ScreenshotPost.Cookie :=
  ScreenshotPost.mkCookie (fst p) (snd p) (Json.Str ".facebook.com") (Json.Str "/")
    false true None None.

(** No character of [s] is [c]. *)
Fixpoint lacks (c : ascii) (s : string) : bool :=
  match s with
  | EmptyString => true
  | String a s' => negb (Ascii.eqb a c) && lacks c s'
  end.

(** [s] neither starts nor ends with white space. *)
Definition trimmed (s : string) : bool := String.eqb (Js.trim s) s.

(** A cookie name and value as they can be written in a cookie header:
    the name is not empty, neither has white space around it nor a
    semicolon in it, and the name has no equals sign. *)
Definition headerPair (p : string * string) : bool :=
  Js.truthy (fst p) && trimmed (fst p) && trimmed (snd p) &&
  lacks "=" (fst p) && lacks ";" (fst p) && lacks ";" (snd p).

(** The cookie header for a list of names and values:
    [name=value; name2=value2]. *)
Definition part (p : string * string) : string := fst p ++ "=" ++ snd p.

Definition cookieHeader (pairs : list (string * string)) : string :=
  Json.join "; " (map part pairs).

(** *** The render pipeline as a list of calls *)

(** Calls made one after the other until one throws: the events they
    log, and whether all of them returned. *)
Fixpoint runOps (E : ScreenshotPost.Env) (ops : list ScreenshotPost.Op)
  : list ScreenshotPost.Event * bool :=
  match ops with
  | [] => ([], true)
  | op :: rest =>
      if ScreenshotPost.returns E op
      then (ScreenshotPost.Called op true :: fst (runOps E rest), snd (runOps E rest))
      else ([ScreenshotPost.Called op false], false)
  end.

Definition lambdaOps : list ScreenshotPost.Op :=
  [ScreenshotPost.ExecutablePath; ScreenshotPost.LaunchLambda].

Definition setupOps : list ScreenshotPost.Op :=
  [ScreenshotPost.NewPage; ScreenshotPost.SetDefaultNavigationTimeout;
   ScreenshotPost.SetDefaultTimeout; ScreenshotPost.SetUserAgent].

Definition interceptOps : list ScreenshotPost.Op :=
  [ScreenshotPost.SetRequestInterception; ScreenshotPost.OnRequest].

Definition preloadOps : list ScreenshotPost.Op :=
  [ScreenshotPost.GotoRoot; ScreenshotPost.SetCookie].

Definition targetOps : list ScreenshotPost.Op :=
  [ScreenshotPost.GotoTarget; ScreenshotPost.AddStyleTag; ScreenshotPost.WaitForTimeout].

(** A session is acquired by the local launch off Lambda, and otherwise
    by the Lambda launch. *)
Definition launchOk (E : ScreenshotPost.Env) : bool :=
  (negb (ScreenshotPost.runningOnLambda E)
   && ScreenshotPost.returns E ScreenshotPost.LaunchLocal)
  || snd (runOps E lambdaOps).

Definition launchTrace (E : ScreenshotPost.Env) : list ScreenshotPost.Event :=
  if ScreenshotPost.runningOnLambda E then fst (runOps E lambdaOps)
  else if ScreenshotPost.returns E ScreenshotPost.LaunchLocal
       then [ScreenshotPost.Called ScreenshotPost.LaunchLocal true]
       else ScreenshotPost.Called ScreenshotPost.LaunchLocal false
            :: fst (runOps E lambdaOps).

Definition pageOk (E : ScreenshotPost.Env) : bool :=
  snd (runOps E setupOps) && snd (runOps E targetOps).

Definition pageTrace (E : ScreenshotPost.Env) (cookies : list ScreenshotPost.Cookie)
  : list ScreenshotPost.Event :=
  if snd (runOps E setupOps)
  then (fst (runOps E setupOps)
        ++ fst (runOps E interceptOps)
        ++ match cookies with
           | [] => []
           | _ :: _ => fst (runOps E preloadOps)
           end
        ++ fst (runOps E targetOps))%list
  else fst (runOps E setupOps).

Definition captureOk (E : ScreenshotPost.Env) : bool :=
  ScreenshotPost.returns E ScreenshotPost.Screenshot
  && ScreenshotPost.returns E ScreenshotPost.CloseAfterCapture.

Definition captureTrace (E : ScreenshotPost.Env) : list ScreenshotPost.Event :=
  (fst (runOps E (ScreenshotPost.QuerySelector
                  :: if ScreenshotPost.element E
                     then [ScreenshotPost.BoundingBox] else []))
   ++ ScreenshotPost.Shot (fst (Spec.expectedShot E)) (snd (Spec.expectedShot E))
        (ScreenshotPost.returns E ScreenshotPost.Screenshot)
   :: (if ScreenshotPost.returns E ScreenshotPost.Screenshot
       then [ScreenshotPost.Called ScreenshotPost.CloseAfterCapture
               (ScreenshotPost.returns E ScreenshotPost.CloseAfterCapture)]
       else []))%list.

(** Every call that is not wrapped in a [try] of its own returned. *)
Definition succeeds (E : ScreenshotPost.Env) : bool :=
  launchOk E && pageOk E && captureOk E.

Definition renderTrace (E : ScreenshotPost.Env) (cookies : list ScreenshotPost.Cookie)
  : list ScreenshotPost.Event :=
  (launchTrace E
   ++ (if launchOk E
       then pageTrace E cookies ++ (if pageOk E then captureTrace E else [])
       else [])
   ++ (if launchOk E && negb (succeeds E)
       then [ScreenshotPost.Called ScreenshotPost.CloseInCatch
               (ScreenshotPost.returns E ScreenshotPost.CloseInCatch)]
       else []))%list.

Definition renderResponse (E : ScreenshotPost.Env) (url : string)
  : ScreenshotPost.Response :=
  if succeeds E
  then ScreenshotPost.mkResponse 200
         (ScreenshotPost.Captured ("data:image/jpeg;base64," ++ ScreenshotPost.buffer E) url)
  else ScreenshotPost.mkResponse 500 ScreenshotPost.FailedToScreenshot.

(** The operation of an event, a screenshot counted as [Screenshot]. *)
Definition opOf (e : ScreenshotPost.Event) : ScreenshotPost.Op :=
  match e with
  | ScreenshotPost.Called op _ => op
  | ScreenshotPost.Shot _ _ _ => ScreenshotPost.Screenshot
  end.

Definition op_eqb (a b : ScreenshotPost.Op) : bool :=
  match a, b with
  | ScreenshotPost.LaunchLocal, ScreenshotPost.LaunchLocal
  | ScreenshotPost.ExecutablePath, ScreenshotPost.ExecutablePath
  | ScreenshotPost.LaunchLambda, ScreenshotPost.LaunchLambda
  | ScreenshotPost.NewPage, ScreenshotPost.NewPage
  | ScreenshotPost.SetDefaultNavigationTimeout, ScreenshotPost.SetDefaultNavigationTimeout
  | ScreenshotPost.SetDefaultTimeout, ScreenshotPost.SetDefaultTimeout
  | ScreenshotPost.SetUserAgent, ScreenshotPost.SetUserAgent
  | ScreenshotPost.SetRequestInterception, ScreenshotPost.SetRequestInterception
  | ScreenshotPost.OnRequest, ScreenshotPost.OnRequest
  | ScreenshotPost.GotoRoot, ScreenshotPost.GotoRoot
  | ScreenshotPost.SetCookie, ScreenshotPost.SetCookie
  | ScreenshotPost.GotoTarget, ScreenshotPost.GotoTarget
  | ScreenshotPost.AddStyleTag, ScreenshotPost.AddStyleTag
  | ScreenshotPost.WaitForTimeout, ScreenshotPost.WaitForTimeout
  | ScreenshotPost.QuerySelector, ScreenshotPost.QuerySelector
  | ScreenshotPost.BoundingBox, ScreenshotPost.BoundingBox
  | ScreenshotPost.Screenshot, ScreenshotPost.Screenshot
  | ScreenshotPost.CloseAfterCapture, ScreenshotPost.CloseAfterCapture
  | ScreenshotPost.CloseInCatch, ScreenshotPost.CloseInCatch => true
  | _, _ => false
  end.

(** The event is a call of [op] that returned. *)
Definition returned (op : ScreenshotPost.Op) (e : ScreenshotPost.Event) : bool :=
  match e with
  | ScreenshotPost.Called op' true => op_eqb op op'
  | _ => false
  end.

(** The event is a call of [op], whether it returned or threw. *)
Definition calls (op : ScreenshotPost.Op) (e : ScreenshotPost.Event) : bool :=
  op_eqb op (opOf e).

(** *** A platform that parses the rewritten URL *)

Definition url_mbasic : Url.t :=
  Demo.https "mbasic.facebook.com" "/somepage/posts/123" None.

Definition mirrorPlatform : Platform :=
  mkPlatform
    (fun s => find (fun u => String.eqb (Url.href u) s) (url_mbasic :: Demo.urls))
    (URL_parse_base Demo.platform)
    (searchParams_get Demo.platform)
    (decodeURIComponent Demo.platform)
    (JSON_parse Demo.platform).

(** An environment where every browser call returns and the cookie
    header [a=b] is configured. *)
Definition env_cookies : ScreenshotPost.Env :=
  ScreenshotPost.mkEnv false (fun _ => true) true
    (Some (Spec.pixels 20 30 100 50)) "AAAA" "" "a=b".

(** An environment where closing the browser throws. *)
Definition env_stuck : ScreenshotPost.Env :=
  ScreenshotPost.mkEnv false
    (fun op => match op with
               | ScreenshotPost.CloseAfterCapture | ScreenshotPost.CloseInCatch => false
               | _ => true
               end)
    true (Some (Spec.pixels 20 30 100 50)) "AAAA" "" "".

(** *** Patterns without assertions *)

(** The pattern has neither [^] nor [$]. *)
Fixpoint anchor_free (r : Re.regex) : bool :=
  match r with
  | Re.Bos | Re.Eos => false
  | Re.Cat a b | Re.Alt a b => anchor_free a && anchor_free b
  | Re.Group a => anchor_free a
  | Re.Empty | Re.Chr _ | Re.Star _ => true
  end.

(** *** Whole pixels *)

Definition num_eqb (a b : Js.number) : bool :=
  match a, b with
  | SpecFloat.S754_zero s, SpecFloat.S754_zero t => Bool.eqb s t
  | SpecFloat.S754_infinity s, SpecFloat.S754_infinity t => Bool.eqb s t
  | SpecFloat.S754_nan, SpecFloat.S754_nan => true
  | SpecFloat.S754_finite s m e, SpecFloat.S754_finite t n f =>
      Bool.eqb s t && Pos.eqb m n && Z.eqb e f
  | _, _ => false
  end.

(** [f] holds of the [n] integers from [z] on. *)
Fixpoint allFrom (n : nat) (z : Z) (f : Z -> bool) : bool :=
  match n with
  | O => true
  | S n' => f z && allFrom n' (z + 1) f
  end.

(** On the integer [z], the arithmetic of the clip is exact, and [> 0]
    is the order of the integers. *)
Definition wholePixel (z : Z) : bool :=
  num_eqb (Js.num_add (Js.num z) (Js.num 16)) (Js.num (z + 16)) &&
  num_eqb (Js.math_max (Js.num 0) (Js.num_sub (Js.num z) (Js.num 8)))
          (Js.num (Z.max 0 (z - 8))) &&
  Bool.eqb (Js.num_gt (Js.num z) (Js.num 0)) (0 <? z)%Z.

(** *** The earlier fetch loops *)

(** The index of the last element that satisfies [f]. *)
Fixpoint last_index (A : Type) (f : A -> bool) (l : list A) : option nat :=
  match l with
  | [] => None
  | a :: rest =>
      match last_index f rest with
      | Some n => Some (S n)
      | None => if f a then Some 0 else None
      end
  end.

(** What [safeFetch] answers when the candidates are fetched one after
    the other, all of them, with the headers of the earlier versions. *)
Fixpoint responses (N : Network) (w : World N) (cs : list string)
  : list (option FetchResult) :=
  match cs with
  | [] => []
  | c :: rest =>
      let (res, w') := safeFetch N w c FbScrapeEarlier.buildHeaders in
      res :: responses N w' rest
  end.

(** The response has status ok and a body that is not empty. *)
Definition usable (res : option FetchResult) : bool :=
  match res with
  | Some r => ok r && Js.truthy (text r)
  | None => false
  end.

(** The response is usable and its body has Open Graph tags. *)
Definition ogPage (res : option FetchResult) : bool :=
  match res with
  | Some r => ok r && Js.truthy (text r) && FbScrapeEarlier.containsOg (text r)
  | None => false
  end.

(** The page and final URL that response [n] gives. *)
Definition pageAt (cs : list string) (rs : list (option FetchResult)) (n : nat)
  : option (string * string) :=
  match nth_error cs n, nth_error rs n with
  | Some c, Some (Some r) => Some (text r, Js.or_else (url r) c)
  | _, _ => None
  end.

(** The same for the second version, where the body is read apart. *)
Fixpoint rawResponses (N : FbScrapeEarlier.RawNetwork) (w : FbScrapeEarlier.RawWorld N)
         (cs : list string) : list (option FbScrapeEarlier.RawResponse) :=
  match cs with
  | [] => []
  | c :: rest =>
      let (res, w') := FbScrapeEarlier.fetch N w c FbScrapeEarlier.buildHeaders in
      res :: rawResponses N w' rest
  end.

(** The body of a response with status ok whose body could be read. *)
Definition readable (res : option FbScrapeEarlier.RawResponse) : option string :=
  match res with
  | Some r => if FbScrapeEarlier.r_ok r then FbScrapeEarlier.r_text r else None
  | None => None
  end.

Definition isReadable (res : option FbScrapeEarlier.RawResponse) : bool :=
  match readable res with Some _ => true | None => false end.

Definition rawOgPage (res : option FbScrapeEarlier.RawResponse) : bool :=
  match readable res with
  | Some html => FbScrapeEarlier.containsOg html
  | None => false
  end.

Definition rawPageAt (cs : list string)
           (rs : list (option FbScrapeEarlier.RawResponse)) (n : nat)
  : option (string * string) :=
  match nth_error cs n, nth_error rs n with
  | Some c, Some (Some r) =>
      match readable (Some r) with
      | Some html => Some (html, Js.or_else (FbScrapeEarlier.r_url r) c)
      | None => None
      end
  | _, _ => None
  end.

(** A network whose first answer is a page without Open Graph tags and
    whose second answer has status ok and an empty body. *)
Definition pageThenEmpty : FbScrapeEarlier.RawNetwork :=
  FbScrapeEarlier.mkRawNetwork
    (fun (n : nat) (target : string) (_ : Headers) =>
       (match n with
        | 0 => Some (FbScrapeEarlier.mkRawResponse true target
                       (Some "<title>Post</title>"))
        | 1 => Some (FbScrapeEarlier.mkRawResponse true target (Some ""))
        | _ => None
        end, S n)).

(** *** Entities *)

(** One pass over a text, left to right, that replaces every entity of
    the table by its character; the replacement is not read again.  At
    each place the first entity of the table that starts there is taken.
    [skip] counts the characters of the current entity that are still to
    be passed over. *)
Fixpoint unescape_with (T : list (string * ascii)) (s : string) (skip : nat) : string :=
  match s with
  | EmptyString => EmptyString
  | String c s' =>
      match skip with
      | S k => unescape_with T s' k
      | O =>
          match find (fun p => Js.starts_with (fst p) s) T with
          | Some (e, ch) => String ch (unescape_with T s' (String.length e - 1))
          | None => String c (unescape_with T s' 0)
          end
      end
  end.

(** The entities other than [&amp;], in the order of [decodeHtml]. *)
Definition entities4 : list (string * ascii) :=
  [ ("&lt;", "<"%char); ("&gt;", ">"%char); ("&quot;", FbScrape.dq);
    ("&#39;", "'"%char) ].

(** An entity that can follow a pass which writes [ch]: an ampersand and
    a body with neither an ampersand nor [ch]. *)
Definition entity_ok (ch : ascii) (p : string * ascii) : bool :=
  match fst p with
  | String a b => Ascii.eqb a "&" && lacks "&" b && lacks ch b
  | EmptyString => false
  end.

(** *** Tags *)

(** Every character of [s] satisfies [p]. *)
Fixpoint all_chars (p : ascii -> bool) (s : string) : bool :=
  match s with
  | EmptyString => true
  | String c s' => p c && all_chars p s'
  end.

(** The start of a meta tag up to the quote that opens the content:
    [<meta ATTR=Q KEY Q content=Q], with [Q] the double quote. *)
Definition metaOpen (attr key : string) : string :=
  "<meta" ++ " " ++ attr ++ "=" ++ String FbScrape.dq (key ++ String FbScrape.dq
    (" " ++ "content=" ++ String FbScrape.dq "")).

(** *** A platform that resolves an image in a folder of pixel art *)

Definition url_pixel_art : Url.t :=
  Demo.https "example.com" "/Pixel-art/cat.jpg" None.

Definition artPlatform : Platform :=
  mkPlatform
    (URL_parse Demo.platform)
    (fun s _ => find (fun u => String.eqb (Url.href u) s) (url_pixel_art :: Demo.urls))
    (searchParams_get Demo.platform)
    (decodeURIComponent Demo.platform)
    (JSON_parse Demo.platform).

(** *** A platform for pages with images

    The platform of the examples with more URLs: a pixel, a logo, a
    placeholder, and a redirector URL whose original is written without
    its path. *)

Definition url_pixel : Url.t := Demo.https "example.com" "/pixel.gif" None.
Definition url_logo : Url.t := Demo.https "example.com" "/logo.svg" None.
Definition url_placeholder : Url.t := Demo.https "example.com" "/placeholder.gif" None.
Definition url_home : Url.t := Demo.https "example.com" "/" None.

Definition url_safe_home : Url.t :=
  Demo.https "external.xx.fbcdn.net" "/safe_image.php"
             (Some "url=https%3A%2F%2Fexample.com").

(** What [new URL] makes of the inputs of the examples: a serialised URL
    parses to its record, and [https://example.com] to the record with
    the path [/]. *)
Definition imageParse (s : string) : option Url.t :=
  if String.eqb s "https://example.com" then Some url_home
  else find (fun u => String.eqb (Url.href u) s)
            (url_pixel :: url_logo :: url_placeholder :: url_home :: url_safe_home
               :: Demo.urls).

Definition imagePlatform : Platform :=
  mkPlatform
    imageParse
    (fun s _ => imageParse s)  (* the examples resolve absolute URLs only *)
    (fun u k =>
       if String.eqb k "url" && String.eqb (Url.href u) (Url.href Demo.url_safe_image)
       then Some "https://example.com/photo.jpg"
       else if String.eqb k "url" && String.eqb (Url.href u) (Url.href url_safe_home)
       then Some "https://example.com"
       else None)
    (decodeURIComponent Demo.platform)
    (JSON_parse Demo.platform).

End Law.

(** * Properties *)

(** ** The static fetcher's loop *)

Section FetchLoop.
Import FbScrape Spec.
Variable P : Platform.
Variable N : Network.

Lemma first_index_app (A : Type) (f : A -> bool) (l1 l2 : list A) :
  first_index f (l1 ++ l2)%list =
  match first_index f l1 with
  | Some n => Some n
  | None =>
      match first_index f l2 with
      | Some n => Some (List.length l1 + n)
      | None => None
      end
  end.
Proof.
  induction l1 as [|a l1 IH]; simpl.
  - destruct (first_index f l2); reflexivity.
  - destruct (f a); [reflexivity|].
    rewrite IH. destruct (first_index f l1); [reflexivity|].
    destruct (first_index f l2); reflexivity.
Qed.

Lemma first_index_lt (A : Type) (f : A -> bool) (l : list A) (n : nat) :
  first_index f l = Some n -> n < List.length l.
Proof.
  revert n. induction l as [|a l IH]; simpl; intros n H; [discriminate|].
  destruct (f a).
  - inversion H. lia.
  - destruct (first_index f l) as [m|]; [|discriminate].
    inversion H. specialize (IH m eq_refl). lia.
Qed.

Lemma attempts_length (w : World N) ps :
  List.length (attempts N w ps) = List.length ps.
Proof.
  revert w. induction ps as [|[c ua] ps IH]; intros w; simpl; [reflexivity|].
  destruct (safeFetch N w c (buildHeaders ua)) as [res w']. simpl. now rewrite IH.
Qed.

Lemma attempts_app (w : World N) ps1 ps2 :
  attempts N w (ps1 ++ ps2)%list =
  (attempts N w ps1 ++ attempts N (worldAfter N w ps1) ps2)%list.
Proof.
  revert w. induction ps1 as [|[c ua] ps1 IH]; intros w; simpl; [reflexivity|].
  destruct (safeFetch N w c (buildHeaders ua)) as [res w']. simpl. now rewrite IH.
Qed.

Lemma worldAfter_app (w : World N) ps1 ps2 :
  worldAfter N w (ps1 ++ ps2)%list = worldAfter N (worldAfter N w ps1) ps2.
Proof.
  revert w. induction ps1 as [|[c ua] ps1 IH]; intros w; simpl; [reflexivity|].
  apply IH.
Qed.

(** One turn of the inner loop: the attempt is recorded, and the loop
    ends exactly when the response qualifies. *)
Lemma tryUserAgents_step (c ua : string) (rest : list string)
      (w : World N) (tried0 : list string) :
  tryUserAgents N c (ua :: rest) w tried0 =
  (let (res, w') := safeFetch N w c (buildHeaders ua) in
   if qualifies res
   then mkLoop N w' (tried0 ++ [triedEntry c ua]) (fetchedAt [(c, ua)] [res] 0)
   else tryUserAgents N c rest w' (tried0 ++ [triedEntry c ua])).
Proof.
  cbn [tryUserAgents].
  destruct (safeFetch N w c (buildHeaders ua)) as [[r|] w']; [|reflexivity].
  unfold qualifies, fetchedAt. cbn [nth_error].
  destruct (ok r); [|reflexivity].
  destruct (Js.truthy (text r)); [|reflexivity].
  destruct (isFacebookLoginInterstitial (text r)); reflexivity.
Qed.

(** The inner loop over the identities of one candidate. *)
Lemma tryUserAgents_spec (c : string) (uas : list string) :
  forall (w : World N) (tried0 : list string),
    let ps := map (fun ua => (c, ua)) uas in
    let rs := attempts N w ps in
    let st := tryUserAgents N c uas w tried0 in
    match first_index qualifies rs with
    | Some n =>
        tried st = (tried0 ++ map entryOf (firstn (S n) ps))%list /\
        fetched st = fetchedAt ps rs n /\ fetched st <> None
    | None =>
        tried st = (tried0 ++ map entryOf ps)%list /\
        fetched st = None /\ world st = worldAfter N w ps
    end.
Proof.
  induction uas as [|ua uas IH]; intros w tried0; cbv zeta.
  - simpl. now rewrite app_nil_r.
  - rewrite tryUserAgents_step.
    cbn [map attempts worldAfter].
    destruct (safeFetch N w c (buildHeaders ua)) as [res w'] eqn:Hf.
    cbn [first_index snd].
    destruct (qualifies res) eqn:Hq.
    + cbn [tried fetched]. repeat split.
      destruct res as [r|]; [discriminate | discriminate Hq].
    + specialize (IH w' (tried0 ++ [triedEntry c ua])%list). cbv zeta in IH.
      destruct (first_index qualifies (attempts N w' (map (fun ua0 => (c, ua0)) uas)))
        as [n|].
      * destruct IH as (Ht & Hh & Hn). repeat split; [|exact Hh|exact Hn].
        rewrite Ht, <- app_assoc. reflexivity.
      * destruct IH as (Ht & Hh & Hw). repeat split; [|exact Hh|exact Hw].
        rewrite Ht, <- app_assoc. reflexivity.
Qed.

Lemma fetchedAt_app_l ps1 ps2 (rs1 rs2 : list (option FetchResult)) n :
  List.length rs1 = List.length ps1 -> n < List.length ps1 ->
  fetchedAt (ps1 ++ ps2) (rs1 ++ rs2) n = fetchedAt ps1 rs1 n.
Proof.
  intros Hlen Hn. unfold fetchedAt.
  rewrite !nth_error_app1 by lia. reflexivity.
Qed.

Lemma fetchedAt_app_r ps1 ps2 (rs1 rs2 : list (option FetchResult)) n :
  List.length rs1 = List.length ps1 ->
  fetchedAt (ps1 ++ ps2) (rs1 ++ rs2) (List.length rs1 + n) = fetchedAt ps2 rs2 n.
Proof.
  intros Hlen. unfold fetchedAt.
  rewrite !nth_error_app2 by lia.
  replace (List.length rs1 + n - List.length ps1) with n by lia.
  replace (List.length rs1 + n - List.length rs1) with n by lia.
  reflexivity.
Qed.

(** The nested loops: the candidates, and for each one its identities. *)
Lemma tryCandidates_spec (uas : list string) (candidates : list string) :
  forall (w : World N) (tried0 : list string),
    let ps := rowMajor candidates uas in
    let rs := attempts N w ps in
    let st := tryCandidates N candidates uas w tried0 in
    match first_index qualifies rs with
    | Some n =>
        tried st = (tried0 ++ map entryOf (firstn (S n) ps))%list /\
        fetched st = fetchedAt ps rs n /\ fetched st <> None
    | None =>
        tried st = (tried0 ++ map entryOf ps)%list /\
        fetched st = None /\ world st = worldAfter N w ps
    end.
Proof.
  induction candidates as [|c cs IH]; intros w tried0;
    cbn [tryCandidates rowMajor flat_map]; cbv zeta.
  - simpl. now rewrite app_nil_r.
  - pose proof (tryUserAgents_spec c uas w tried0) as Hin. cbv zeta in Hin.
    set (ps1 := map (fun ua => (c, ua)) uas) in *.
    set (st1 := tryUserAgents N c uas w tried0) in *.
    rewrite attempts_app, first_index_app.
    pose proof (attempts_length w ps1) as Hlen.
    destruct (first_index qualifies (attempts N w ps1)) as [n|] eqn:Hfi.
    + destruct Hin as (Ht & Hh & Hn).
      apply first_index_lt in Hfi. rewrite Hlen in Hfi.
      destruct (fetched st1) as [x|] eqn:Hx; [|congruence].
      rewrite Hx. repeat split; [| |discriminate].
      * rewrite Ht, firstn_app.
        replace (S n - List.length ps1) with 0 by lia.
        simpl. now rewrite app_nil_r.
      * rewrite fetchedAt_app_l by lia. congruence.
    + destruct Hin as (Ht & Hh & Hw). rewrite Hh.
      specialize (IH (world st1) (tried st1)). cbv zeta in IH.
      fold (rowMajor cs uas). rewrite <- Hw.
      destruct (first_index qualifies
                  (attempts N (world st1) (rowMajor cs uas))) as [m|].
      * destruct IH as (Ht' & Hh' & Hn'). repeat split; [| |exact Hn'].
        -- rewrite Ht', Ht, <- app_assoc, <- map_app. do 2 f_equal.
           rewrite firstn_app, Hlen.
           rewrite (@firstn_all2 _ _ ps1) by lia.
           f_equal. f_equal. lia.
        -- rewrite Hh', fetchedAt_app_r by exact Hlen. reflexivity.
      * destruct IH as (Ht' & Hh' & Hw'). repeat split; [|exact Hh'|].
        -- rewrite Ht', Ht, <- app_assoc, <- map_app. reflexivity.
        -- rewrite Hw', worldAfter_app, Hw. reflexivity.
Qed.

(** C1, as amended.  The loop attempts the (candidate, identity) pairs in
    row-major order and stops at the first attempt whose response is
    HTTP-successful, has a non-empty body and is not a login interstitial
    (a login wall with status 200 does not qualify, and the loop goes on
    to the next pair): [tried] then holds the attempts up to and
    including that one, and [html] and [finalUrl] come from its response.
    When no attempt qualifies every pair has been attempted, and the
    handler answers 'fetch-failed' with the list of all of them.  (A [url]
    that is empty or not a string never reaches the loop: the answer is
    'missing-url'; one that does not parse is answered with
    'exception'.) *)
Theorem static_fetcher_stops_at_first_qualifying :
  (forall (candidates uas : list string) (w : World N),
      let ps := rowMajor candidates uas in
      let rs := attempts N w ps in
      let st := tryCandidates N candidates uas w [] in
      match first_index qualifies rs with
      | Some n =>
          tried st = map entryOf (firstn (S n) ps) /\
          fetched st = fetchedAt ps rs n /\ fetched st <> None
      | None =>
          tried st = map entryOf ps /\ fetched st = None
      end) /\
  (forall (url : Json.value) (w : World N),
      match url with
      | Json.Str inputUrl =>
          if Js.truthy inputUrl then
            match buildCandidateUrls P inputUrl with
            | Some candidates =>
                let ps := rowMajor candidates userAgents in
                match first_index qualifies (attempts N w ps) with
                | Some n =>
                    exists r, fst (scrape P N url w) = Success r /\
                              s_tried r = map entryOf (firstn (S n) ps)
                | None =>
                    fst (scrape P N url w) = FetchFailed (map entryOf ps)
                end
            | None => fst (scrape P N url w) = Exception
            end
          else fst (scrape P N url w) = MissingUrl
      | _ => fst (scrape P N url w) = MissingUrl
      end).
Proof.
  split.
  - intros candidates uas w.
    pose proof (tryCandidates_spec uas candidates w []) as H. cbv zeta in H |- *.
    destruct (first_index qualifies (attempts N w (rowMajor candidates uas))).
    + exact H.
    + destruct H as (Ht & Hh & _). now split.
  - intros url w. unfold scrape.
    destruct url as [| | | |inputUrl| |]; try reflexivity.
    destruct (Js.truthy inputUrl); cbn [negb]; [|reflexivity].
    destruct (buildCandidateUrls P inputUrl) as [candidates|]; [|reflexivity].
    pose proof (tryCandidates_spec userAgents candidates w []) as H.
    cbv zeta in H |- *.
    destruct (first_index qualifies (attempts N w (rowMajor candidates userAgents))).
    + destruct H as (Ht & Hh & Hn).
      destruct (fetched (tryCandidates N candidates userAgents w [])) as [[html finalUrl]|];
        [|congruence].
      eexists. split; [reflexivity|]. exact Ht.
    + destruct H as (Ht & Hh & _). rewrite Hh. simpl. now rewrite Ht.
Qed.

End FetchLoop.

(** C1 as stated fails: an HTTP-successful response that is not a login
    interstitial but has an empty body does not stop the loop.  Here the
    first attempt is such a response, and the loop goes on to the second. *)
Lemma static_fetcher_empty_body_counterexample :
  let ps := Spec.rowMajor ["https://www.facebook.com/somepage/posts/123"] ["chrome"; "fb"] in
  let st := FbScrape.tryCandidates Demo.emptyThenPage
              ["https://www.facebook.com/somepage/posts/123"] ["chrome"; "fb"] 0 [] in
  Spec.first_index Spec.httpOkNotLogin (Spec.attempts Demo.emptyThenPage 0 ps) = Some 0 /\
  FbScrape.tried st <> map Spec.entryOf (firstn 1 ps) /\
  FbScrape.tried st = map Spec.entryOf (firstn 2 ps).
Proof.
  vm_compute. repeat split. discriminate.
Qed.

(** ** Facts about the matcher *)

Section MatcherFacts.
Import Re Spec.
Variable A : Type.

Lemma run_lit_i (t : string) :
  forall (i : nat) (s : string) (cap : option string) (k : Cont A),
    run (lit_i t) i s cap k =
    if starts_with_ci t s
    then k (i + String.length t) (Js.drop (String.length t) s) cap
    else None.
Proof.
  induction t as [|c t IH]; intros i s cap k; simpl.
  - now rewrite Nat.add_0_r.
  - destruct s as [|b s]; [reflexivity|].
    unfold ch_i at 1. destruct (Js.eq_ci b c); simpl; [|reflexivity].
    rewrite IH. now rewrite Nat.add_succ_r.
Qed.

Lemma run_lit (t : string) :
  forall (i : nat) (s : string) (cap : option string) (k : Cont A),
    run (lit t) i s cap k =
    if Js.starts_with t s
    then k (i + String.length t) (Js.drop (String.length t) s) cap
    else None.
Proof.
  induction t as [|c t IH]; intros i s cap k; simpl.
  - now rewrite Nat.add_0_r.
  - destruct s as [|b s]; [reflexivity|].
    unfold ch at 1. rewrite Ascii.eqb_sym.
    destruct (Ascii.eqb c b); simpl; [|reflexivity].
    rewrite IH. now rewrite Nat.add_succ_r.
Qed.

End MatcherFacts.

Section SuffixFacts.
Import Re Spec.

Lemma drop_all_iff (t s : string) :
  starts_with_ci t s = true ->
  (Js.drop (String.length t) s = EmptyString <-> String.length s = String.length t).
Proof.
  revert s. induction t as [|c t IH]; intros s H; simpl in *.
  - destruct s; simpl; split; intros E; try reflexivity; discriminate.
  - destruct s as [|b s]; [discriminate|].
    apply andb_true_iff in H. destruct H as [_ H].
    specialize (IH s H). simpl. rewrite IH. split; intros E; congruence.
Qed.

(** [/T$/i] matches at a position exactly when what is left there is [T]
    up to case. *)
Lemma match_at_lit_i_eos (t : string) (i : nat) (s : string) :
  match match_at (seq [lit_i t; Eos]) i s with Some _ => true | None => false end
  = equal_ci t s.
Proof.
  unfold match_at, equal_ci. simpl. rewrite run_lit_i.
  destruct (starts_with_ci t s) eqn:Hs; simpl; [|reflexivity].
  pose proof (drop_all_iff t s Hs) as Hd.
  destruct (Js.drop (String.length t) s) eqn:Hdrop.
  - symmetry. apply Nat.eqb_eq. now apply Hd.
  - symmetry. apply Nat.eqb_neq. intros E. apply Hd in E. discriminate.
Qed.

Lemma search_lit_i_eos (t : string) (s : string) :
  forall i : nat,
    match search_from (seq [lit_i t; Eos]) i s with Some _ => true | None => false end
    = ends_with_ci t s.
Proof.
  induction s as [|c s IH]; intros i.
  - cbn [search_from ends_with_ci].
    pose proof (match_at_lit_i_eos t i EmptyString) as H.
    destruct (match_at (seq [lit_i t; Eos]) i EmptyString); rewrite <- H; reflexivity.
  - cbn [search_from ends_with_ci].
    pose proof (match_at_lit_i_eos t i (String c s)) as H.
    destruct (match_at (seq [lit_i t; Eos]) i (String c s)); rewrite <- H.
    + reflexivity.
    + simpl. apply IH.
Qed.

Lemma test_lit_i_eos (t s : string) :
  test (seq [lit_i t; Eos]) s = ends_with_ci t s.
Proof. unfold test. apply search_lit_i_eos. Qed.

Lemma ends_with_ci_drop (t : string) (n : nat) :
  forall s : string, ends_with_ci t (Js.drop n s) = true -> ends_with_ci t s = true.
Proof.
  induction n as [|n IH]; intros s H; [exact H|].
  destruct s as [|c s]; [exact H|].
  simpl in H. apply IH in H. cbn [ends_with_ci]. rewrite H. apply orb_true_r.
Qed.

(** [/^www\./] can only match at index 0. *)
Lemma search_www_later (s : string) :
  forall i : nat, search_from ScreenshotPost.re_www (S i) s = None.
Proof.
  induction s as [|c s IH]; intros i; cbn [search_from].
  - reflexivity.
  - unfold match_at at 1. simpl. apply IH.
Qed.

Lemma replace_www (h : string) :
  replace_first ScreenshotPost.re_www "" h =
  if Js.starts_with "www." h then Js.drop 4 h else h.
Proof.
  unfold replace_first.
  destruct h as [|c h]; [reflexivity|].
  cbn [search_from]. unfold match_at.
  change (run ScreenshotPost.re_www 0 (String c h) None
            (fun i' s' cap => Some (mkResult i' s' cap)))
    with (run (lit "www.") 0 (String c h) None
            (fun i' s' cap => run Empty i' s' cap
               (fun i'' s'' cap' => Some (mkResult i'' s'' cap')))).
  rewrite run_lit.
  destruct (Js.starts_with "www." (String c h)) eqn:Hs.
  - reflexivity.
  - now rewrite search_www_later.
Qed.

(** The test of [normalizeFacebookUrl]: both disjuncts say that the
    hostname ends with [facebook.com], whatever precedes it. *)
Lemma facebook_test_is_suffix (h : string) :
  test ScreenshotPost.re_facebook h
  || test ScreenshotPost.re_facebook (replace_first ScreenshotPost.re_www "" h)
  = ends_with_ci "facebook.com" h.
Proof.
  unfold ScreenshotPost.re_facebook. rewrite !test_lit_i_eos, replace_www.
  destruct (Js.starts_with "www." h).
  - destruct (ends_with_ci "facebook.com" (Js.drop 4 h)) eqn:E'.
    + apply ends_with_ci_drop in E'. rewrite E'. reflexivity.
    + apply orb_false_r.
  - apply orb_diag.
Qed.

End SuffixFacts.

(** ** The URL normaliser *)

Section Normalizer.
Import Re Spec ScreenshotPost.

Lemma equal_ci_iff (t : string) :
  forall s : string,
    equal_ci t s = true <-> Js.lower_string s = Js.lower_string t.
Proof.
  unfold equal_ci.
  induction t as [|a t IH]; intros s; simpl.
  - destruct s; simpl; split; intros H; try reflexivity; discriminate.
  - destruct s as [|b s]; simpl; [split; intros H; discriminate|].
    specialize (IH s). unfold Js.eq_ci.
    destruct (Ascii.eqb_spec (Js.lower b) (Js.lower a)) as [E|E]; simpl.
    + rewrite E. split; intros H.
      * f_equal. now apply IH.
      * apply IH. now inversion H.
    + split; intros H; [discriminate|]. inversion H. contradiction.
Qed.

Lemma ends_with_ci_iff (t : string) :
  forall s : string,
    ends_with_ci t s = true <->
    exists p u : string, s = p ++ u /\ Js.lower_string u = Js.lower_string t.
Proof.
  induction s as [|c s IH]; cbn [ends_with_ci].
  - rewrite orb_false_r, equal_ci_iff. split.
    + intros H. exists EmptyString, EmptyString. now split.
    + intros (p & u & Hs & Hu). destruct p; [|discriminate].
      simpl in Hs. now subst u.
  - rewrite orb_true_iff, equal_ci_iff, IH. split.
    + intros [H | (p & u & Hs & Hu)].
      * exists EmptyString, (String c s). now split.
      * exists (String c p), u. split; [simpl; now rewrite Hs | exact Hu].
    + intros (p & u & Hs & Hu). destruct p as [|c' p].
      * left. simpl in Hs. now subst u.
      * right. simpl in Hs. inversion Hs. exists p, u. now split.
Qed.

Lemma facebookDomain_suffix (h : string) :
  facebookDomain h = true -> ends_with_ci "facebook.com" h = true.
Proof.
  unfold facebookDomain. intros H. apply orb_true_iff in H.
  destruct H as [H | H].
  - destruct h; cbn [ends_with_ci]; now rewrite H.
  - apply ends_with_ci_iff in H. destruct H as (p & u & Hs & Hu).
    apply ends_with_ci_iff.
    destruct u as [|d u]; [discriminate|].
    exists (p ++ String d EmptyString), u. split.
    + subst h. clear. induction p; simpl; [reflexivity | now f_equal].
    + change (Js.lower_string (String d u))
        with (String (Js.lower d) (Js.lower_string u)) in Hu.
      change (Js.lower_string ".facebook.com")
        with (String "."%char (Js.lower_string "facebook.com")) in Hu.
      now injection Hu.
Qed.

Variable P : Platform.

Lemma normalize_parsed (input : string) (u : Url.t) :
  URL_parse P input = Some u ->
  normalizeFacebookUrl P input =
  if ends_with_ci "facebook.com" (Url.hostname u)
  then Url.href (Url.set_hostname u "mbasic.facebook.com")
  else input.
Proof.
  intros H. unfold normalizeFacebookUrl. rewrite H.
  now rewrite facebook_test_is_suffix.
Qed.

(** C10.  Whenever the parsed hostname ends with the characters
    [facebook.com] (in any case, whatever precedes them),
    [normalizeFacebookUrl] returns the URL re-serialised with the
    hostname [mbasic.facebook.com]; [notfacebook.com] is such a
    hostname, although it is neither [facebook.com] nor a subdomain of
    it.  The URL is one with a host, so its path is not opaque. *)
Theorem normalize_rewrites_every_facebook_suffix (input : string) (u : Url.t) :
  URL_parse P input = Some u ->
  Url.opaque_path u = false ->
  (exists p t : string,
      Url.hostname u = p ++ t /\ Js.lower_string t = "facebook.com") ->
  normalizeFacebookUrl P input = Url.href (Url.set_hostname u "mbasic.facebook.com") /\
  Url.hostname (Url.set_hostname u "mbasic.facebook.com") = "mbasic.facebook.com" /\
  ends_with_ci "facebook.com" "notfacebook.com" = true /\
  facebookDomain "notfacebook.com" = false.
Proof.
  intros Hparse Hop Hsuffix.
  rewrite (normalize_parsed _ Hparse).
  assert (E : ends_with_ci "facebook.com" (Url.hostname u) = true).
  { apply ends_with_ci_iff. destruct Hsuffix as (p & t & Hs & Ht).
    exists p, t. split; [exact Hs | exact Ht]. }
  rewrite E. repeat split.
  unfold Url.set_hostname. rewrite Hop. reflexivity.
Qed.

(** C7, as amended.  [normalizeFacebookUrl] never fails: an input that
    does not parse is returned unchanged.  The handler answers with the
    400 response exactly when the body is not JSON, is [null], or its
    [url] cannot be converted to a string or is empty once converted and
    trimmed (an object with a [toString] member cannot be converted);
    every other request goes on with the normalised URL.  A URL
    whose hostname is [facebook.com] or a subdomain of it comes back
    re-serialised with the hostname [mbasic.facebook.com], in one rewrite;
    a URL whose hostname does not end with [facebook.com] is returned as
    it was given. *)
Theorem url_normalizer_never_fails :
  (forall input : string,
      URL_parse P input = None -> normalizeFacebookUrl P input = input) /\
  (forall (input : string) (u : Url.t),
      URL_parse P input = Some u ->
      facebookDomain (Url.hostname u) = true ->
      normalizeFacebookUrl P input =
        Url.href (Url.set_hostname u "mbasic.facebook.com") /\
      (Url.opaque_path u = false ->
       Url.hostname (Url.set_hostname u "mbasic.facebook.com") = "mbasic.facebook.com")) /\
  (forall (input : string) (u : Url.t),
      URL_parse P input = Some u ->
      ends_with_ci "facebook.com" (Url.hostname u) = false ->
      normalizeFacebookUrl P input = input) /\
  (forall (eventBody : string) (b v : Json.value) (s : string),
      parseBody P eventBody = Some b ->
      Json.get b "url" = Some v ->
      Json.to_string (Json.or_else v (Json.Str "")) = Some s ->
      Js.truthy (Js.trim s) = true ->
      requestUrl P eventBody = Some (normalizeFacebookUrl P (Js.trim s))) /\
  (forall eventBody : string,
      requestUrl P eventBody = None <->
      match parseBody P eventBody with
      | None => True
      | Some b =>
          match Json.get b "url" with
          | None => True
          | Some v =>
              match Json.to_string (Json.or_else v (Json.Str "")) with
              | None => True
              | Some s => Js.truthy (Js.trim s) = false
              end
          end
      end) /\
  (forall (eventBody : string) (b : Json.value) (s : string),
      parseBody P eventBody = Some b ->
      Json.get b "url" = Some (Json.Str s) ->
      requestUrl P eventBody =
      if Js.truthy (Js.trim s) then Some (normalizeFacebookUrl P (Js.trim s))
      else None) /\
  (forall (eventBody : string) (b : Json.value) (fields : list (string * Json.value)),
      parseBody P eventBody = Some b ->
      Json.get b "url" = Some (Json.Obj fields) ->
      In "toString" (map fst fields) ->
      requestUrl P eventBody = None).
Proof.
  split; [|split; [|split; [|split; [|split; [|split]]]]].
  - intros input H. unfold normalizeFacebookUrl. now rewrite H.
  - intros input u H H0. split.
    + rewrite (normalize_parsed _ H).
      now rewrite (facebookDomain_suffix _ H0).
    + intros Hop. unfold Url.set_hostname. now rewrite Hop.
  - intros input u H E. rewrite (normalize_parsed _ H). now rewrite E.
  - intros eventBody b v s Hb Hv Hs Ht. unfold requestUrl.
    rewrite Hb, Hv, Hs. cbv zeta. now rewrite Ht.
  - intros eventBody. unfold requestUrl.
    destruct (parseBody P eventBody) as [b|]; [|now split].
    destruct (Json.get b "url") as [v|]; [|now split].
    destruct (Json.to_string (Json.or_else v (Json.Str ""))) as [s|]; [|now split].
    cbv zeta. destruct (Js.truthy (Js.trim s)); cbn [negb]; split;
      (discriminate || reflexivity).
  - intros eventBody b s Hb Hv. unfold requestUrl. rewrite Hb, Hv.
    destruct s as [|c s]; [reflexivity|].
    cbn [Json.or_else Json.truthy Js.truthy Json.to_string]. cbv zeta.
    now destruct (Js.truthy (Js.trim (String c s))).
  - intros eventBody b fields Hb Hv Hin. unfold requestUrl. rewrite Hb, Hv.
    cbn [Json.or_else Json.truthy Json.to_string].
    assert (Hk : Json.has_key "toString" fields = true).
    { unfold Json.has_key. apply existsb_exists.
      apply in_map_iff in Hin. destruct Hin as (q & Hq & Hin).
      exists q. split; [exact Hin | now apply String.eqb_eq]. }
    now rewrite Hk.
Qed.

End Normalizer.

(** A run of C10: [https://notfacebook.com/x] is rewritten. *)
Lemma normalize_notfacebook_witness :
  ScreenshotPost.normalizeFacebookUrl Demo.platform "https://notfacebook.com/x"
  = "https://mbasic.facebook.com/x".
Proof.
  destruct (@normalize_rewrites_every_facebook_suffix Demo.platform
              "https://notfacebook.com/x" Demo.url_notfacebook
              eq_refl eq_refl
              (ex_intro _ "not" (ex_intro _ "facebook.com" (conj eq_refl eq_refl))))
    as (H & _).
  exact H.
Defined.

(** A run of C7: an unparsable input, a Facebook URL, an unrelated URL,
    and a request whose [url] is an object with a [toString] key, which
    cannot be converted to a string. *)
Lemma url_normalizer_witness :
  ScreenshotPost.normalizeFacebookUrl Demo.platform "not a url" = "not a url" /\
  ScreenshotPost.normalizeFacebookUrl Demo.platform
    "https://www.facebook.com/somepage/posts/123"
  = "https://mbasic.facebook.com/somepage/posts/123" /\
  ScreenshotPost.normalizeFacebookUrl Demo.platform "https://example.com/article"
  = "https://example.com/article" /\
  ScreenshotPost.requestUrl Demo.platform Demo.body_post
  = Some "https://mbasic.facebook.com/somepage/posts/123" /\
  ScreenshotPost.requestUrl Demo.platform Demo.body_url_object = None.
Proof.
  destruct (url_normalizer_never_fails Demo.platform) as (H1 & H2 & H3 & H4 & H5 & _).
  split; [|split; [|split; [|split]]].
  - exact (H1 "not a url" eq_refl).
  - exact (proj1 (H2 "https://www.facebook.com/somepage/posts/123" Demo.url_post
                    eq_refl eq_refl)).
  - exact (H3 "https://example.com/article" Demo.url_example eq_refl eq_refl).
  - exact (H4 Demo.body_post _ _ "https://www.facebook.com/somepage/posts/123"
              eq_refl eq_refl eq_refl eq_refl).
  - apply (proj2 (H5 Demo.body_url_object)). exact I.
Defined.

(** C7 as stated fails: for the request body [{"url":"not a url"}] the
    URL does not parse, yet the normaliser returns it and the handler goes
    on to the render pipeline instead of answering with the invalid-input
    response (status 400). *)
Lemma url_normalizer_invalid_url_counterexample :
  URL_parse Demo.platform "not a url" = None /\
  ScreenshotPost.requestUrl Demo.platform Demo.body_not_a_url = Some "not a url" /\
  snd (ScreenshotPost.invoke Demo.platform Demo.env_down "POST" Demo.body_not_a_url)
  = Some (ScreenshotPost.mkResponse 500 ScreenshotPost.FailedToScreenshot).
Proof.
  vm_compute. repeat split.
Qed.


(** ** The render pipeline *)

Section TraceFacts.
Import Spec ScreenshotPost.

Lemma shots_app (l1 l2 : list Event) :
  shots (l1 ++ l2) = (shots l1 ++ shots l2)%list.
Proof.
  induction l1 as [|[op r|f c r] l1 IH]; simpl; [reflexivity|exact IH|now rewrite IH].
Qed.

Lemma plain_shots (evs : list Event) :
  forallb plain evs = true -> shots evs = [].
Proof.
  induction evs as [|[op r|f c r] evs IH]; cbn [forallb shots]; intros H;
    [reflexivity| |].
  - apply andb_true_iff in H. now apply IH.
  - apply andb_true_iff in H. destruct H as [H _].
    unfold plain in H. rewrite andb_false_r in H. discriminate.
Qed.

Lemma plain_not_launched (evs : list Event) :
  forallb plain evs = true -> filter launched evs = [].
Proof.
  induction evs as [|e evs IH]; simpl; intros H; [reflexivity|].
  apply andb_true_iff in H. destruct H as [He H].
  unfold plain in He. destruct (launched e); [discriminate|]. now apply IH.
Qed.

Lemma acquired_filter (evs : list Event) :
  acquired evs = match filter launched evs with [] => false | _ => true end.
Proof.
  unfold acquired.
  induction evs as [|e evs IH]; simpl; [reflexivity|].
  destruct (launched e); simpl; [reflexivity|exact IH].
Qed.

Lemma closedAtExit_app (l1 l2 : list Event) :
  closedAtExit l2 = true -> closedAtExit (l1 ++ l2) = true.
Proof.
  unfold closedAtExit. rewrite rev_app_distr.
  destruct (rev l2); simpl; [discriminate|trivial].
Qed.

Lemma closedAtExit_snoc (l : list Event) (e : Event) :
  closedAtExit (l ++ [e]) = closeAttempt e.
Proof.
  unfold closedAtExit. now rewrite rev_app_distr.
Qed.

End TraceFacts.

Section RenderPipeline.
Import Spec ScreenshotPost.
Variable E : Env.

Local Open Scope js_scope.

Lemma Quiet_ret (A : Type) (a : A) : Quiet (ret a).
Proof.
  intros st. exists []. simpl. rewrite app_nil_r. destruct st; now split.
Qed.

Lemma Quiet_throw (A : Type) : Quiet (throw A).
Proof.
  intros st. exists []. simpl. rewrite app_nil_r. destruct st; now split.
Qed.

Lemma Quiet_bind (A B : Type) (m : M A) (k : A -> M B) :
  Quiet m -> (forall a, Quiet (k a)) -> Quiet (bind m k).
Proof.
  intros Hm Hk st. unfold bind.
  destruct (Hm st) as (e1 & H1 & P1).
  destruct (m st) as [st1 [a|]]; simpl in H1; subst st1.
  - destruct (Hk a (mkState (trace st ++ e1) (browser st))) as (e2 & H2 & P2).
    exists (e1 ++ e2)%list. simpl in H2. rewrite H2, app_assoc. split; [reflexivity|].
    rewrite forallb_app, P1, P2. reflexivity.
  - exists e1. now split.
Qed.

Lemma Quiet_try_catch (A : Type) (m h : M A) :
  Quiet m -> Quiet h -> Quiet (try_catch m h).
Proof.
  intros Hm Hh st. unfold try_catch.
  destruct (Hm st) as (e1 & H1 & P1).
  destruct (m st) as [st1 [a|]]; simpl in H1; subst st1.
  - exists e1. now split.
  - destruct (Hh (mkState (trace st ++ e1) (browser st))) as (e2 & H2 & P2).
    exists (e1 ++ e2)%list. simpl in H2. rewrite H2, app_assoc. split; [reflexivity|].
    rewrite forallb_app, P1, P2. reflexivity.
Qed.

Lemma Quiet_call (op : Op) :
  (forall r, plain (Called op r) = true) -> Quiet (call E op).
Proof.
  intros Hp st. exists [Called op (returns E op)]. unfold call, bind, log.
  split; [|simpl; now rewrite Hp].
  destruct (returns E op); reflexivity.
Qed.

Ltac quiet :=
  repeat first
    [ apply Quiet_call; intros []; reflexivity
    | apply Quiet_ret | apply Quiet_throw
    | apply Quiet_bind; [|intros ?] | apply Quiet_try_catch ].

Lemma Quiet_openPage (url : string) (cookies : list Cookie) :
  Quiet (openPage E url cookies).
Proof.
  unfold openPage. destruct cookies; quiet.
Qed.

(** Region detection is quiet, never throws, and yields the clip of the
    detected box. *)
Lemma detectRegion_spec (st : State) :
  exists evs : list Event,
    detectRegion E st =
      (mkState (trace st ++ evs) (browser st),
       Some (snd (expectedShot E))) /\
    forallb plain evs = true.
Proof.
  unfold expectedShot, detectedBox.
  cbv [detectRegion call bind try_catch log ret throw].
  destruct (returns E QuerySelector); cbn [andb fst snd trace browser];
    [|eexists; split; reflexivity].
  destruct (element E); cbn [andb fst snd trace browser];
    [|eexists; split; reflexivity].
  destruct (returns E BoundingBox); cbn [andb fst snd trace browser];
    [|eexists; split; [rewrite <- app_assoc|]; reflexivity].
  destruct (box E) as [b|]; cbn [fst snd trace browser];
    [|eexists; split; [rewrite <- app_assoc|]; reflexivity].
  destruct (Js.num_gt (width b) (Js.num 0) && Js.num_gt (height b) (Js.num 0));
    cbn [fst snd trace browser];
    eexists; (split; [rewrite <- app_assoc|]; reflexivity).
Qed.

Lemma expectedShot_eta :
  (match snd (expectedShot E) with Some _ => false | None => true end,
   snd (expectedShot E)) = expectedShot E.
Proof. unfold expectedShot. now destruct (detectedBox E). Qed.

(** The capture block takes exactly one screenshot, with the detected
    clip, and when it returns its last call was [browser.close()]. *)
Lemma capture_spec (url : string) (st : State) :
  exists evs : list Event,
    fst (capture E url st) = mkState (trace st ++ evs) (browser st) /\
    filter launched evs = [] /\
    shots evs = [expectedShot E] /\
    (snd (capture E url st) <> None -> closedAtExit evs = true).
Proof.
  destruct (detectRegion_spec st) as (e1 & H1 & P1).
  unfold capture. unfold bind. rewrite H1.
  cbv [screenshot call bind log ret throw].
  cbn [trace browser fst snd].
  destruct (returns E Screenshot); cbn [fst snd trace browser].
  - destruct (returns E CloseAfterCapture); cbn [fst snd trace browser].
    + exists (e1 ++ [Shot (match snd (expectedShot E) with Some _ => false | None => true end)
                       (snd (expectedShot E)) true;
                    Called CloseAfterCapture true])%list.
      repeat split.
      * now rewrite <- !app_assoc.
      * rewrite filter_app, (plain_not_launched _ P1). reflexivity.
      * rewrite shots_app, (plain_shots _ P1). simpl. now rewrite expectedShot_eta.
      * intros _. apply closedAtExit_app. reflexivity.
    + exists (e1 ++ [Shot (match snd (expectedShot E) with Some _ => false | None => true end)
                       (snd (expectedShot E)) true;
                    Called CloseAfterCapture false])%list.
      repeat split.
      * now rewrite <- !app_assoc.
      * rewrite filter_app, (plain_not_launched _ P1). reflexivity.
      * rewrite shots_app, (plain_shots _ P1). simpl. now rewrite expectedShot_eta.
      * intros H. cbn [snd] in H. congruence.
  - exists (e1 ++ [Shot (match snd (expectedShot E) with Some _ => false | None => true end)
                     (snd (expectedShot E)) false])%list.
    repeat split.
    + now rewrite <- !app_assoc.
    + rewrite filter_app, (plain_not_launched _ P1). reflexivity.
    + rewrite shots_app, (plain_shots _ P1). simpl. now rewrite expectedShot_eta.
    + intros H. cbn [snd] in H. congruence.
Qed.

(** Everything after the launch. *)
Lemma page_spec (url : string) (cookies : list Cookie) (st : State) :
  exists evs : list Event,
    fst ((openPage E url cookies ;; capture E url) st)
      = mkState (trace st ++ evs) (browser st) /\
    filter launched evs = [] /\
    (shots evs = [] \/ shots evs = [expectedShot E]) /\
    (snd ((openPage E url cookies ;; capture E url) st) <> None ->
     closedAtExit evs = true).
Proof.
  destruct (Quiet_openPage url cookies st) as (e1 & H1 & P1).
  unfold bind. destruct (openPage E url cookies st) as [st1 [[]|]];
    simpl in H1; subst st1; cbv beta iota.
  - destruct (capture_spec url (mkState (trace st ++ e1) (browser st)))
      as (e2 & H2 & L2 & S2 & C2).
    exists (e1 ++ e2)%list. cbn [trace browser] in H2.
    rewrite H2, app_assoc. repeat split.
    + rewrite filter_app, (plain_not_launched _ P1), L2. reflexivity.
    + right. rewrite shots_app, (plain_shots _ P1), S2. reflexivity.
    + intros H. apply closedAtExit_app. now apply C2.
  - exists e1. repeat split.
    + now apply plain_not_launched.
    + left. now apply plain_shots.
    + intros H. cbn [snd] in H. congruence.
Qed.

(** The launch block from a fresh invocation: it either assigns
    [browser] after exactly one launch that returned, or throws without
    one. *)
Lemma launch_spec :
  exists evs : list Event,
    trace (fst (launch E (mkState [] false))) = evs /\
    browser (fst (launch E (mkState [] false))) = acquired evs /\
    shots evs = [] /\
    forallb (fun e => negb (closeAttempt e)) evs = true /\
    match snd (launch E (mkState [] false)) with
    | Some _ => acquired evs = true /\ List.length (filter launched evs) = 1
    | None => acquired evs = false /\ filter launched evs = []
    end.
Proof.
  cbv [launch call bind try_catch log ret throw assignBrowser].
  destruct (runningOnLambda E); cbn [negb fst snd trace browser app];
    [|destruct (returns E LaunchLocal); cbn [fst snd trace browser app]];
    try (eexists; repeat split; reflexivity);
    (destruct (returns E ExecutablePath); cbn [fst snd trace browser app];
     [destruct (returns E LaunchLambda); cbn [fst snd trace browser app]|]);
    eexists; repeat split; reflexivity.
Qed.

Lemma render_unfold (url : string) (cookies : list Cookie) (st : State) :
  render E url cookies st =
  match launch E st with
  | (st1, Some _) =>
      match (openPage E url cookies ;; capture E url) st1 with
      | (st2, Some resp) => (st2, Some resp)
      | (st2, None) =>
          (closeInCatch E ;; ret (mkResponse 500 FailedToScreenshot)) st2
      end
  | (st1, None) =>
      (closeInCatch E ;; ret (mkResponse 500 FailedToScreenshot)) st1
  end.
Proof.
  unfold render, try_catch. unfold bind at 1.
  destruct (launch E st) as [st1 [[]|]]; reflexivity.
Qed.

(** Every run of the render pipeline from a fresh invocation returns a
    response, acquires at most one session, ends with a call of
    [browser.close()] when it acquired one, and takes at most one
    screenshot, with the detected clip. *)
Lemma render_spec (url : string) (cookies : list Cookie) :
  let r := render E url cookies (mkState [] false) in
  let tr := trace (fst r) in
  snd r <> None /\
  (acquired tr = true -> closedAtExit tr = true) /\
  List.length (filter launched tr) <= 1 /\
  (shots tr = [] \/ shots tr = [expectedShot E]).
Proof.
  cbv zeta. rewrite render_unfold.
  destruct launch_spec as (e0 & H0 & B0 & S0 & C0 & R0).
  destruct (launch E (mkState [] false)) as [[tr0 b0] [[]|]];
    cbn [fst snd trace browser] in H0, B0, R0; subst tr0 b0.
  - destruct R0 as [A0 L0]. rewrite A0.
    destruct (page_spec url cookies (mkState e0 true)) as (e1 & H1 & L1 & S1 & C1).
    destruct ((openPage E url cookies;; capture E url) (mkState e0 true))
      as [st1 [resp|]]; cbn [fst snd trace browser] in *; subst st1.
    + cbn [trace]. repeat split.
      * discriminate.
      * intros _. apply closedAtExit_app, C1. discriminate.
      * rewrite filter_app, length_app, L1. simpl. lia.
      * rewrite shots_app, S0. exact S1.
    + cbv [closeInCatch getBrowser call bind try_catch log ret throw].
      cbn [browser trace fst snd].
      destruct (returns E CloseInCatch); cbn [fst snd trace]; repeat split;
        try discriminate;
        try (intros _; apply closedAtExit_snoc);
        try (rewrite !filter_app, !length_app, L1; simpl; lia);
        rewrite !shots_app, S0, app_nil_r; exact S1.
  - destruct R0 as [A0 L0]. rewrite A0.
    cbv [closeInCatch getBrowser call bind try_catch log ret throw].
    cbn [browser trace fst snd]. repeat split.
    + discriminate.
    + intros H. cbn [snd] in H. congruence.
    + rewrite L0. simpl. lia.
    + left. exact S0.
Qed.

End RenderPipeline.

Section Handler.
Import Spec ScreenshotPost.
Variable P : Platform.
Variable E : Env.

(** C9.  Whatever the browser does, an invocation returns a response
    (it never throws), acquires at most one browser session, and when it
    acquired one the last browser call it made before returning is
    [browser.close()]: after the screenshot on the success path, in the
    catch block on every failure path. *)
Theorem browser_session_closed_on_every_exit (httpMethod eventBody : string) :
  let r := invoke P E httpMethod eventBody in
  snd r <> None /\
  (acquired (fst r) = true -> closedAtExit (fst r) = true) /\
  List.length (filter launched (fst r)) <= 1.
Proof.
  cbv zeta. unfold invoke, handler.
  destruct (String.eqb httpMethod "OPTIONS");
    [cbn; repeat split; [discriminate|discriminate|lia]|].
  destruct (negb (String.eqb httpMethod "POST"));
    [cbn; repeat split; [discriminate|discriminate|lia]|].
  destruct (requestUrl P eventBody) as [url|];
    [|cbn; repeat split; [discriminate|discriminate|lia]].
  pose proof (render_spec E url (parseCookies P (getCookieInput P E eventBody)))
    as (H1 & H2 & H3 & _).
  destruct (render E url (parseCookies P (getCookieInput P E eventBody))
              (mkState [] false)) as [st r].
  cbn [fst snd] in *. now repeat split.
Qed.

Lemma num_eqb_eq (a b : Js.number) : Law.num_eqb a b = true -> a = b.
Proof.
  destruct a as [s|s| |s m e], b as [t|t| |t n f]; cbn; try discriminate;
    try reflexivity.
  - intros H. apply Bool.eqb_prop in H. now subst.
  - intros H. apply Bool.eqb_prop in H. now subst.
  - intros H. apply andb_prop in H. destruct H as [H He].
    apply andb_prop in H. destruct H as [Hs Hm].
    apply Bool.eqb_prop in Hs. apply Pos.eqb_eq in Hm. apply Z.eqb_eq in He.
    now subst.
Qed.

Lemma allFrom_spec (f : Z -> bool) (n : nat) :
  forall z : Z, Law.allFrom n z f = true ->
    forall k : Z, (z <= k < z + Z.of_nat n)%Z -> f k = true.
Proof.
  induction n as [|n IH]; intros z H k Hk; [lia|].
  cbn [Law.allFrom] in H. apply andb_prop in H. destruct H as [Hz H].
  destruct (Z.eq_dec k z) as [->|Hne]; [exact Hz|].
  apply (IH (z + 1)%Z H). lia.
Qed.

(** Every pixel count below 65536 is a whole pixel. *)
Lemma wholePixel_below (z : Z) : (0 <= z < 65536)%Z -> Law.wholePixel z = true.
Proof.
  intros H. apply (@allFrom_spec Law.wholePixel (Z.to_nat 65536) 0%Z).
  - vm_compute. reflexivity.
  - rewrite Z2Nat.id; lia.
Qed.

Lemma wholePixel_add (z : Z) :
  (0 <= z < 65536)%Z -> Js.num_add (Js.num z) (Js.num 16) = Js.num (z + 16).
Proof.
  intros H. apply wholePixel_below in H. unfold Law.wholePixel in H.
  apply andb_prop in H. destruct H as [H _].
  apply andb_prop in H. destruct H as [H _]. now apply num_eqb_eq.
Qed.

Lemma wholePixel_sub (z : Z) :
  (0 <= z < 65536)%Z ->
  Js.math_max (Js.num 0) (Js.num_sub (Js.num z) (Js.num 8)) = Js.num (Z.max 0 (z - 8)).
Proof.
  intros H. apply wholePixel_below in H. unfold Law.wholePixel in H.
  apply andb_prop in H. destruct H as [H _].
  apply andb_prop in H. destruct H as [_ H]. now apply num_eqb_eq.
Qed.


(** The clip of a box of whole pixels. *)
Lemma clipOf_pixels (x y w h : Z) :
  (0 <= x < 65536)%Z -> (0 <= y < 65536)%Z ->
  (0 <= w < 65536)%Z -> (0 <= h < 65536)%Z ->
  clipOf (pixels x y w h)
  = pixels (Z.max 0 (x - 8)) (Z.max 0 (y - 8)) (w + 16) (h + 16).
Proof.
  intros Hx Hy Hw Hh. unfold clipOf, pixels.
  cbn [ScreenshotPost.x ScreenshotPost.y width height].
  now rewrite (wholePixel_sub Hx), (wholePixel_sub Hy),
    (wholePixel_add Hw), (wholePixel_add Hh).
Qed.


End Handler.

(** A run of C9: everything works, and the last call is the close after
    the capture. *)
Lemma browser_session_closed_witness :
  Spec.acquired
    (fst (ScreenshotPost.invoke Demo.platform Demo.env_ok "POST" Demo.body_post))
  = true /\
  Spec.closedAtExit
    (fst (ScreenshotPost.invoke Demo.platform Demo.env_ok "POST" Demo.body_post))
  = true.
Proof.
  split; [reflexivity|].
  exact (proj1 (proj2 (browser_session_closed_on_every_exit
                         Demo.platform Demo.env_ok "POST" Demo.body_post))
               eq_refl).
Defined.



(** ** The candidate generator *)

Section Candidates.
Import Spec FbScrape.

Lemma str_app_assoc (a b c : string) : (a ++ b) ++ c = a ++ (b ++ c).
Proof. induction a as [|x a IH]; simpl; [reflexivity | now rewrite IH]. Qed.

Lemma drop_app (a b : string) : Js.drop (String.length a) (a ++ b) = b.
Proof. induction a as [|x a IH]; simpl; [reflexivity | exact IH]. Qed.

(** The hosts: the input's own, then the mobile and the basic mirror
    unless the input's host is that mirror. *)
Lemma candidateHosts_eq (u : Url.t) :
  candidateHosts u =
  (Url.host_port u
   :: (if String.eqb (Url.host_port u) "m.facebook.com" then [] else ["m.facebook.com"])
   ++ (if String.eqb (Url.host_port u) "mbasic.facebook.com" then []
       else ["mbasic.facebook.com"]))%list.
Proof.
  unfold candidateHosts. cbn [existsb].
  rewrite (String.eqb_sym "m.facebook.com"), orb_false_r.
  destruct (String.eqb_spec (Url.host_port u) "m.facebook.com") as [E|E];
    cbn [negb app existsb].
  - rewrite E. reflexivity.
  - rewrite (String.eqb_sym "mbasic.facebook.com" (Url.host_port u)).
    destruct (String.eqb (Url.host_port u) "mbasic.facebook.com"); reflexivity.
Qed.

Lemma candidateHosts_NoDup (u : Url.t) : NoDup (candidateHosts u).
Proof.
  rewrite candidateHosts_eq.
  destruct (String.eqb_spec (Url.host_port u) "m.facebook.com") as [E1|E1];
    destruct (String.eqb_spec (Url.host_port u) "mbasic.facebook.com") as [E2|E2];
    cbn [app]; repeat constructor; simpl; intuition congruence.
Qed.

Variable P : Platform.

(** For a URL with a tuple origin and no credentials, what follows the
    origin in [href] is the path, the query and the fragment. *)
Lemma candidatePaths_plain (u : Url.t) (h : string) :
  Url.tuple_scheme (Url.scheme u) = true ->
  Url.host u = Some h ->
  Url.credentials u = "" ->
  candidatePaths P u =
  Url.path u ++
  match Url.query u with Some q => "?" ++ q | None => "" end ++
  match Url.fragment u with Some f => "#" ++ f | None => "" end.
Proof.
  intros Hs Hh Hc. unfold candidatePaths, Url.origin, Url.href, Url.tuple_origin,
    Url.host_port.
  rewrite Hs, Hh, Hc.
  set (rest := Url.path u ++ _).
  replace (Url.scheme u ++ ":" ++ ("//" ++ "" ++ h ++ Url.port_suffix u) ++ rest)
    with ((Url.scheme u ++ "://" ++ h ++ Url.port_suffix u) ++ rest).
  - apply drop_app.
  - rewrite !str_app_assoc. reflexivity.
Qed.

(** For such inputs the candidates are the hosts of [candidateHosts],
    each followed by the input's path, query and fragment. *)
Lemma buildCandidateUrls_plain (input : string) (u : Url.t) (h : string) :
  URL_parse P input = Some u ->
  Url.tuple_scheme (Url.scheme u) = true ->
  Url.host u = Some h ->
  Url.credentials u = "" ->
  buildCandidateUrls P input =
  Some (map (fun host =>
               "https://" ++ host ++ Url.path u ++
               match Url.query u with Some q => "?" ++ q | None => "" end ++
               match Url.fragment u with Some f => "#" ++ f | None => "" end)
            (candidateHosts u)) /\
  NoDup (candidateHosts u) /\
  hd_error (candidateHosts u) = Some (Url.host_port u) /\
  incl (candidateHosts u)
       [Url.host_port u; "m.facebook.com"; "mbasic.facebook.com"].
Proof.
  intros Hp Hs Hh Hc. unfold buildCandidateUrls. rewrite Hp.
  rewrite (candidatePaths_plain u Hs Hh Hc). repeat split.
  - apply candidateHosts_NoDup.
  - now rewrite candidateHosts_eq.
  - rewrite candidateHosts_eq. intros x Hx.
    destruct (String.eqb (Url.host_port u) "m.facebook.com");
      destruct (String.eqb (Url.host_port u) "mbasic.facebook.com");
      simpl in *; intuition.
Qed.

End Candidates.

(** C4 at an input with credentials.  [u.origin] leaves the credentials
    out, so [u.href.substring(u.origin.length)] does not start at the
    path: the candidates are neither on the input's host and the two
    mirrors nor do they carry the input's path. *)
Theorem candidate_urls_with_credentials :
  URL_parse Demo.platform "https://user:pw@www.facebook.com/somepage/posts/123"
    = Some Demo.url_credentials /\
  Url.origin (URL_parse Demo.platform) Demo.url_credentials = "https://www.facebook.com" /\
  FbScrape.candidatePaths Demo.platform Demo.url_credentials
    = "book.com/somepage/posts/123" /\
  FbScrape.buildCandidateUrls Demo.platform
    "https://user:pw@www.facebook.com/somepage/posts/123"
  = Some [ "https://www.facebook.combook.com/somepage/posts/123";
           "https://m.facebook.combook.com/somepage/posts/123";
           "https://mbasic.facebook.combook.com/somepage/posts/123" ].
Proof.
  repeat split.
Qed.

(** ** The cookie parser *)

Section Trim.

Lemma trim_start_head (s : string) :
  match Js.trim_start s with
  | EmptyString => True
  | String c _ => Js.is_space c = false
  end.
Proof.
  induction s as [|c s IH]; simpl; [exact I|].
  destruct (Js.is_space c) eqn:E; [exact IH | exact E].
Qed.

Lemma trim_end_cons (c : ascii) (s : string) :
  Js.is_space c = false -> Js.trim_end (String c s) = String c (Js.trim_end s).
Proof.
  intros H. simpl. rewrite H. now destruct (Js.trim_end s).
Qed.

Lemma trim_end_idem (s : string) : Js.trim_end (Js.trim_end s) = Js.trim_end s.
Proof.
  induction s as [|c s IH]; [reflexivity|].
  cbn [Js.trim_end]. destruct (Js.trim_end s) as [|d t] eqn:E.
  - destruct (Js.is_space c) eqn:Hc; [reflexivity|].
    simpl. now rewrite Hc.
  - cbn [Js.trim_end]. cbn [Js.trim_end] in IH. now rewrite IH.
Qed.

(** [trim] is idempotent. *)
Lemma trim_idem (s : string) : Js.trim (Js.trim s) = Js.trim s.
Proof.
  unfold Js.trim. pose proof (trim_start_head s) as H.
  destruct (Js.trim_start s) as [|c t]; [reflexivity|].
  rewrite (@trim_end_cons c t H). cbn [Js.trim_start]. rewrite H.
  rewrite (@trim_end_cons c _ H). now rewrite trim_end_idem.
Qed.

End Trim.

Section Cookies.
Import Spec ScreenshotPost.

Lemma or_else_truthy (a b : Json.value) :
  Json.truthy b = true -> Json.truthy (Json.or_else a b) = true.
Proof. intros H. unfold Json.or_else. now destruct (Json.truthy a) eqn:E. Qed.

Lemma or_else_keep (a b : Json.value) :
  Json.truthy a = true -> Json.or_else a b = a.
Proof. intros H. unfold Json.or_else. now rewrite H. Qed.

(** A record that the array path keeps is normalised, with the defaults
    filled in for the keys that are missing or falsy. *)
Lemma sanitizeCookie_normalized (c : Json.value) (k : Cookie) :
  sanitizeCookie c = Some (Some k) ->
  normalized k /\
  (forall fields, c = Json.Obj fields ->
     (exists s, Json.to_string
                  (Json.or_else (Json.lookup "name" fields) (Json.Str "")) = Some s /\
                name k = Js.trim s) /\
     (exists s, Json.to_string
                  (Json.or_else (Json.lookup "value" fields) (Json.Str "")) = Some s /\
                value k = Js.trim s) /\
     domain k = Json.or_else (Json.lookup "domain" fields) (Json.Str ".facebook.com") /\
     path k = Json.or_else (Json.lookup "path" fields) (Json.Str "/") /\
     secure k = match Json.lookup "secure" fields with Json.Bool b => b | _ => true end /\
     sameSite k = Some (Json.or_else (Json.lookup "sameSite" fields) (Json.Str "Lax"))).
Proof.
  unfold sanitizeCookie.
  destruct (Json.get c "name") as [c_name|] eqn:Hn; [|discriminate].
  destruct (Json.get c "value") as [c_value|] eqn:Hv; [|discriminate].
  destruct (Json.get c "domain") as [c_domain|] eqn:Hd; [|discriminate].
  destruct (Json.get c "path") as [c_path|] eqn:Hp; [|discriminate].
  destruct (Json.get c "httpOnly") as [c_httpOnly|] eqn:Hh; [|discriminate].
  destruct (Json.get c "secure") as [c_secure|] eqn:Hs; [|discriminate].
  destruct (Json.get c "sameSite") as [c_sameSite|] eqn:Hss; [|discriminate].
  destruct (Json.get c "expires") as [c_expires|] eqn:He; [|discriminate].
  destruct (Json.to_string (Json.or_else c_name (Json.Str ""))) as [name_s|] eqn:Sn;
    [|discriminate].
  destruct (Json.to_string (Json.or_else c_value (Json.Str ""))) as [value_s|] eqn:Sv;
    [|discriminate].
  cbv zeta.
  destruct (Js.truthy (Js.trim name_s)) eqn:Ht; cbn [negb]; [|discriminate].
  intros H. injection H as <-. split.
  - unfold normalized. cbn [name value domain path sameSite].
    repeat split; try apply trim_idem; try (now apply or_else_truthy); trivial.
    eexists. split; [reflexivity|]. now apply or_else_truthy.
  - intros fields ->. cbn [Json.get] in *.
    injection Hn as <-. injection Hv as <-. injection Hd as <-.
    injection Hp as <-. injection Hs as <-. injection Hss as <-.
    cbn [name value domain path secure sameSite].
    split; [exists name_s; now split|]. split; [exists value_s; now split|].
    repeat split.
Qed.

(** Sanitising a normalised record again returns it unchanged. *)
Lemma sanitizeCookie_fixed (k : Cookie) :
  normalized k -> sanitizeCookie (cookieValue k) = Some (Some k).
Proof.
  intros (Hn & Htn & Htv & Hd & Hp & v & Hs & Hv).
  destruct k as [kname kvalue kdomain kpath khttp ksecure ksame kexp].
  cbn [name value domain path sameSite] in *. subst ksame.
  unfold sanitizeCookie, cookieValue.
  cbn [name value domain path httpOnly secure sameSite expires Json.get app].
  assert (Hv' : exists s, Json.to_string
                            (Json.or_else (Json.Str kvalue) (Json.Str "")) = Some s /\
                          Js.trim s = kvalue).
  { unfold Json.or_else. cbn [Json.truthy].
    destruct (Js.truthy kvalue) eqn:E; cbn [Json.to_string].
    - now exists kvalue.
    - exists "". split; [reflexivity|]. destruct kvalue; [reflexivity|discriminate]. }
  destruct Hv' as (vs & Hvs & Hvt).
  destruct kexp as [n|]; cbn [app Json.lookup String.eqb Ascii.eqb Bool.eqb];
    rewrite Hvs;
    rewrite (or_else_keep (Json.Str kname) (Json.Str "")) by exact Hn;
    cbn [Json.to_string]; cbv zeta; rewrite Hvt, Htn, Hn; cbn [negb];
    rewrite (or_else_keep _ _ Hd), (or_else_keep _ _ Hp), (or_else_keep _ _ Hv);
    cbn [Json.truthy]; reflexivity.
Qed.

Lemma sanitizeCookies_normalized (items : list Json.value) :
  forall cs, sanitizeCookies items = Some cs -> Forall normalized cs.
Proof.
  induction items as [|c items IH]; simpl; intros cs H.
  - injection H as <-. constructor.
  - destruct (sanitizeCookie c) as [oc|] eqn:Hc; [|discriminate].
    destruct (sanitizeCookies items) as [cs'|]; [|discriminate].
    injection H as <-. specialize (IH cs' eq_refl).
    destruct oc as [k|]; [|exact IH].
    constructor; [|exact IH]. now apply (sanitizeCookie_normalized c).
Qed.

Lemma sanitizeCookies_fixed (cs : list Cookie) :
  Forall normalized cs -> sanitizeCookies (map cookieValue cs) = Some cs.
Proof.
  induction 1 as [|k cs Hk _ IH]; simpl; [reflexivity|].
  now rewrite (sanitizeCookie_fixed Hk), IH.
Qed.

Variable P : Platform.

(** On the array path the parser is idempotent: parsing the array of
    its own output returns that output. *)
Lemma parseCookies_array_idempotent (items : list Json.value) :
  parseCookies P (Json.Arr (map cookieValue (parseCookies P (Json.Arr items))))
  = parseCookies P (Json.Arr items).
Proof.
  unfold parseCookies. cbn [Json.truthy negb sanitizeCookiesArray].
  destruct (sanitizeCookies items) as [cs|] eqn:H; [|reflexivity].
  now rewrite (sanitizeCookies_fixed (sanitizeCookies_normalized _ H)).
Qed.

(** Every record of the array path is normalised; malformed input ([null]
    elements, JSON text that does not parse, values that are neither an
    array nor a string) yields the empty list. *)
Lemma parseCookies_array_normalized (items : list Json.value) :
  Forall normalized (parseCookies P (Json.Arr items)).
Proof.
  unfold parseCookies. cbn [Json.truthy negb sanitizeCookiesArray].
  destruct (sanitizeCookies items) as [cs|] eqn:H; [|constructor].
  now apply (sanitizeCookies_normalized items).
Qed.

End Cookies.

Section CookieFormats.
Import Spec ScreenshotPost.
Variable P : Platform.

(** Malformed input yields the empty list: JSON text that does not
    parse, an array with a [null] element, and values that are neither an
    array nor a string. *)
Lemma parseCookies_malformed_empty :
  (forall s : string,
      Js.starts_with "[" (Js.trim s) = true ->
      JSON_parse P (Js.trim s) = None ->
      parseCookies P (Json.Str s) = []) /\
  (forall items : list Json.value,
      In Json.Null items -> parseCookies P (Json.Arr items) = []) /\
  (forall v : Json.value,
      match v with Json.Arr _ | Json.Str _ => False | _ => True end ->
      parseCookies P v = []).
Proof.
  repeat split.
  - intros s Hb Hp. unfold parseCookies. cbn [Json.truthy].
    destruct (Js.truthy s); cbn [negb]; [|reflexivity].
    destruct (Js.truthy (Js.trim s)); cbn [negb]; [|reflexivity].
    now rewrite Hb, Hp.
  - intros items Hin. unfold parseCookies. cbn [Json.truthy negb sanitizeCookiesArray].
    assert (H : sanitizeCookies items = None); [|now rewrite H].
    induction items as [|c items IH]; [contradiction|].
    destruct Hin as [-> | Hin]; [reflexivity|].
    simpl. destruct (sanitizeCookie c); [|reflexivity].
    now rewrite (IH Hin).
  - intros v Hv. unfold parseCookies.
    destruct v; try contradiction; now destruct (negb _).
Qed.

(** The three formats of one cookie: the array and its JSON text parse to
    the same record, and the header string to a record with the same
    name, value, domain, path, httpOnly and secure. *)
Lemma cookie_formats_agree :
  JSON_parse P Demo.cookies_json = Some Demo.cookies_array ->
  parseCookies P (Json.Str Demo.cookies_json) = parseCookies P Demo.cookies_array /\
  parseCookies P Demo.cookies_array =
    [ mkCookie "a" "b" (Json.Str ".facebook.com") (Json.Str "/") false true
               (Some (Json.Str "Lax")) None ] /\
  parseCookies P (Json.Str "a=b") =
    [ mkCookie "a" "b" (Json.Str ".facebook.com") (Json.Str "/") false true
               None None ].
Proof.
  intros H. repeat split.
  unfold parseCookies.
  change (Js.trim Demo.cookies_json) with Demo.cookies_json.
  cbn [Json.truthy]. change (Js.truthy Demo.cookies_json) with true.
  change (Js.starts_with "[" Demo.cookies_json) with true.
  cbn [negb]. now rewrite H.
Qed.

End CookieFormats.

(** C5 at header strings.  The header path builds its records without
    going through [sanitizeCookiesArray]: a part with an empty name is
    kept, and no [sameSite] is set; the array path drops the first record
    and gives the second [sameSite: 'Lax']. *)
Theorem cookie_header_skips_normalisation (P : Platform) :
  ScreenshotPost.parseCookies P (Json.Str "=v") =
    [ ScreenshotPost.mkCookie "" "v" (Json.Str ".facebook.com") (Json.Str "/")
        false true None None ] /\
  ScreenshotPost.parseCookies P (Json.Str "a=b") =
    [ ScreenshotPost.mkCookie "a" "b" (Json.Str ".facebook.com") (Json.Str "/")
        false true None None ] /\
  ScreenshotPost.parseCookies P
    (Json.Arr [ Json.Obj [ ("name", Json.Str ""); ("value", Json.Str "v") ] ]) = [] /\
  ScreenshotPost.parseCookies P
    (Json.Arr [ Json.Obj [ ("name", Json.Str "a"); ("value", Json.Str "b") ] ]) =
    [ ScreenshotPost.mkCookie "a" "b" (Json.Str ".facebook.com") (Json.Str "/")
        false true (Some (Json.Str "Lax")) None ].
Proof.
  repeat split.
Qed.

(** C6 at header strings.  Parsing the parser's own output again does not
    return it: the record of ["=v"] disappears, and the record of ["a=b"]
    comes back with [sameSite: 'Lax'], as the array form's record. *)
Theorem cookie_reparse_changes_header_records (P : Platform) :
  let reparse := fun x =>
    ScreenshotPost.parseCookies P
      (Json.Arr (map ScreenshotPost.cookieValue (ScreenshotPost.parseCookies P x))) in
  ScreenshotPost.parseCookies P (Json.Str "=v") <> [] /\
  reparse (Json.Str "=v") = [] /\
  reparse (Json.Str "a=b") <> ScreenshotPost.parseCookies P (Json.Str "a=b") /\
  reparse (Json.Str "a=b") = ScreenshotPost.parseCookies P Demo.cookies_array /\
  reparse Demo.cookies_array = ScreenshotPost.parseCookies P Demo.cookies_array.
Proof.
  cbv zeta. repeat split; try reflexivity; discriminate.
Qed.

(** ** The metadata extractor *)

Section Extractor.
Import Spec FbScrape.

Lemma falsy_empty (s : string) : Js.truthy s = false -> s = "".
Proof. destruct s; [reflexivity | discriminate]. Qed.

Lemma or_else_first_nonempty (a b c : string) :
  Js.or_else a (Js.or_else b (Js.or_else c "")) = first_nonempty [a; b; c].
Proof.
  unfold Js.or_else. simpl.
  destruct (Js.truthy a); [reflexivity|].
  destruct (Js.truthy b); [reflexivity|].
  destruct (Js.truthy c); reflexivity.
Qed.

Lemma or_else_first_nonempty' (a b c : string) :
  Js.or_else a (Js.or_else b c) = first_nonempty [a; b; c].
Proof.
  unfold Js.or_else. simpl.
  destruct (Js.truthy a); [reflexivity|].
  destruct (Js.truthy b); [reflexivity|].
  destruct (Js.truthy c) eqn:E; [reflexivity | now apply falsy_empty].
Qed.

Lemma truthy_app (a b : string) :
  Js.truthy (a ++ b) = Js.truthy a || Js.truthy b.
Proof. destruct a; reflexivity. Qed.

(** A serialised URL is never empty. *)
Lemma href_truthy (u : Url.t) : Js.truthy (Url.href u) = true.
Proof.
  unfold Url.href. rewrite truthy_app, truthy_app. simpl. apply orb_true_r.
Qed.

Variable P : Platform.

(** A search succeeds when the pattern matches at the start of the text
    or of one of its suffixes. *)
Lemma search_from_anywhere (r : Re.regex) (f : string -> bool) :
  (forall (i : nat) (s : string),
      match Re.match_at r i s with Some _ => true | None => false end = f s) ->
  forall (s : string) (i : nat),
    match Re.search_from r i s with Some _ => true | None => false end
    = anywhere f s.
Proof.
  intros H. induction s as [|c s IH]; intros i; cbn [Re.search_from anywhere];
    rewrite <- (H i); destruct (Re.match_at r i _); cbn [orb]; try reflexivity.
  apply IH.
Qed.

Lemma anywhere_orb (f g : string -> bool) (s : string) :
  anywhere (fun t => f t || g t) s = anywhere f s || anywhere g s.
Proof.
  induction s as [|c s IH]; cbn [anywhere].
  - now rewrite !orb_false_r.
  - rewrite IH. destruct (f (String c s)), (g (String c s)), (anywhere f s);
      reflexivity.
Qed.

(** [/pixel|analytics|spacer/i] finds the three names wherever they are. *)
Lemma test_tracking (abs : string) : Re.test re_tracking abs = trackingName abs.
Proof.
  unfold Re.test, trackingName, contains_ci. rewrite <- !anywhere_orb.
  apply search_from_anywhere. intros i s.
  unfold Re.match_at, re_tracking. cbn [Re.run]. rewrite !run_lit_i.
  destruct (starts_with_ci "pixel" s); [reflexivity|].
  destruct (starts_with_ci "analytics" s); [reflexivity|].
  destruct (starts_with_ci "spacer" s); reflexivity.
Qed.

(** [/\.svg($|\?)/i] finds the extension at the end or before a [?]. *)
Lemma test_svg (abs : string) : Re.test re_svg abs = svgFile abs.
Proof.
  unfold Re.test, svgFile.
  apply search_from_anywhere. intros i s.
  unfold Re.match_at, re_svg. cbn [Re.seq Re.run]. rewrite run_lit_i.
  destruct (starts_with_ci ".svg" s); [|reflexivity]. cbn [andb].
  change (String.length ".svg") with 4.
  destruct (Js.drop 4 s) as [|c rest]; cbn [Re.run Re.lit]; [reflexivity|].
  unfold Re.ch. destruct (Ascii.eqb c "?"); reflexivity.
Qed.

Lemma qualifying_acceptable (abs : string) : qualifying abs = acceptable abs.
Proof. unfold qualifying, acceptable. now rewrite test_tracking, test_svg. Qed.

(** [unwrapSafeImage] replaces a redirector URL by its original. *)
Lemma unwrapSafeImage_unwrapped (imageUrl : string) :
  unwrapSafeImage P imageUrl = unwrapped P imageUrl.
Proof.
  unfold unwrapSafeImage, unwrapped, redirectTarget.
  destruct (URL_parse P imageUrl) as [u|]; [|reflexivity].
  destruct (Js.includes "/safe_image.php" (Url.pathname u)); [|reflexivity].
  destruct (searchParams_get P u "url") as [[|c original]|]; reflexivity.
Qed.

(** The loop of [extractImageFallback] collects the qualifying images. *)
Lemma imageCandidates_eq (baseUrl : string) (srcs : list string) :
  imageCandidates P baseUrl srcs =
  filter acceptable (ScreenshotPost.filter_some (map (resolveSrc P baseUrl) srcs)).
Proof.
  induction srcs as [|src srcs IH]; [reflexivity|].
  cbn [imageCandidates map]. unfold imageCandidate, resolveSrc at 1.
  destruct (Js.truthy src); cbn [negb ScreenshotPost.filter_some]; [|exact IH].
  destruct (URL_parse_base P src baseUrl) as [u|];
    cbn [ScreenshotPost.filter_some filter]; [|exact IH].
  rewrite href_truthy. cbn [negb]. unfold acceptable at 1.
  rewrite <- test_tracking, <- test_svg.
  destruct (Js.starts_with "data:" (Url.href u)); cbn [negb andb]; [exact IH|].
  destruct (Re.test re_tracking (Url.href u)); cbn [negb andb]; [exact IH|].
  destruct (Re.test re_svg (Url.href u)); cbn [negb andb]; [exact IH|].
  now rewrite IH.
Qed.

Lemma extractImageFallback_eq (html baseUrl : string) :
  extractImageFallback P html baseUrl = fallbackImage P html baseUrl.
Proof.
  unfold extractImageFallback, fallbackImage, qualifyingImages.
  rewrite imageCandidates_eq.
  destruct (find _ _); [apply unwrapSafeImage_unwrapped | reflexivity].
Qed.

(** C3, as amended.  The image is the first non-empty of og:image,
    og:image:secure_url and og:image:url, resolved against the base (kept
    as written when it does not resolve) and then proxy-unwrapped: a URL
    whose path contains [/safe_image.php] and whose [url] parameter is not
    empty is replaced by that parameter, decoded, and serialised again
    when it parses as a URL.  When the meta tags give none, the sources
    that the image pattern captures are resolved against the base; those
    that are data URIs, contain one of the tracking-pixel and spacer names
    or are SVGs are discarded; and the result is the first remaining image
    whose URL contains [/safe_image.php], proxy-unwrapped, or else the
    first remaining image, or else the empty string. *)
Theorem image_url_prefers_proxied_fallback (html baseUrl : string) :
  image (extractMeta P html baseUrl) =
    (let viaMeta :=
       if Js.truthy (metaImage html)
       then unwrapped P (resolvedOrRaw P baseUrl (metaImage html))
       else "" in
     if Js.truthy viaMeta then viaMeta else fallbackImage P html baseUrl) /\
  Forall (fun c => acceptable c = true) (qualifyingImages P html baseUrl) /\
  (find (Js.includes "/safe_image.php") (qualifyingImages P html baseUrl) = None ->
   fallbackImage P html baseUrl = hd "" (qualifyingImages P html baseUrl)) /\
  (forall c : string,
      find (Js.includes "/safe_image.php") (qualifyingImages P html baseUrl) = Some c ->
      fallbackImage P html baseUrl = unwrapped P c) /\
  (forall imageUrl : string,
      unwrapSafeImage P imageUrl =
      match URL_parse P imageUrl with
      | Some u =>
          if Js.includes "/safe_image.php" (Url.pathname u) then
            match searchParams_get P u "url" with
            | Some (String c original) =>
                match decodeURIComponent P (String c original) with
                | Some decoded =>
                    match URL_parse P decoded with
                    | Some v => Url.href v
                    | None => decoded
                    end
                | None => imageUrl
                end
            | _ => imageUrl
            end
          else imageUrl
      | None => imageUrl
      end) /\
  (forall src : string,
      imageCandidate P baseUrl src =
      match resolveSrc P baseUrl src with
      | Some abs =>
          if Js.starts_with "data:" abs || trackingName abs || svgFile abs
          then None else Some abs
      | None => None
      end).
Proof.
  split; [|split; [|split; [|split; [|split]]]].
  - unfold extractMeta. cbn [image]. rewrite or_else_first_nonempty'.
    fold (metaContent re_ogImage html) (metaContent re_ogImageSecure html)
         (metaContent re_ogImageUrl html).
    fold (metaImage html). rewrite extractImageFallback_eq.
    rewrite unwrapSafeImage_unwrapped.
    unfold resolvedOrRaw.
    destruct (Js.truthy (metaImage html)) eqn:E.
    + destruct (Js.truthy (unwrapped P _)) eqn:E'; cbn [negb]; reflexivity.
    + rewrite E. cbn [negb]. reflexivity.
  - unfold qualifyingImages. apply Forall_forall. intros c Hc.
    now apply filter_In in Hc.
  - intros H. unfold fallbackImage. rewrite H.
    now destruct (qualifyingImages P html baseUrl).
  - intros c H. unfold fallbackImage. now rewrite H.
  - intros imageUrl. rewrite unwrapSafeImage_unwrapped.
    unfold unwrapped, redirectTarget.
    destruct (URL_parse P imageUrl) as [u|]; [|reflexivity].
    destruct (Js.includes "/safe_image.php" (Url.pathname u)); [|reflexivity].
    destruct (searchParams_get P u "url") as [[|c original]|]; reflexivity.
  - intros src. unfold imageCandidate, resolveSrc.
    destruct (Js.truthy src); cbn [negb]; [|reflexivity].
    destruct (URL_parse_base P src baseUrl) as [u|]; [|reflexivity].
    rewrite href_truthy. cbn [negb]. rewrite test_tracking, test_svg.
    destruct (Js.starts_with "data:" (Url.href u)); [reflexivity|].
    destruct (trackingName (Url.href u)); [reflexivity|].
    destruct (svgFile (Url.href u)); reflexivity.
Qed.

(** Name and caption follow their priority lists, and nothing is null. *)
Lemma name_caption_priority (html baseUrl : string) :
  name (extractMeta P html baseUrl) =
    first_nonempty [ metaContent re_ogSite html; metaContent re_ogTitle html;
                     extractTitle html ] /\
  caption (extractMeta P html baseUrl) =
    first_nonempty [ metaContent re_ogDesc html; metaContent re_twDesc html;
                     metaContent re_metaDesc html ] /\
  ogTitle (extractMeta P html baseUrl) = metaContent re_ogTitle html /\
  ogDesc (extractMeta P html baseUrl) = metaContent re_ogDesc html /\
  rawTitle (extractMeta P html baseUrl) = extractTitle html.
Proof.
  unfold extractMeta. cbn [name caption ogTitle ogDesc rawTitle].
  rewrite !or_else_first_nonempty. repeat split.
Qed.

End Extractor.

(** Two runs of C3.  On a page whose images are a tracking pixel, an SVG
    logo and a photo, the photo is the image; and an og:image served
    through the redirector is replaced by its original. *)
Lemma image_url_witness :
  FbScrape.image
    (FbScrape.extractMeta Law.imagePlatform
       "<img src='https://example.com/pixel.gif'><img src='https://example.com/logo.svg'><img src='https://example.com/photo.jpg'>"
       "https://example.com/article")
  = "https://example.com/photo.jpg" /\
  FbScrape.image
    (FbScrape.extractMeta Law.imagePlatform
       "<meta property='og:image' content='https://external.xx.fbcdn.net/safe_image.php?url=https%3A%2F%2Fexample.com%2Fphoto.jpg'>"
       "https://example.com/article")
  = "https://example.com/photo.jpg".
Proof.
  split.
  - destruct (image_url_prefers_proxied_fallback Law.imagePlatform
                "<img src='https://example.com/pixel.gif'><img src='https://example.com/logo.svg'><img src='https://example.com/photo.jpg'>"
                "https://example.com/article") as (H1 & _ & H3 & _).
    rewrite H1. cbv zeta.
    change (Js.truthy (Spec.metaImage
              "<img src='https://example.com/pixel.gif'><img src='https://example.com/logo.svg'><img src='https://example.com/photo.jpg'>"))
      with false.
    cbn [Js.truthy]. rewrite H3; reflexivity.
  - destruct (image_url_prefers_proxied_fallback Law.imagePlatform
                "<meta property='og:image' content='https://external.xx.fbcdn.net/safe_image.php?url=https%3A%2F%2Fexample.com%2Fphoto.jpg'>"
                "https://example.com/article") as (H1 & _).
    rewrite H1. reflexivity.
Defined.

(** C3 as stated fails, in five ways.  The first qualifying image does
    not win when a later one is served through the redirector: here the
    first image is an icon and the second a proxied photo, and the
    extractor returns the photo's original URL.  An og:image that is
    present with an empty content is passed over for the secure-URL
    variant.  In a tag with a data-deferred source followed by a plain
    source, the plain one is read.  A meta image that does not resolve is
    kept as written.  And the original of a redirector URL is serialised
    again: [https://example.com] comes out with a path. *)
Lemma image_url_counterexample :
  let base := "https://example.com/article" in
  let imageOf := fun html =>
    FbScrape.image (FbScrape.extractMeta Law.imagePlatform html base) in
  (let html :=
     "<img src='https://static.xx.fbcdn.net/rsrc.php/v3/y4/r/icon.png'><img src='https://external.xx.fbcdn.net/safe_image.php?url=https%3A%2F%2Fexample.com%2Fphoto.jpg'>" in
   Spec.metaImage html = "" /\
   Spec.qualifyingImages Law.imagePlatform html base =
     [ "https://static.xx.fbcdn.net/rsrc.php/v3/y4/r/icon.png";
       "https://external.xx.fbcdn.net/safe_image.php?url=https%3A%2F%2Fexample.com%2Fphoto.jpg" ] /\
   Spec.firstQualifyingImage Law.imagePlatform html base =
     "https://static.xx.fbcdn.net/rsrc.php/v3/y4/r/icon.png" /\
   imageOf html = "https://example.com/photo.jpg" /\
   imageOf html <> Spec.firstQualifyingImage Law.imagePlatform html base) /\
  (let html :=
     "<meta property='og:image' content=''><meta property='og:image:secure_url' content='https://example.com/photo.jpg'>" in
   Re.match1 FbScrape.re_ogImage html = Some "" /\
   imageOf html = "https://example.com/photo.jpg") /\
  (let html :=
     "<img data-src='https://example.com/photo.jpg' src='https://example.com/placeholder.gif'>" in
   Spec.metaImage html = "" /\
   imageOf html = "https://example.com/placeholder.gif") /\
  (let html := "<meta property='og:image' content='http://['>" in
   URL_parse_base Law.imagePlatform "http://[" base = None /\
   URL_parse Law.imagePlatform "http://[" = None /\
   imageOf html = "http://[") /\
  (let html :=
     "<meta property='og:image' content='https://external.xx.fbcdn.net/safe_image.php?url=https%3A%2F%2Fexample.com'>" in
   Spec.redirectTarget Law.imagePlatform
     "https://external.xx.fbcdn.net/safe_image.php?url=https%3A%2F%2Fexample.com"
   = Some "https://example.com" /\
   imageOf html = "https://example.com/" /\
   imageOf html <> "https://example.com").
Proof.
  vm_compute. repeat split; discriminate.
Qed.

(** C2 at text that is itself the escaped form of an entity.  The page
    title [How to write &amp;lt;b&amp;gt; in HTML] is the escaped form of
    the text [How to write &lt;b&gt; in HTML]; unescaping its entities
    once gives that text back, but [decodeHtml] replaces [&amp;] first and
    then replaces the [&lt;] and [&gt;] that this produced: the name comes
    out as [How to write <b> in HTML]. *)
Theorem entities_are_unescaped_twice (P : Platform) (baseUrl : string) :
  let html := "<title>How to write &amp;lt;b&amp;gt; in HTML</title>" in
  Re.match1 FbScrape.re_title html = Some "How to write &amp;lt;b&amp;gt; in HTML" /\
  Spec.unescapeHtml "How to write &amp;lt;b&amp;gt; in HTML"
    = "How to write &lt;b&gt; in HTML" /\
  FbScrape.decodeHtml "How to write &amp;lt;b&amp;gt; in HTML"
    = "How to write <b> in HTML" /\
  FbScrape.name (FbScrape.extractMeta P html baseUrl) = "How to write <b> in HTML" /\
  FbScrape.rawTitle (FbScrape.extractMeta P html baseUrl) = "How to write <b> in HTML".
Proof.
  cbv zeta. repeat split; vm_compute; reflexivity.
Qed.

(** ** Concrete runs *)

(** Open Graph tags win over the title and the page's images, and their
    content is entity-decoded. *)
Example extract_og_tags :
  FbScrape.extractMeta Demo.platform
    "<html><head><title>Ignored</title><meta property='og:title' content='Tom &amp; Jerry'><meta property='og:description' content='It&#39;s a classic'><meta property='og:image' content='https://example.com/photo.jpg'></head><body><img src='https://static.xx.fbcdn.net/rsrc.php/v3/y4/r/icon.png'></body></html>"
    "https://example.com/article"
  = FbScrape.mkMeta "Tom & Jerry" "It's a classic" "https://example.com/photo.jpg"
      "Tom & Jerry" "It's a classic" "Ignored".
Proof. vm_compute. reflexivity. Qed.

(** The three login-interstitial signatures, and two pages without one. *)
Example login_wall_signatures :
  map FbScrape.isFacebookLoginInterstitial
    [ "<title>Log into Facebook</title>";
      "<p>log  IN or sign up to view</p>";
      "<h1>See posts, photos and more on Facebook</h1>";
      "<title>Post</title>";
      "" ]
  = [true; true; true; false; false].
Proof. vm_compute. reflexivity. Qed.

(** Inside one tag the image pattern captures the last of [data-src] and
    [src]: [[^>]+] is greedy and gives back as little as it must. *)
Example img_last_source_is_captured :
  Re.exec_all FbScrape.re_img "<img data-src='real.jpg' src='placeholder.gif'>"
    = ["placeholder.gif"] /\
  Re.exec_all FbScrape.re_img "<img src='placeholder.gif' data-src='real.jpg'>"
    = ["real.jpg"].
Proof. vm_compute. split; reflexivity. Qed.

(** A login wall with status 200 for the first identity: the loop goes on
    and the second identity's page is extracted. *)
Example scrape_past_login_wall :
  fst (FbScrape.scrape Demo.platform Demo.wallThenPage
         (Json.Str "https://www.facebook.com/somepage/posts/123") 0)
  = FbScrape.Success
      (FbScrape.mkScraped
         "https://www.facebook.com/somepage/posts/123"
         "https://www.facebook.com/somepage/posts/123"
         "Post" "" "" "" "" "Post"
         [ "https://www.facebook.com/somepage/posts/123 [ua:chrome]";
           "https://www.facebook.com/somepage/posts/123 [ua:fb]" ]).
Proof. vm_compute. reflexivity. Qed.

(** The answers of [fb-scrape] that need no request: the preflight, a
    method other than POST, a body without a [url] or with one that is
    not a string, a [url] that does not parse and a body that is not
    JSON. *)
Example scrape_without_request :
  map (fun request =>
         fst (FbScrape.handler Demo.platform Demo.wallThenPage
                (fst request) (snd request) 0))
      [ ("OPTIONS", ""); ("GET", ""); ("POST", ""); ("POST", Demo.body_url_object);
        ("POST", Demo.body_not_a_url); ("POST", "not json") ]
  = [ FbScrape.Preflight; FbScrape.MethodNotAllowed;
      FbScrape.Answer FbScrape.MissingUrl; FbScrape.Answer FbScrape.MissingUrl;
      FbScrape.Answer FbScrape.Exception; FbScrape.Answer FbScrape.Exception ].
Proof. vm_compute. reflexivity. Qed.

(** A cookie header with blanks, an empty part and a part without [=]. *)
Example parse_cookie_header :
  map (fun k => (ScreenshotPost.name k, ScreenshotPost.value k))
      (ScreenshotPost.parseCookies Demo.platform
         (Json.Str " sid = abc ; theme=dark;; novalue "))
  = [("sid", "abc"); ("theme", "dark")].
Proof. vm_compute. reflexivity. Qed.

(** A successful invocation: the URL is rewritten to the basic mirror and
    the response carries the screenshot. *)
Example invoke_success :
  snd (ScreenshotPost.invoke Demo.platform Demo.env_ok "POST" Demo.body_post)
  = Some (ScreenshotPost.mkResponse 200
            (ScreenshotPost.Captured "data:image/jpeg;base64,AAAA"
               "https://mbasic.facebook.com/somepage/posts/123")).
Proof. vm_compute. reflexivity. Qed.

(** * Further properties *)

(** ** The clip rectangle *)

(** X1.  For a box of whole pixels, with [x], [y], width and height from
    0 to 65535, the clip is the rectangle of whole pixels that is exactly
    16 pixels wider and 16 pixels higher than the box and starts 8 pixels
    before it in each direction, but not before 0; so the clip contains
    the box. *)
Theorem clip_contains_box (x y w h : Z) :
  (0 <= x < 65536)%Z -> (0 <= y < 65536)%Z ->
  (0 <= w < 65536)%Z -> (0 <= h < 65536)%Z ->
  ScreenshotPost.clipOf
    (ScreenshotPost.mkRect (Js.num x) (Js.num y) (Js.num w) (Js.num h))
  = ScreenshotPost.mkRect (Js.num (Z.max 0 (x - 8))) (Js.num (Z.max 0 (y - 8)))
                          (Js.num (w + 16)) (Js.num (h + 16)).
Proof. intros Hx Hy Hw Hh. exact (clipOf_pixels Hx Hy Hw Hh). Qed.

(** A box at the page's left edge. *)
Lemma clip_contains_box_witness :
  ScreenshotPost.clipOf
    (ScreenshotPost.mkRect (Js.num 0) (Js.num 40) (Js.num 100) (Js.num 50))
  = ScreenshotPost.mkRect (Js.num 0) (Js.num 32) (Js.num 116) (Js.num 66).
Proof.
  apply (@clip_contains_box 0 40 100 50)%Z; lia.
Defined.

(** ** The candidate list *)

Section CandidateList.
Import Spec FbScrape.

Lemma str_length_app (a b : string) :
  String.length (a ++ b) = String.length a + String.length b.
Proof. induction a as [|x a IH]; simpl; [reflexivity | now rewrite IH]. Qed.

(** Appending the same tail to different strings gives different
    strings. *)
Lemma str_app_inv_tail (c : string) :
  forall a b : string, a ++ c = b ++ c -> a = b.
Proof.
  induction a as [|x a IH]; intros [|y b] H; simpl in H.
  - reflexivity.
  - apply (f_equal String.length) in H. simpl in H.
    rewrite str_length_app in H. lia.
  - apply (f_equal String.length) in H. simpl in H.
    rewrite str_length_app in H. lia.
  - injection H as -> H. f_equal. now apply IH.
Qed.

Lemma starts_with_app (p s : string) : Js.starts_with p (p ++ s) = true.
Proof.
  induction p as [|c p IH]; simpl; [reflexivity|].
  now rewrite Ascii.eqb_refl, IH.
Qed.

Lemma NoDup_map_candidate (paths : string) (hosts : list string) :
  NoDup hosts -> NoDup (map (fun h => "https://" ++ h ++ paths) hosts).
Proof.
  induction 1 as [|h hosts Hh _ IH]; cbn [map]; constructor; [|exact IH].
  intros Hin. apply in_map_iff in Hin. destruct Hin as (h' & E & Hin').
  apply Hh. replace h with h'; [exact Hin'|].
  apply (str_app_inv_tail paths). cbn in E. now injection E.
Qed.

Variable P : Platform.

(** X2.  [buildCandidateUrls] throws exactly when the input does not
    parse; otherwise it returns between one and three candidates, all of
    them [https://] URLs and no two of them equal: the input's own host
    (with its port), then [m.facebook.com] and [mbasic.facebook.com] when
    the input is not on them, each followed by the same suffix, which is
    the input's serialisation from the length of its origin on. *)
Theorem candidate_list_shape (input : string) :
  match URL_parse P input with
  | None => buildCandidateUrls P input = None
  | Some u =>
      exists candidates : list string,
        buildCandidateUrls P input = Some candidates /\
        1 <= List.length candidates <= 3 /\
        Forall (fun c => Js.starts_with "https://" c = true) candidates /\
        NoDup candidates /\
        hd_error candidates
          = Some ("https://" ++ Url.host_port u ++ candidatePaths P u) /\
        let suffix :=
          Js.drop (String.length (Url.origin (URL_parse P) u)) (Url.href u) in
        candidates =
        map (fun host => "https://" ++ host ++ suffix)
            (Url.host_port u
             :: (if String.eqb (Url.host_port u) "m.facebook.com"
                 then [] else ["m.facebook.com"])
             ++ (if String.eqb (Url.host_port u) "mbasic.facebook.com"
                 then [] else ["mbasic.facebook.com"]))%list
  end.
Proof.
  unfold buildCandidateUrls.
  destruct (URL_parse P input) as [u|] eqn:Hp; [|reflexivity].
  eexists. split; [reflexivity|].
  split; [|split; [|split; [|split]]].
  - rewrite length_map, candidateHosts_eq.
    destruct (String.eqb _ _); destruct (String.eqb _ _); cbn; lia.
  - apply Forall_forall. intros c Hc. apply in_map_iff in Hc.
    destruct Hc as (h & <- & _). apply (starts_with_app "https://").
  - apply NoDup_map_candidate, candidateHosts_NoDup.
  - now rewrite candidateHosts_eq.
  - cbv zeta. now rewrite candidateHosts_eq.
Qed.

(** X3.  For an input that parses to a URL with a tuple origin (http,
    https, ftp, ws or wss), a host and no credentials, the candidates are
    the input's own host, then [m.facebook.com], then
    [mbasic.facebook.com] (a mirror is left out when the input is on it),
    each as an [https://] URL followed by the input's path, query and
    fragment. *)
Theorem candidates_keep_path_without_credentials
        (input : string) (u : Url.t) (h : string) :
  URL_parse P input = Some u ->
  Url.tuple_scheme (Url.scheme u) = true ->
  Url.host u = Some h ->
  Url.credentials u = "" ->
  buildCandidateUrls P input =
  Some (map (fun host =>
               "https://" ++ host ++ Url.path u ++
               match Url.query u with Some q => "?" ++ q | None => "" end ++
               match Url.fragment u with Some f => "#" ++ f | None => "" end)
            (Url.host_port u
             :: (if String.eqb (Url.host_port u) "m.facebook.com"
                 then [] else ["m.facebook.com"])
             ++ (if String.eqb (Url.host_port u) "mbasic.facebook.com"
                 then [] else ["mbasic.facebook.com"]))%list).
Proof.
  intros Hp Hs Hh Hc.
  destruct (buildCandidateUrls_plain P input Hp Hs Hh Hc) as (H & _).
  now rewrite H, candidateHosts_eq.
Qed.

End CandidateList.

(** A run of X3: an input on the mobile mirror, with its path on both hosts. *)
Lemma candidates_keep_path_witness :
  FbScrape.buildCandidateUrls Demo.platform "https://m.facebook.com/somepage/posts/123"
  = Some [ "https://m.facebook.com/somepage/posts/123";
           "https://mbasic.facebook.com/somepage/posts/123" ].
Proof.
  exact (candidates_keep_path_without_credentials Demo.platform
           "https://m.facebook.com/somepage/posts/123"
           (u := Demo.url_mobile) (h := "m.facebook.com")
           eq_refl eq_refl eq_refl eq_refl).
Defined.

(** ** The fetch loop's requests *)

Section FetchRequests.
Import Spec FbScrape.
Variable N : Network.

Lemma first_index_found (A : Type) (f : A -> bool) (l : list A) :
  forall n, first_index f l = Some n ->
            exists a, nth_error l n = Some a /\ f a = true.
Proof.
  induction l as [|a l IH]; simpl; intros n H; [discriminate|].
  destruct (f a) eqn:Hf.
  - injection H as <-. now exists a.
  - destruct (first_index f l) as [m|]; [|discriminate].
    injection H as <-. exact (IH m eq_refl).
Qed.

Lemma rowMajor_length (candidates uas : list string) :
  List.length (rowMajor candidates uas) = List.length candidates * List.length uas.
Proof.
  unfold rowMajor. induction candidates as [|c cs IH]; simpl; [reflexivity|].
  now rewrite length_app, length_map, IH.
Qed.

Lemma rowMajor_In (candidates uas : list string) (c ua : string) :
  In (c, ua) (rowMajor candidates uas) -> In c candidates.
Proof.
  unfold rowMajor. intros H. apply in_flat_map in H.
  destruct H as (c' & Hc & H). apply in_map_iff in H.
  destruct H as (ua' & E & _). now injection E as -> _.
Qed.

(** What the loop hands to the extractor comes from a response that
    qualified. *)
Lemma fetched_from_qualifying (candidates uas : list string) (w : World N)
      (html finalUrl : string) :
  fetched (tryCandidates N candidates uas w []) = Some (html, finalUrl) ->
  exists (c ua : string) (r : FetchResult),
    In (c, ua) (rowMajor candidates uas) /\
    qualifies (Some r) = true /\
    html = text r /\ finalUrl = Js.or_else (url r) c.
Proof.
  intros H.
  pose proof (tryCandidates_spec N uas candidates w []) as S. cbv zeta in S.
  destruct (first_index qualifies (attempts N w (rowMajor candidates uas)))
    as [n|] eqn:Hfi.
  - destruct S as (_ & Hf & _). rewrite Hf in H.
    destruct (first_index_found _ _ Hfi) as (a & Ha & Hq).
    unfold fetchedAt in H. rewrite Ha in H.
    destruct (nth_error (rowMajor candidates uas) n) as [[c ua]|] eqn:Hp;
      [|discriminate].
    destruct a as [r|]; [|discriminate].
    injection H as <- <-. exists c, ua, r. repeat split; [|exact Hq].
    now apply nth_error_In with n.
  - destruct S as (_ & Hf & _). congruence.
Qed.

(** One turn of the inner loop after the other: the attempts made are a
    prefix of the identities, and the world is the one after them. *)
Lemma tryUserAgents_run (c : string) (uas : list string) :
  forall (w : World N) (tried0 : list string),
    let ps := map (fun ua => (c, ua)) uas in
    let st := tryUserAgents N c uas w tried0 in
    exists k : nat,
      k <= List.length ps /\
      tried st = (tried0 ++ map entryOf (firstn k ps))%list /\
      world st = worldAfter N w (firstn k ps) /\
      (fetched st = None -> k = List.length ps).
Proof.
  induction uas as [|ua uas IH]; intros w tried0; cbv zeta.
  - exists 0. cbn. now rewrite app_nil_r.
  - rewrite tryUserAgents_step. cbn [map].
    destruct (safeFetch N w c (buildHeaders ua)) as [res w'] eqn:Hf.
    destruct (qualifies res) eqn:Hq.
    + exists 1. cbn [tried world fetched firstn map List.length worldAfter].
      rewrite Hf. cbn [snd]. repeat split; [lia|].
      destruct res as [r|]; [discriminate | discriminate Hq].
    + destruct (IH w' (tried0 ++ [triedEntry c ua])%list) as (k & Hk & Ht & Hw & Hn).
      exists (S k). cbn [firstn map List.length worldAfter]. rewrite Hf. cbn [snd].
      repeat split.
      * lia.
      * rewrite Ht, <- app_assoc. reflexivity.
      * exact Hw.
      * intros H. now rewrite (Hn H).
Qed.

Lemma tryCandidates_run (uas : list string) (candidates : list string) :
  forall (w : World N) (tried0 : list string),
    let ps := rowMajor candidates uas in
    let st := tryCandidates N candidates uas w tried0 in
    exists k : nat,
      k <= List.length ps /\
      tried st = (tried0 ++ map entryOf (firstn k ps))%list /\
      world st = worldAfter N w (firstn k ps).
Proof.
  induction candidates as [|c cs IH]; intros w tried0;
    cbn [tryCandidates rowMajor flat_map]; cbv zeta.
  - exists 0. cbn. now rewrite app_nil_r.
  - fold (rowMajor cs uas).
    destruct (tryUserAgents_run c uas w tried0) as (k1 & Hk1 & Ht1 & Hw1 & Hn1).
    set (ps1 := map (fun ua => (c, ua)) uas) in *.
    set (st1 := tryUserAgents N c uas w tried0) in *.
    destruct (fetched st1) as [x|] eqn:Hx.
    + exists k1. rewrite length_app. repeat split; [lia| |].
      * rewrite Ht1, firstn_app.
        replace (k1 - List.length ps1) with 0 by lia.
        cbn [firstn]. now rewrite app_nil_r.
      * rewrite Hw1, firstn_app.
        replace (k1 - List.length ps1) with 0 by lia.
        cbn [firstn]. now rewrite app_nil_r.
    + specialize (Hn1 eq_refl). subst k1.
      rewrite firstn_all in Ht1, Hw1.
      destruct (IH (world st1) (tried st1)) as (k2 & Hk2 & Ht2 & Hw2).
      exists (List.length ps1 + k2). rewrite length_app. repeat split; [lia| |].
      * rewrite Ht2, Ht1, <- app_assoc, <- map_app. do 2 f_equal.
        rewrite firstn_app, (@firstn_all2 _ _ ps1) by lia.
        do 2 f_equal. lia.
      * rewrite Hw2, Hw1, <- worldAfter_app. f_equal.
        rewrite firstn_app, (@firstn_all2 _ _ ps1) by lia.
        do 2 f_equal. lia.
Qed.

(** X4.  The page that the loop hands to the extractor is the body of
    what the network answered to one of the attempted pairs, fetched in
    row-major order from the state the loop started in: the first answer
    that is HTTP-successful, not empty and not a login interstitial.
    [finalUrl] is that response's URL, or the candidate when the response
    has none. *)
Theorem fetched_page_is_never_a_login_wall
        (candidates uas : list string) (w : World N) (html finalUrl : string) :
  fetched (tryCandidates N candidates uas w []) = Some (html, finalUrl) ->
  Js.truthy html = true /\
  isFacebookLoginInterstitial html = false /\
  exists (n : nat) (c ua : string) (r : FetchResult),
    nth_error (rowMajor candidates uas) n = Some (c, ua) /\
    nth_error (attempts N w (rowMajor candidates uas)) n = Some (Some r) /\
    first_index qualifies (attempts N w (rowMajor candidates uas)) = Some n /\
    In (c, ua) (rowMajor candidates uas) /\
    ok r = true /\ html = text r /\ finalUrl = Js.or_else (url r) c.
Proof.
  intros H.
  pose proof (tryCandidates_spec N uas candidates w []) as S. cbv zeta in S.
  destruct (first_index qualifies (attempts N w (rowMajor candidates uas)))
    as [n|] eqn:Hfi; [|destruct S as (_ & Hf & _); congruence].
  destruct S as (_ & Hf & _). rewrite Hf in H.
  destruct (first_index_found _ _ Hfi) as (a & Ha & Hq).
  unfold fetchedAt in H. rewrite Ha in H.
  destruct (nth_error (rowMajor candidates uas) n) as [[c ua]|] eqn:Hp;
    [|discriminate].
  destruct a as [r|]; [|discriminate].
  injection H as <- <-.
  unfold qualifies in Hq. apply andb_true_iff in Hq. destruct Hq as [Hq Hl].
  apply andb_true_iff in Hq. destruct Hq as [Hok Ht].
  split; [exact Ht|]. split; [now apply negb_true_iff|].
  exists n, c, ua, r.
  split; [exact Hp|]. split; [exact Ha|]. split; [reflexivity|].
  split; [now apply nth_error_In with n|]. now repeat split.
Qed.

(** X5.  The loop makes exactly one request per entry of [tried], for the
    pairs in row-major order, and none after the last entry: the network
    is left as it is after the first [length tried] pairs were fetched;
    this is never more than one request per candidate and identity. *)
Theorem one_request_per_tried_entry (candidates uas : list string) (w : World N) :
  let ps := rowMajor candidates uas in
  let st := tryCandidates N candidates uas w [] in
  List.length (tried st) <= List.length candidates * List.length uas /\
  tried st = map entryOf (firstn (List.length (tried st)) ps) /\
  world st = worldAfter N w (firstn (List.length (tried st)) ps).
Proof.
  cbv zeta.
  destruct (tryCandidates_run uas candidates w []) as (k & Hk & Ht & Hw).
  cbn [app] in Ht.
  assert (Hlen : List.length (tried (tryCandidates N candidates uas w [])) = k).
  { rewrite Ht, length_map, length_firstn. lia. }
  rewrite Hlen. rewrite rowMajor_length in Hk. now repeat split.
Qed.

End FetchRequests.

(** A run of X4: behind a login wall for the first identity, the page of
    the second one is fetched. *)
Lemma fetched_page_witness :
  FbScrape.isFacebookLoginInterstitial "<title>Post</title>" = false.
Proof.
  exact (proj1 (proj2
    (fetched_page_is_never_a_login_wall Demo.wallThenPage
       ["https://www.facebook.com/somepage/posts/123"] ["chrome"; "fb"] 0
       (html := "<title>Post</title>")
       (finalUrl := "https://www.facebook.com/somepage/posts/123")
       eq_refl))).
Defined.

Section ScrapeBudget.
Import Spec FbScrape.
Variable P : Platform.
Variable N : Network.

Lemma js_or_else_truthy (a b : string) :
  Js.truthy b = true -> Js.truthy (Js.or_else a b) = true.
Proof. intros H. unfold Js.or_else. now destruct (Js.truthy a) eqn:E. Qed.

Lemma candidateHosts_length (u : Url.t) :
  1 <= List.length (candidateHosts u) <= 3.
Proof.
  rewrite candidateHosts_eq.
  destruct (String.eqb _ _); destruct (String.eqb _ _); cbn; lia.
Qed.

(** X6.  One invocation of the scraper makes at most six requests.  It
    answers 'missing-url', without a request, exactly when [url] is not a
    string or is the empty string; 'exception', without a request, exactly
    when [url] is a non-empty string that does not parse; 'fetch-failed'
    after every candidate was tried with both identities (two, four or
    six entries in [tried]); and otherwise a result with a non-empty name
    and final URL, after at least one request. *)
Theorem scrape_makes_at_most_six_requests (url : Json.value) (w : World N) :
  match fst (scrape P N url w) with
  | MissingUrl =>
      match url with Json.Str s => s = "" | _ => True end /\
      snd (scrape P N url w) = w
  | Exception =>
      (exists s, url = Json.Str s /\ s <> "" /\ URL_parse P s = None) /\
      snd (scrape P N url w) = w
  | FetchFailed t =>
      (exists s, url = Json.Str s /\ s <> "" /\ URL_parse P s <> None) /\
      exists n : nat, 1 <= n <= 3 /\ List.length t = 2 * n
  | Success r =>
      (exists s, url = Json.Str s /\ s <> "" /\ URL_parse P s <> None) /\
      1 <= List.length (s_tried r) <= 6 /\
      url = Json.Str (s_inputUrl r) /\
      Js.truthy (s_name r) = true /\
      Js.truthy (s_finalUrl r) = true
  end.
Proof.
  unfold scrape.
  destruct url as [| | | |inputUrl| |]; cbn [fst snd]; try (split; [exact I | reflexivity]).
  destruct inputUrl as [|c0 rest] eqn:Hin0; cbn [Js.truthy negb fst snd];
    [split; reflexivity|]. rewrite <- Hin0.
  assert (Hne : inputUrl <> "") by (rewrite Hin0; discriminate).
  unfold buildCandidateUrls.
  destruct (URL_parse P inputUrl) as [u|] eqn:Hp;
    [|cbn [fst snd]; split; [exists inputUrl; repeat split; assumption | reflexivity]].
  set (cands := map _ (candidateHosts u)).
  assert (Hc : 1 <= List.length cands <= 3).
  { unfold cands. rewrite length_map. apply candidateHosts_length. }
  assert (Hs : exists s, Json.Str inputUrl = Json.Str s /\ s <> "" /\ URL_parse P s <> None).
  { exists inputUrl. repeat split; [assumption | congruence]. }
  pose proof (tryCandidates_spec N userAgents cands w []) as S. cbv zeta in S.
  pose proof (rowMajor_length cands userAgents) as Hl. cbn [userAgents List.length] in Hl.
  destruct (fetched (tryCandidates N cands userAgents w [])) as [[html finalUrl]|] eqn:Hf;
    cbn [fst].
  - destruct (first_index qualifies (attempts N w (rowMajor cands userAgents)))
      as [n|] eqn:Hfi; [|destruct S as (_ & S & _); congruence].
    destruct S as (Ht & _ & _).
    apply first_index_lt in Hfi. rewrite attempts_length in Hfi.
    cbn [s_tried s_inputUrl s_name s_finalUrl].
    split; [exact Hs|]. split; [|split; [reflexivity|split]].
    + rewrite Ht. cbn [app]. rewrite length_map, length_firstn. lia.
    + now apply js_or_else_truthy.
    + destruct (fetched_from_qualifying N _ _ _ Hf) as (c & ua & r & Hin & _ & _ & ->).
      apply js_or_else_truthy. apply rowMajor_In in Hin. unfold cands in Hin.
      apply in_map_iff in Hin. destruct Hin as (h & <- & _). reflexivity.
  - destruct (first_index qualifies (attempts N w (rowMajor cands userAgents)))
      as [n|]; [destruct S as (_ & _ & S); congruence|].
    destruct S as (Ht & _ & _). split; [exact Hs|].
    exists (List.length cands). split; [exact Hc|].
    rewrite Ht. cbn [app]. rewrite length_map. lia.
Qed.

End ScrapeBudget.

(** ** Cookies: the array path and the header path *)

Section CookiePaths.
Import Spec Law ScreenshotPost.
Variable P : Platform.

Lemma sanitizeCookies_length (items : list Json.value) :
  forall cs, sanitizeCookies items = Some cs -> List.length cs <= List.length items.
Proof.
  induction items as [|c items IH]; simpl; intros cs H.
  - injection H as <-. reflexivity.
  - destruct (sanitizeCookie c) as [oc|]; [|discriminate].
    destruct (sanitizeCookies items) as [cs'|]; [|discriminate].
    injection H as <-. specialize (IH cs' eq_refl).
    destruct oc; simpl; lia.
Qed.

Lemma sanitizeCookies_null (items : list Json.value) :
  In Json.Null items \/ In Json.Undefined items -> sanitizeCookies items = None.
Proof.
  induction items as [|c items IH]; intros [H|H]; try contradiction;
    simpl in *.
  - destruct H as [-> | H]; [reflexivity|].
    destruct (sanitizeCookie c); [|reflexivity]. now rewrite IH by now left.
  - destruct H as [-> | H]; [reflexivity|].
    destruct (sanitizeCookie c); [|reflexivity]. now rewrite IH by now right.
Qed.

(** X7.  On arrays the cookie parser is idempotent: parsing the array of
    the records it returned gives the same records again. *)
Theorem cookie_array_parse_is_idempotent (items : list Json.value) :
  parseCookies P (Json.Arr (map cookieValue (parseCookies P (Json.Arr items))))
  = parseCookies P (Json.Arr items).
Proof.
  exact (parseCookies_array_idempotent P items).
Qed.

(** X8.  Every record parsed from an array has a non-empty, trimmed name,
    a trimmed value, and truthy domain, path and sameSite; there are never
    more records than array elements; and one [null] or [undefined]
    element makes the parser return the empty list. *)
Theorem cookie_array_records_are_normalised (items : list Json.value) :
  Forall normalized (parseCookies P (Json.Arr items)) /\
  List.length (parseCookies P (Json.Arr items)) <= List.length items /\
  (In Json.Null items \/ In Json.Undefined items ->
   parseCookies P (Json.Arr items) = []).
Proof.
  unfold parseCookies. cbn [Json.truthy negb sanitizeCookiesArray].
  repeat split.
  - destruct (sanitizeCookies items) as [cs|] eqn:H; [|constructor].
    now apply (sanitizeCookies_normalized items).
  - destruct (sanitizeCookies items) as [cs|] eqn:H; [|simpl; lia].
    now apply sanitizeCookies_length.
  - intros H. now rewrite (sanitizeCookies_null _ H).
Qed.

(** X9.  A JSON text that starts with a bracket is parsed as the array it
    encodes, white space around it ignored; when the text does not parse,
    or encodes something else than an array, the result is the empty
    list. *)
Theorem cookie_json_text_is_parsed_as_its_array (s : string) :
  Js.starts_with "[" (Js.trim s) = true ->
  parseCookies P (Json.Str s) =
  match JSON_parse P (Js.trim s) with
  | Some (Json.Arr items) => parseCookies P (Json.Arr items)
  | _ => []
  end.
Proof.
  intros Hb. unfold parseCookies at 1. cbn [Json.truthy].
  assert (Ht : Js.truthy (Js.trim s) = true).
  { destruct (Js.trim s); [discriminate | reflexivity]. }
  assert (Hs : Js.truthy s = true).
  { destruct s; [discriminate | reflexivity]. }
  rewrite Hs, Ht, Hb. cbn [negb].
  destruct (JSON_parse P (Js.trim s)) as [arr|]; [|reflexivity].
  destruct arr; reflexivity.
Qed.

End CookiePaths.

Lemma cookie_json_text_witness :
  Js.starts_with "[" (Js.trim Demo.cookies_json) = true /\
  ScreenshotPost.parseCookies Demo.platform (Json.Str Demo.cookies_json) =
  match JSON_parse Demo.platform (Js.trim Demo.cookies_json) with
  | Some (Json.Arr items) => ScreenshotPost.parseCookies Demo.platform (Json.Arr items)
  | _ => []
  end.
Proof.
  split; [reflexivity|].
  apply (cookie_json_text_is_parsed_as_its_array Demo.platform Demo.cookies_json).
  reflexivity.
Defined.

Section CookieHeader.
Import Spec Law ScreenshotPost.
Variable P : Platform.

Lemma headerCookie_record (p : string) (k : Cookie) :
  headerCookie p = Some k -> headerRecord k.
Proof.
  unfold headerCookie. destruct (Js.index_of "=" p) as [eq|]; [|discriminate].
  intros H. injection H as <-. unfold headerRecord. cbn.
  repeat split; apply trim_idem.
Qed.

Lemma filter_some_headerCookie (parts : list string) :
  Forall headerRecord (filter_some (map headerCookie parts)) /\
  List.length (filter_some (map headerCookie parts)) <= List.length parts.
Proof.
  induction parts as [|p parts [IH1 IH2]]; [split; [constructor | reflexivity]|].
  cbn [map filter_some]. destruct (headerCookie p) as [k|] eqn:E.
  - split; [constructor; [now apply (headerCookie_record p) | exact IH1]|].
    simpl. lia.
  - split; [exact IH1 | simpl; lia].
Qed.

Lemma filter_length_le (A : Type) (f : A -> bool) (l : list A) :
  List.length (filter f l) <= List.length l.
Proof.
  induction l as [|a l IH]; simpl; [lia|]. destruct (f a); simpl; lia.
Qed.

(** X10.  Every record parsed from a cookie header string carries the
    fixed defaults (domain [.facebook.com], path [/], not httpOnly, secure,
    no sameSite, no expires) and a trimmed name and value; and there are
    never more records than parts between semicolons. *)
Theorem cookie_header_records_have_defaults (s : string) :
  Js.starts_with "[" (Js.trim s) = false ->
  Forall headerRecord (parseCookies P (Json.Str s)) /\
  List.length (parseCookies P (Json.Str s)) <= List.length (Js.split ";" (Js.trim s)).
Proof.
  intros Hb. unfold parseCookies. cbn [Json.truthy].
  destruct (Js.truthy s); cbn [negb]; [|split; [constructor | simpl; lia]].
  destruct (Js.truthy (Js.trim s)); cbn [negb]; [|split; [constructor | simpl; lia]].
  rewrite Hb. cbv zeta.
  destruct (filter_some_headerCookie
              (filter Js.truthy (map Js.trim (Js.split ";" (Js.trim s))))) as [H1 H2].
  split; [exact H1|].
  etransitivity; [exact H2|].
  etransitivity; [apply filter_length_le|]. now rewrite length_map.
Qed.

(** *** The header of a list of names and values parses back to them *)

Lemma lacks_app (c : ascii) (a b : string) :
  lacks c (a ++ b) = lacks c a && lacks c b.
Proof.
  induction a as [|x a IH]; simpl; [reflexivity|].
  now rewrite IH, andb_assoc.
Qed.

Lemma index_of_app (c : ascii) (a b : string) :
  lacks c a = true -> Js.index_of c (a ++ String c b) = Some (String.length a).
Proof.
  induction a as [|x a IH]; simpl; intros H.
  - now rewrite Ascii.eqb_refl.
  - apply andb_prop in H as [Hx Ha]. apply negb_true_iff in Hx.
    now rewrite Hx, (IH Ha).
Qed.

Lemma take_app (a b : string) : Js.take (String.length a) (a ++ b) = a.
Proof. induction a as [|x a IH]; simpl; [now destruct b | now rewrite IH]. Qed.

Lemma split_lacks (c : ascii) (a : string) :
  lacks c a = true -> Js.split c a = [a].
Proof.
  induction a as [|x a IH]; simpl; intros H; [reflexivity|].
  apply andb_prop in H as [Hx Ha]. apply negb_true_iff in Hx.
  now rewrite Hx, (IH Ha).
Qed.

Lemma split_app (c : ascii) (a b : string) :
  lacks c a = true -> Js.split c (a ++ String c b) = a :: Js.split c b.
Proof.
  induction a as [|x a IH]; simpl; intros H.
  - now rewrite Ascii.eqb_refl.
  - apply andb_prop in H as [Hx Ha]. apply negb_true_iff in Hx.
    now rewrite Hx, (IH Ha).
Qed.

Lemma trim_end_length (s : string) : String.length (Js.trim_end s) <= String.length s.
Proof.
  induction s as [|c s IH]; simpl; [lia|].
  destruct (Js.trim_end s); [destruct (Js.is_space c)|]; simpl in *; lia.
Qed.

Lemma trim_start_length (s : string) : String.length (Js.trim_start s) <= String.length s.
Proof.
  induction s as [|c s IH]; simpl; [lia|].
  destruct (Js.is_space c); simpl; lia.
Qed.

(** A trimmed string does not start with white space, and trimming its
    end leaves it as it is. *)
Lemma trimmed_spec (s : string) :
  trimmed s = true ->
  Js.trim_end s = s /\
  match s with EmptyString => True | String c _ => Js.is_space c = false end.
Proof.
  unfold trimmed. intros H. apply String.eqb_eq in H.
  destruct s as [|c t]; [split; [reflexivity | exact I]|].
  destruct (Js.is_space c) eqn:Hc.
  - exfalso. unfold Js.trim in H. cbn [Js.trim_start] in H. rewrite Hc in H.
    apply (f_equal String.length) in H.
    pose proof (trim_end_length (Js.trim_start t)).
    pose proof (trim_start_length t). simpl in H. lia.
  - split; [|reflexivity]. unfold Js.trim in H. cbn [Js.trim_start] in H.
    now rewrite Hc in H.
Qed.

Lemma trim_end_app (a b : string) :
  Js.truthy (Js.trim_end b) = true -> Js.trim_end (a ++ b) = a ++ Js.trim_end b.
Proof.
  intros Hb. induction a as [|c a IH]; [reflexivity|].
  cbn [append Js.trim_end]. rewrite IH.
  destruct (a ++ Js.trim_end b) eqn:E; [|reflexivity].
  destruct a; [|discriminate]. simpl in E. now rewrite E in Hb.
Qed.

Lemma part_facts (p : string * string) :
  headerPair p = true ->
  lacks ";" (part p) = true /\
  Js.trim_end (part p) = part p /\
  Js.trim_start (part p) = part p /\
  Js.truthy (part p) = true /\
  headerCookie (part p) = Some (headerCookieOf p).
Proof.
  destruct p as [n v]. unfold headerPair, part. cbn [fst snd]. intros H.
  repeat (apply andb_prop in H as [H ?]).
  destruct (trimmed_spec n) as [Hn1 Hn2]; [assumption|].
  destruct (trimmed_spec v) as [Hv1 Hv2]; [assumption|].
  assert (He : Js.trim_end ("=" ++ v) = "=" ++ v).
  { cbn [append]. rewrite trim_end_cons by reflexivity. now rewrite Hv1. }
  assert (Hend : Js.trim_end (n ++ "=" ++ v) = n ++ "=" ++ v).
  { rewrite trim_end_app; rewrite He; reflexivity. }
  repeat split.
  - rewrite lacks_app. cbn [append lacks]. 
    change (Ascii.eqb "=" ";") with false. cbn [negb andb].
    now apply andb_true_intro.
  - exact Hend.
  - destruct n as [|c n]; [discriminate|]. cbn [append Js.trim_start]. now rewrite Hn2.
  - now destruct n.
  - unfold headerCookie. cbn [append]. rewrite index_of_app by assumption.
    cbv zeta. rewrite take_app.
    replace (String.length n + 1) with (String.length (n ++ "="))
      by (rewrite str_length_app; reflexivity).
    change (n ++ String "=" v) with (n ++ "=" ++ v).
    rewrite <- str_app_assoc, drop_app.
    unfold headerCookieOf. cbn [fst snd].
    assert (Tn : Js.trim n = n) by now apply String.eqb_eq.
    assert (Tv : Js.trim v = v) by now apply String.eqb_eq.
    now rewrite Tn, Tv.
Qed.

Lemma split_join (p : string) (rest : list string) :
  Forall (fun q => lacks ";" q = true) (p :: rest) ->
  Js.split ";" (Json.join "; " (p :: rest)) = p :: map (fun q => " " ++ q) rest.
Proof.
  revert p. induction rest as [|q rest IH]; intros p H.
  - cbn [Json.join map]. apply split_lacks. now inversion H.
  - inversion H as [|? ? Hp Hr]; subst.
    change (Json.join "; " (p :: q :: rest))
      with (p ++ String ";" (String " " (Json.join "; " (q :: rest)))).
    rewrite split_app by assumption.
    cbn [Js.split]. change (Ascii.eqb " " ";") with false. cbv iota.
    rewrite (IH q Hr). reflexivity.
Qed.

Lemma trim_end_join (p : string) (rest : list string) :
  Forall (fun q => Js.trim_end q = q /\ Js.truthy q = true) (p :: rest) ->
  Js.trim_end (Json.join "; " (p :: rest)) = Json.join "; " (p :: rest).
Proof.
  revert p. induction rest as [|q rest IH]; intros p H.
  - cbn [Json.join]. inversion H as [|? ? [Hp _] _]. exact Hp.
  - inversion H as [|? ? [Hp Tp] Hr]; subst.
    assert (Hj : Js.truthy (Json.join "; " (q :: rest)) = true).
    { inversion Hr as [|? ? [_ Tq] _]; subst.
      destruct q; [discriminate|]. now destruct rest. }
    change (Json.join "; " (p :: q :: rest))
      with (p ++ ("; " ++ Json.join "; " (q :: rest))).
    assert (Hs : Js.trim_end ("; " ++ Json.join "; " (q :: rest))
                 = "; " ++ Json.join "; " (q :: rest)).
    { rewrite trim_end_app; rewrite (IH q Hr); [reflexivity | exact Hj]. }
    rewrite trim_end_app; rewrite Hs; reflexivity.
Qed.

Lemma parts_of_header (ps : list (string * string)) :
  forallb headerPair ps = true ->
  filter Js.truthy (map Js.trim (map (fun q => " " ++ q) (map part ps))) = map part ps /\
  filter_some (map headerCookie (map part ps)) = map headerCookieOf ps.
Proof.
  induction ps as [|p ps IH]; [split; reflexivity|].
  cbn [forallb]. intros H. apply andb_prop in H as [Hp Hps].
  destruct (IH Hps) as [IH1 IH2].
  destruct (part_facts p Hp) as (_ & He & Hs & Ht & Hc).
  cbn [map filter filter_some]. rewrite Hc, IH2. split; [|reflexivity].
  assert (T : Js.trim (" " ++ part p) = part p).
  { unfold Js.trim. change (Js.trim_start (" " ++ part p)) with (Js.trim_start (part p)).
    now rewrite Hs, He. }
  now rewrite T, Ht, IH1.
Qed.

(** X11.  Round trip of the header format: the header
    [name=value; name2=value2] of names and values that can be written in
    it (no white space around them, no semicolon, a non-empty name without
    an equals sign) parses back to exactly those names and values, in
    order, each with the header defaults, provided the header does not
    start with a bracket (a header that does is read as JSON text). *)
Theorem cookie_header_round_trip (pairs : list (string * string)) :
  forallb headerPair pairs = true ->
  Js.starts_with "[" (cookieHeader pairs) = false ->
  parseCookies P (Json.Str (cookieHeader pairs)) = map headerCookieOf pairs.
Proof.
  intros H Hb. destruct pairs as [|p ps]; [reflexivity|].
  pose proof H as H0. cbn [forallb] in H0. apply andb_prop in H0 as [Hp Hps].
  destruct (part_facts p Hp) as (Hl & He & Hs & Ht & Hc).
  assert (HF : Forall (fun q => headerPair q = true) (p :: ps)).
  { apply Forall_forall. now apply forallb_forall. }
  unfold cookieHeader in *. cbn [map] in *.
  set (header := Json.join "; " (part p :: map part ps)) in *.
  assert (Hstart : Js.trim_start header = header).
  { unfold header. destruct (map part ps); cbn [Json.join]; [exact Hs|].
    destruct (part p) as [|c t]; [discriminate|].
    cbn [append Js.trim_start] in *.
    destruct (Js.is_space c); [|reflexivity].
    exfalso. apply (f_equal String.length) in Hs.
    pose proof (trim_start_length t). simpl in Hs. lia. }
  assert (Hend : Js.trim_end header = header).
  { unfold header. apply trim_end_join. 
    change (part p :: map part ps) with (map part (p :: ps)).
    apply Forall_map. eapply Forall_impl; [|exact HF].
    intros q Hq. destruct (part_facts q Hq) as (_ & ? & _ & ? & _). now split. }
  assert (Htrim : Js.trim header = header).
  { unfold Js.trim. now rewrite Hstart, Hend. }
  assert (Htruthy : Js.truthy header = true).
  { unfold header. destruct (part p); [discriminate|]. now destruct (map part ps). }
  unfold parseCookies. cbn [Json.truthy]. rewrite Htruthy. cbn [negb].
  rewrite Htrim, Htruthy, Hb. cbn [negb]. cbv zeta.
  unfold header. rewrite split_join.
  2:{ change (part p :: map part ps) with (map part (p :: ps)).
      apply Forall_map. eapply Forall_impl; [|exact HF].
      intros q Hq. now destruct (part_facts q Hq) as (? & _). }
  cbn [map filter].
  assert (T : Js.trim (part p) = part p).
  { unfold Js.trim. now rewrite Hs, He. }
  rewrite T, Ht.
  destruct (parts_of_header ps Hps) as [E1 E2].
  rewrite E1. cbn [map filter_some]. now rewrite Hc, E2.
Qed.

End CookieHeader.

Lemma cookie_header_defaults_witness :
  Js.starts_with "[" (Js.trim " c_user=100; junk; xs = a=b ;") = false /\
  Forall Law.headerRecord
    (ScreenshotPost.parseCookies Demo.platform (Json.Str " c_user=100; junk; xs = a=b ;")) /\
  List.length
    (ScreenshotPost.parseCookies Demo.platform (Json.Str " c_user=100; junk; xs = a=b ;")) <=
  List.length (Js.split ";" (Js.trim " c_user=100; junk; xs = a=b ;")).
Proof.
  split; [reflexivity|].
  apply (cookie_header_records_have_defaults Demo.platform). reflexivity.
Defined.

Lemma cookie_header_round_trip_witness :
  forallb Law.headerPair [("c_user", "100"); ("xs", "a=b c")] = true /\
  Js.starts_with "[" (Law.cookieHeader [("c_user", "100"); ("xs", "a=b c")]) = false /\
  ScreenshotPost.parseCookies Demo.platform
    (Json.Str (Law.cookieHeader [("c_user", "100"); ("xs", "a=b c")])) =
  map Law.headerCookieOf [("c_user", "100"); ("xs", "a=b c")].
Proof.
  split; [reflexivity|]. split; [reflexivity|].
  apply (cookie_header_round_trip Demo.platform); reflexivity.
Defined.

(** ** The normaliser applied twice *)

Section NormalizeTwice.
Import Spec ScreenshotPost.
Variable P : Platform.

Lemma ends_with_ci_mbasic : ends_with_ci "facebook.com" "mbasic.facebook.com" = true.
Proof. reflexivity. Qed.

Lemma set_hostname_twice (u : Url.t) (h : string) :
  Url.set_hostname (Url.set_hostname u h) h = Url.set_hostname u h.
Proof.
  unfold Url.set_hostname. destruct (Url.opaque_path u) eqn:E; cbn; rewrite ?E; reflexivity.
Qed.

(** X12.  Normalising is idempotent on a platform that parses the
    rewritten URL back to the record it was serialised from: a URL that
    was normalised once is returned as it is the second time. *)
Theorem normalize_is_idempotent (input : string) :
  (forall u : Url.t,
      URL_parse P input = Some u ->
      URL_parse P (Url.href (Url.set_hostname u "mbasic.facebook.com"))
      = Some (Url.set_hostname u "mbasic.facebook.com")) ->
  normalizeFacebookUrl P (normalizeFacebookUrl P input) = normalizeFacebookUrl P input.
Proof.
  intros Hround.
  destruct (URL_parse P input) as [u|] eqn:Hp.
  - rewrite (normalize_parsed P _ Hp).
    destruct (ends_with_ci "facebook.com" (Url.hostname u)) eqn:Hs.
    + rewrite (normalize_parsed P _ (Hround u eq_refl)).
      rewrite set_hostname_twice.
      assert (Hs' : ends_with_ci "facebook.com"
                      (Url.hostname (Url.set_hostname u "mbasic.facebook.com")) = true).
      { unfold Url.set_hostname. destruct (Url.opaque_path u); [exact Hs | reflexivity]. }
      now rewrite Hs'.
    + rewrite (normalize_parsed P _ Hp). now rewrite Hs.
  - assert (H : normalizeFacebookUrl P input = input).
    { unfold normalizeFacebookUrl. now rewrite Hp. }
    now rewrite !H.
Qed.

End NormalizeTwice.

Lemma normalize_is_idempotent_witness :
  ScreenshotPost.normalizeFacebookUrl Law.mirrorPlatform
    (ScreenshotPost.normalizeFacebookUrl Law.mirrorPlatform
       "https://www.facebook.com/somepage/posts/123")
  = ScreenshotPost.normalizeFacebookUrl Law.mirrorPlatform
      "https://www.facebook.com/somepage/posts/123" /\
  ScreenshotPost.normalizeFacebookUrl Law.mirrorPlatform
    "https://www.facebook.com/somepage/posts/123"
  = "https://mbasic.facebook.com/somepage/posts/123".
Proof.
  split; [|reflexivity].
  apply (normalize_is_idempotent Law.mirrorPlatform).
  intros u Hu. vm_compute in Hu. injection Hu as <-. reflexivity.
Defined.

(** ** The render pipeline, call by call *)

Section RenderRuns.
Import Spec Law ScreenshotPost.
Variable E : Env.

Local Open Scope js_scope.

Ltac step op :=
  destruct (returns E op) eqn:?;
  cbn [fst snd trace browser app andb orb negb];
  try (rewrite <- ?app_assoc, ?orb_true_r, ?orb_false_r; reflexivity).

Lemma launch_run (st : State) :
  launch E st =
  (mkState (trace st ++ launchTrace E) (browser st || launchOk E),
   if launchOk E then Some tt else None).
Proof.
  destruct st as [tr b].
  unfold launchTrace, launchOk, lambdaOps.
  cbv [launch call bind try_catch log ret throw assignBrowser runOps].
  cbn [fst snd trace browser app andb orb negb].
  destruct (runningOnLambda E); cbn [fst snd trace browser app andb orb negb].
  - step ExecutablePath. step LaunchLambda.
  - step LaunchLocal. step ExecutablePath. step LaunchLambda.
Qed.

Lemma openPage_run (url : string) (cookies : list Cookie) (st : State) :
  openPage E url cookies st =
  (mkState (trace st ++ pageTrace E cookies) (browser st),
   if pageOk E then Some tt else None).
Proof.
  destruct st as [tr b].
  unfold pageTrace, pageOk, setupOps, interceptOps, preloadOps, targetOps.
  cbv [openPage call bind try_catch log ret throw runOps].
  cbn [fst snd trace browser app andb orb negb].
  step NewPage. step SetDefaultNavigationTimeout. step SetDefaultTimeout.
  step SetUserAgent.
  step SetRequestInterception; [step OnRequest|];
    (destruct cookies as [|c cs]; cbn [fst snd trace browser app];
     [|step GotoRoot; [step SetCookie|]]);
    step GotoTarget; step AddStyleTag; step WaitForTimeout.
Qed.

Lemma capture_run (url : string) (st : State) :
  capture E url st =
  (mkState (trace st ++ captureTrace E) (browser st),
   if captureOk E
   then Some (mkResponse 200 (Captured ("data:image/jpeg;base64," ++ buffer E) url))
   else None).
Proof.
  destruct st as [tr b].
  unfold captureTrace, captureOk, expectedShot, detectedBox.
  cbv [capture detectRegion screenshot call bind try_catch log ret throw runOps].
  cbn [fst snd trace browser app andb orb negb].
  step QuerySelector; [destruct (element E); cbn [fst snd trace browser app andb];
                       [step BoundingBox; [destruct (box E) as [bx|];
                          [destruct (Js.num_gt (width bx) (Js.num 0)
                                    && Js.num_gt (height bx) (Js.num 0))|]|]|]|];
    cbn [fst snd trace browser app andb];
    step Screenshot; step CloseAfterCapture.
Qed.

(** The run of the render pipeline from a fresh invocation: the calls it
    makes and the response it gives. *)
Lemma render_run (url : string) (cookies : list Cookie) :
  render E url cookies (mkState [] false) =
  (mkState (renderTrace E cookies) (launchOk E), Some (renderResponse E url)).
Proof.
  rewrite render_unfold, launch_run. cbn [trace browser app orb].
  unfold renderTrace, renderResponse, succeeds.
  destruct (launchOk E); cbn [andb negb].
  - unfold bind at 1. rewrite openPage_run. cbn [trace browser].
    destruct (pageOk E); cbn [andb negb].
    + rewrite capture_run. cbn [trace browser].
      destruct (captureOk E); cbn [negb].
      * now rewrite ?app_nil_r, <- ?app_assoc.
      * cbv [closeInCatch getBrowser call bind try_catch log ret throw].
        cbn [trace browser fst snd].
        destruct (returns E CloseInCatch); cbn [trace browser];
          now rewrite ?app_nil_r, <- ?app_assoc.
    + cbv [closeInCatch getBrowser call bind try_catch log ret throw].
      cbn [trace browser fst snd].
      destruct (returns E CloseInCatch); cbn [trace browser];
        now rewrite ?app_nil_r, <- ?app_assoc.
  - cbv [closeInCatch getBrowser call bind try_catch log ret throw].
    cbn [trace browser fst snd]. now rewrite ?app_nil_r.
Qed.

End RenderRuns.

Section InvocationRuns.
Import Spec Law ScreenshotPost.
Variable P : Platform.
Variable E : Env.

Lemma runOps_ok (ops : list Op) : snd (runOps E ops) = forallb (returns E) ops.
Proof.
  induction ops as [|op ops IH]; [reflexivity|].
  cbn [runOps forallb]. destruct (returns E op); [exact IH | reflexivity].
Qed.

(** The run of one invocation. *)
Lemma invoke_run (httpMethod eventBody : string) :
  invoke P E httpMethod eventBody =
  if String.eqb httpMethod "OPTIONS" then ([], Some (mkResponse 200 NoBody))
  else if negb (String.eqb httpMethod "POST")
  then ([], Some (mkResponse 405 MethodNotAllowed))
  else
    match requestUrl P eventBody with
    | None => ([], Some (mkResponse 400 InvalidRequestBody))
    | Some url =>
        (renderTrace E (parseCookies P (getCookieInput P E eventBody)),
         Some (renderResponse E url))
    end.
Proof.
  unfold invoke, handler.
  destruct (String.eqb httpMethod "OPTIONS"); [reflexivity|].
  destruct (negb (String.eqb httpMethod "POST")); [reflexivity|].
  destruct (requestUrl P eventBody) as [url|]; [|reflexivity].
  now rewrite render_run.
Qed.

(** X13.  The response of every invocation.  An accepted request is
    answered with the screenshot exactly when a browser could be launched
    (locally off Lambda, else through the Lambda launch) and page set-up,
    navigation to the target, style injection, the wait, the screenshot
    and closing the browser all returned; in every other case with the
    500 response.  Calls that have a [try] of their own (request
    interception, the cookie preload, region detection) never change the
    response, and a close that throws after the capture turns it into
    the 500. *)
Theorem response_of_every_invocation (httpMethod eventBody : string) :
  snd (invoke P E httpMethod eventBody) =
  Some
    (if String.eqb httpMethod "OPTIONS" then mkResponse 200 NoBody
     else if negb (String.eqb httpMethod "POST") then mkResponse 405 MethodNotAllowed
     else
       match requestUrl P eventBody with
       | None => mkResponse 400 InvalidRequestBody
       | Some url =>
           if ((negb (runningOnLambda E) && returns E LaunchLocal)
               || (returns E ExecutablePath && returns E LaunchLambda))
              && forallb (returns E)
                   [NewPage; SetDefaultNavigationTimeout; SetDefaultTimeout;
                    SetUserAgent; GotoTarget; AddStyleTag; WaitForTimeout;
                    Screenshot; CloseAfterCapture]
           then mkResponse 200
                  (Captured ("data:image/jpeg;base64," ++ buffer E) url)
           else mkResponse 500 FailedToScreenshot
       end).
Proof.
  rewrite invoke_run.
  destruct (String.eqb httpMethod "OPTIONS"); [reflexivity|].
  destruct (negb (String.eqb httpMethod "POST")); [reflexivity|].
  destruct (requestUrl P eventBody) as [url|]; [|reflexivity].
  cbn [snd]. f_equal. unfold renderResponse, succeeds, launchOk, pageOk, captureOk.
  rewrite !runOps_ok. unfold lambdaOps, setupOps, targetOps. cbn [forallb].
  rewrite !andb_true_r.
  destruct (negb (runningOnLambda E) && returns E LaunchLocal
            || returns E ExecutablePath && returns E LaunchLambda);
    cbn [andb]; [|reflexivity].
  destruct (returns E NewPage); cbn [andb]; [|reflexivity].
  destruct (returns E SetDefaultNavigationTimeout); cbn [andb]; [|reflexivity].
  destruct (returns E SetDefaultTimeout); cbn [andb]; [|reflexivity].
  destruct (returns E SetUserAgent); cbn [andb]; [|reflexivity].
  destruct (returns E GotoTarget); cbn [andb]; [|reflexivity].
  destruct (returns E AddStyleTag); cbn [andb]; [|reflexivity].
  destruct (returns E WaitForTimeout); cbn [andb]; reflexivity.
Qed.

End InvocationRuns.

Section RunTraces.
Import Spec Law ScreenshotPost.
Variable P : Platform.
Variable E : Env.

Lemma runOps_In (ops : list Op) (e : Event) :
  In e (fst (runOps E ops)) -> exists op, In op ops /\ e = Called op (returns E op).
Proof.
  induction ops as [|op ops IH]; [contradiction|].
  cbn [runOps]. destruct (returns E op) eqn:Hop; cbn [fst].
  - intros [<- | H].
    + exists op. rewrite Hop. split; [now left | reflexivity].
    + destruct (IH H) as (op' & Hin & He). exists op'. split; [now right | exact He].
  - intros [<- | []]. exists op. rewrite Hop. split; [now left | reflexivity].
Qed.

Lemma runOps_all (ops : list Op) (op : Op) :
  snd (runOps E ops) = true -> In op ops -> In (Called op true) (fst (runOps E ops)).
Proof.
  induction ops as [|op' ops IH]; [contradiction|].
  cbn [runOps]. destruct (returns E op') eqn:Hop; cbn [fst snd]; [|discriminate].
  intros Hok [-> | Hin]; [now left | right; now apply IH].
Qed.

Lemma runOps_head (op : Op) (ops : list Op) :
  In (Called op (returns E op)) (fst (runOps E (op :: ops))).
Proof.
  cbn [runOps]. destruct (returns E op); now left.
Qed.

Lemma renderTrace_In (cookies : list Cookie) (e : Event) :
  In e (renderTrace E cookies) <->
  In e (launchTrace E) \/
  (launchOk E = true /\ In e (pageTrace E cookies)) \/
  (launchOk E = true /\ pageOk E = true /\ In e (captureTrace E)) \/
  (launchOk E = true /\ succeeds E = false /\
   e = Called CloseInCatch (returns E CloseInCatch)).
Proof.
  unfold renderTrace. rewrite !in_app_iff.
  destruct (launchOk E), (pageOk E), (succeeds E); cbn [andb negb In];
    rewrite ?in_app_iff; cbn [In]; intuition (discriminate || eauto).
Qed.

Lemma launchTrace_In (e : Event) :
  In e (launchTrace E) ->
  exists op, In op [LaunchLocal; ExecutablePath; LaunchLambda] /\
             e = Called op (returns E op).
Proof.
  unfold launchTrace.
  destruct (runningOnLambda E).
  - intros H. destruct (runOps_In _ _ H) as (op & Hin & He).
    exists op. split; [right; exact Hin | exact He].
  - destruct (returns E LaunchLocal) eqn:Hl.
    + intros [<- | []]. exists LaunchLocal. rewrite Hl. split; [now left | reflexivity].
    + intros [<- | H].
      * exists LaunchLocal. rewrite Hl. split; [now left | reflexivity].
      * destruct (runOps_In _ _ H) as (op & Hin & He).
        exists op. split; [right; exact Hin | exact He].
Qed.

Lemma pageTrace_In (cookies : list Cookie) (e : Event) :
  In e (pageTrace E cookies) ->
  exists op, e = Called op (returns E op) /\
    (In op setupOps \/
     snd (runOps E setupOps) = true /\
     (In op interceptOps \/ In op targetOps \/
      cookies <> [] /\ In e (fst (runOps E preloadOps)))).
Proof.
  unfold pageTrace. destruct (snd (runOps E setupOps)) eqn:Hs.
  - rewrite !in_app_iff. intros [H | [H | [H | H]]].
    + destruct (runOps_In _ _ H) as (op & Hin & He). exists op. tauto.
    + destruct (runOps_In _ _ H) as (op & Hin & He). exists op. tauto.
    + destruct cookies as [|c cs]; [contradiction|].
      destruct (runOps_In _ _ H) as (op & Hin & He). exists op.
      split; [exact He|]. right. split; [reflexivity|]. right. right.
      split; [discriminate | exact H].
    + destruct (runOps_In _ _ H) as (op & Hin & He). exists op. tauto.
  - intros H. destruct (runOps_In _ _ H) as (op & Hin & He). exists op. tauto.
Qed.

Lemma captureTrace_In (e : Event) :
  In e (captureTrace E) ->
  e = Called QuerySelector (returns E QuerySelector) \/
  e = Called BoundingBox (returns E BoundingBox) \/
  e = Shot (fst (expectedShot E)) (snd (expectedShot E)) (returns E Screenshot) \/
  (returns E Screenshot = true /\
   e = Called CloseAfterCapture (returns E CloseAfterCapture)).
Proof.
  unfold captureTrace. rewrite in_app_iff. intros [H | [<- | H]].
  - destruct (runOps_In _ _ H) as (op & Hin & He).
    destruct (element E); cbn [In] in Hin; intuition (subst; auto).
  - tauto.
  - destruct (returns E Screenshot); [|contradiction].
    destruct H as [<- | []]. tauto.
Qed.

Lemma pageTrace_all (cookies : list Cookie) (op : Op) :
  pageOk E = true -> In op (setupOps ++ targetOps) ->
  In (Called op true) (pageTrace E cookies).
Proof.
  unfold pageOk, pageTrace. intros H Hin. apply andb_prop in H as [Hs Ht].
  rewrite Hs, !in_app_iff. apply in_app_iff in Hin as [Hin | Hin].
  - left. now apply runOps_all.
  - right. right. right. now apply runOps_all.
Qed.

Lemma acquired_launchTrace : acquired (launchTrace E) = launchOk E.
Proof.
  unfold acquired, launchTrace, launchOk, lambdaOps. cbn [runOps].
  destruct (runningOnLambda E), (returns E LaunchLocal), (returns E ExecutablePath),
    (returns E LaunchLambda); reflexivity.
Qed.

Lemma acquired_renderTrace (cookies : list Cookie) :
  acquired (renderTrace E cookies) = launchOk E.
Proof.
  destruct (launchOk E) eqn:Hl.
  - unfold renderTrace, acquired. rewrite existsb_app.
    fold (acquired (launchTrace E)). now rewrite acquired_launchTrace, Hl.
  - destruct (acquired (renderTrace E cookies)) eqn:Ha; [|reflexivity].
    unfold acquired in Ha. apply existsb_exists in Ha as (e & Hin & He).
    apply renderTrace_In in Hin.
    destruct Hin as [Hin | [[H _] | [[H _] | [H _]]]]; try congruence.
    assert (Hx : acquired (launchTrace E) = true).
    { unfold acquired. apply existsb_exists. now exists e. }
    rewrite acquired_launchTrace in Hx. congruence.
Qed.


(** X15.  A screenshot is attempted only of the target page: in a run
    that reaches the screenshot, a browser session was acquired, the page
    set-up, the navigation to the target, the style injection and the wait
    all returned, and region detection was attempted. *)
Theorem screenshot_only_of_the_target_page
  (httpMethod eventBody : string) (f : bool) (c : option Rect) (r : bool) :
  let tr := fst (invoke P E httpMethod eventBody) in
  In (Shot f c r) tr ->
  acquired tr = true /\
  Forall (fun op => In (Called op true) tr)
    [NewPage; SetDefaultNavigationTimeout; SetDefaultTimeout; SetUserAgent;
     GotoTarget; AddStyleTag; WaitForTimeout] /\
  In (Called QuerySelector (returns E QuerySelector)) tr.
Proof.
  cbv zeta. rewrite invoke_run.
  destruct (String.eqb httpMethod "OPTIONS"); [contradiction|].
  destruct (negb (String.eqb httpMethod "POST")); [contradiction|].
  destruct (requestUrl P eventBody) as [url|]; [|contradiction].
  cbn [fst]. set (cookies := parseCookies P (getCookieInput P E eventBody)).
  intros Hin. apply renderTrace_In in Hin.
  destruct Hin as [Hin | [[Hl Hin] | [(Hl & Hp & Hin) | (_ & _ & Hin)]]].
  - apply launchTrace_In in Hin as (op' & _ & He). discriminate.
  - apply pageTrace_In in Hin as (op' & He & _). discriminate.
  - rewrite acquired_renderTrace. split; [exact Hl|]. split.
    + apply Forall_forall. intros op Hop. apply renderTrace_In. right. left.
      split; [exact Hl|]. now apply pageTrace_all.
    + apply renderTrace_In. right. right. left. repeat split; try assumption.
      unfold captureTrace. apply in_app_iff. left. apply runOps_head.
  - discriminate.
Qed.

Lemma close_call_place (cookies : list Cookie) (op : Op) (b : bool) :
  op = CloseAfterCapture \/ op = CloseInCatch ->
  In (Called op b) (renderTrace E cookies) ->
  launchOk E = true /\
  (pageOk E = true /\ returns E Screenshot = true /\
   op = CloseAfterCapture /\ b = returns E CloseAfterCapture
   \/ succeeds E = false /\ op = CloseInCatch /\ b = returns E CloseInCatch).
Proof.
  intros Hop Hin. apply renderTrace_In in Hin.
  destruct Hin as [Hin | [[Hl Hin] | [(Hl & Hp & Hin) | (Hl & Hs & Hin)]]].
  - exfalso. apply launchTrace_In in Hin as (op' & Hin & He). injection He as <- _.
    cbn [In] in Hin. intuition (subst; discriminate).
  - exfalso. apply pageTrace_In in Hin as (op' & He & Hin). injection He as <- _.
    unfold setupOps, interceptOps, targetOps, preloadOps in Hin.
    destruct Hin as [Hin | (_ & [Hin | [Hin | (_ & Hin)]])].
    + cbn [In] in Hin. intuition (subst; discriminate).
    + cbn [In] in Hin. intuition (subst; discriminate).
    + cbn [In] in Hin. intuition (subst; discriminate).
    + apply runOps_In in Hin as (op' & Hin & He). injection He as <- _.
      cbn [In] in Hin. intuition (subst; discriminate).
  - split; [exact Hl|]. apply captureTrace_In in Hin.
    destruct Hin as [Hin | [Hin | [Hin | [Hs Hin]]]].
    + exfalso. injection Hin as -> _. intuition discriminate.
    + exfalso. injection Hin as -> _. intuition discriminate.
    + discriminate.
    + injection Hin as -> ->. left. now repeat split.
  - split; [exact Hl|]. injection Hin as -> ->. right. now repeat split.
Qed.

(** X16.  Closing the browser.  A run calls [browser.close()] at most
    twice, and never without a session.  The close after the capture is
    called only after the screenshot returned; the close in the catch
    block only in a run that acquired a session and answers 500; and when
    the close after the capture throws, the screenshot is dropped: the
    run closes again in the catch block and answers 500. *)
Theorem close_calls_of_a_run (httpMethod eventBody : string) :
  let run := invoke P E httpMethod eventBody in
  List.length (filter closeAttempt (fst run)) <= 2 /\
  (acquired (fst run) = false -> filter closeAttempt (fst run) = []) /\
  (forall b, In (Called CloseAfterCapture b) (fst run) ->
             exists f c, In (Shot f c true) (fst run)) /\
  (forall b, In (Called CloseInCatch b) (fst run) ->
             acquired (fst run) = true /\
             snd run = Some (mkResponse 500 FailedToScreenshot)) /\
  (In (Called CloseAfterCapture false) (fst run) ->
   In (Called CloseInCatch (returns E CloseInCatch)) (fst run) /\
   snd run = Some (mkResponse 500 FailedToScreenshot)).
Proof.
  cbv zeta. rewrite invoke_run.
  destruct (String.eqb httpMethod "OPTIONS");
    [cbn [fst snd In filter List.length]; repeat split; intros; (lia || tauto)|].
  destruct (negb (String.eqb httpMethod "POST"));
    [cbn [fst snd In filter List.length]; repeat split; intros; (lia || tauto)|].
  destruct (requestUrl P eventBody) as [url|];
    [|cbn [fst snd In filter List.length]; repeat split; intros; (lia || tauto)].
  cbn [fst snd]. set (cookies := parseCookies P (getCookieInput P E eventBody)).
  assert (Hrun : forall (ops : list Op),
             (forall op, In op ops -> op <> CloseAfterCapture /\ op <> CloseInCatch) ->
             filter closeAttempt (fst (runOps E ops)) = []).
  { intros ops Hops.
    destruct (filter closeAttempt (fst (runOps E ops))) as [|e l] eqn:Hf; [reflexivity|].
    assert (He : In e (filter closeAttempt (fst (runOps E ops)))) by (rewrite Hf; now left).
    apply filter_In in He as [He Hc].
    apply runOps_In in He as (op & Hop & ->).
    destruct (Hops op Hop) as [H1 H2]. destruct op; try discriminate; congruence. }
  assert (Hlaunch : filter closeAttempt (launchTrace E) = []).
  { unfold launchTrace, lambdaOps. cbn [runOps].
    destruct (runningOnLambda E), (returns E LaunchLocal), (returns E ExecutablePath),
      (returns E LaunchLambda); reflexivity. }
  assert (Hpage : filter closeAttempt (pageTrace E cookies) = []).
  { unfold pageTrace.
    assert (H1 : filter closeAttempt (fst (runOps E setupOps)) = []).
    { apply Hrun. unfold setupOps. cbn [In]. intuition (subst; discriminate). }
    assert (H2 : filter closeAttempt (fst (runOps E interceptOps)) = []).
    { apply Hrun. unfold interceptOps. cbn [In]. intuition (subst; discriminate). }
    assert (H3 : filter closeAttempt (fst (runOps E preloadOps)) = []).
    { apply Hrun. unfold preloadOps. cbn [In]. intuition (subst; discriminate). }
    assert (H4 : filter closeAttempt (fst (runOps E targetOps)) = []).
    { apply Hrun. unfold targetOps. cbn [In]. intuition (subst; discriminate). }
    destruct (snd (runOps E setupOps)); [|exact H1].
    rewrite !filter_app, H1, H2, H4. destruct cookies; [reflexivity|]. now rewrite H3. }
  assert (Hcapture : List.length (filter closeAttempt (captureTrace E)) <= 1).
  { unfold captureTrace. rewrite filter_app, Hrun.
    - cbn [app filter closeAttempt]. destruct (returns E Screenshot); cbn; lia.
    - intros op Hop. destruct (element E); cbn [In] in Hop;
        intuition (subst; discriminate). }
  assert (Hok : succeeds E = true -> pageOk E = true).
  { unfold succeeds. intros H. apply andb_prop in H as [H ?].
    now apply andb_prop in H as [? ?]. }
  split; [|split; [|split; [|split]]].
  - unfold renderTrace. rewrite !filter_app, !length_app, Hlaunch.
    destruct (launchOk E); cbn [andb negb]; [|simpl; lia].
    rewrite filter_app, length_app, Hpage.
    destruct (succeeds E) eqn:Hs.
    + rewrite (Hok eq_refl). cbn [negb filter List.length app]. lia.
    + destruct (pageOk E); cbn [negb filter closeAttempt List.length app]; lia.
  - rewrite acquired_renderTrace. intros Hl.
    unfold renderTrace. rewrite Hl. cbn [andb app]. now rewrite app_nil_r.
  - intros b Hin.
    destruct (@close_call_place cookies _ _ (or_introl eq_refl) Hin)
      as (Hl & [(Hp & Hs & _ & _) | (_ & Hx & _)]); [|discriminate].
    exists (fst (expectedShot E)), (snd (expectedShot E)).
    apply renderTrace_In. right. right. left. repeat split; try assumption.
    unfold captureTrace. apply in_app_iff. right. left. now rewrite Hs.
  - intros b Hin. rewrite acquired_renderTrace.
    destruct (@close_call_place cookies _ _ (or_intror eq_refl) Hin)
      as (Hl & [(_ & _ & Hx & _) | (Hs & _ & _)]); [discriminate|].
    split; [exact Hl|]. unfold renderResponse. now rewrite Hs.
  - intros Hin.
    destruct (@close_call_place cookies _ _ (or_introl eq_refl) Hin)
      as (Hl & [(Hp & Hs & _ & Hc) | (_ & Hx & _)]); [|discriminate].
    assert (Hsuc : succeeds E = false).
    { unfold succeeds, captureOk. rewrite <- Hc. now rewrite !andb_false_r. }
    split.
    + apply renderTrace_In. right. right. right. now repeat split.
    + unfold renderResponse. now rewrite Hsuc.
Qed.

End RunTraces.


Lemma screenshot_witness :
  In (ScreenshotPost.Shot false (Some (Spec.pixels 12 22 116 66)) true)
     (fst (ScreenshotPost.invoke Demo.platform Demo.env_inner "POST" Demo.body_post)) /\
  In (ScreenshotPost.Called ScreenshotPost.GotoTarget true)
     (fst (ScreenshotPost.invoke Demo.platform Demo.env_inner "POST" Demo.body_post)).
Proof.
  assert (H : In (ScreenshotPost.Shot false
                    (Some (Spec.pixels 12 22 116 66)) true)
                (fst (ScreenshotPost.invoke Demo.platform Demo.env_inner "POST"
                        Demo.body_post))).
  { vm_compute. repeat (first [left; reflexivity | right]). }
  split; [exact H|].
  destruct (screenshot_only_of_the_target_page
              Demo.platform Demo.env_inner "POST" Demo.body_post _ _ _ H)
    as (_ & Hall & _).
  exact (proj1 (Forall_forall _ _) Hall ScreenshotPost.GotoTarget
           (or_intror (or_intror (or_intror (or_intror (or_introl eq_refl)))))).
Defined.

Lemma close_calls_witness :
  In (ScreenshotPost.Called ScreenshotPost.CloseAfterCapture false)
     (fst (ScreenshotPost.invoke Demo.platform Law.env_stuck "POST" Demo.body_post)) /\
  In (ScreenshotPost.Called ScreenshotPost.CloseInCatch false)
     (fst (ScreenshotPost.invoke Demo.platform Law.env_stuck "POST" Demo.body_post)) /\
  snd (ScreenshotPost.invoke Demo.platform Law.env_stuck "POST" Demo.body_post)
  = Some (ScreenshotPost.mkResponse 500 ScreenshotPost.FailedToScreenshot).
Proof.
  assert (H : In (ScreenshotPost.Called ScreenshotPost.CloseAfterCapture false)
                (fst (ScreenshotPost.invoke Demo.platform Law.env_stuck "POST"
                        Demo.body_post))).
  { vm_compute. repeat (first [left; reflexivity | right]). }
  split; [exact H|].
  exact (proj2 (proj2 (proj2 (proj2 (close_calls_of_a_run
                                       Demo.platform Law.env_stuck "POST"
                                       Demo.body_post)))) H).
Defined.

(** ** Patterns without assertions match inside any larger text *)

Section Embedding.
Import Re Law.

Lemma star_loop_fallback (A : Type) (p : ascii -> bool) (k : Cont A) :
  forall (s : string) (i : nat) (cap : option string),
    k i s cap <> None -> star_loop p i s cap k <> None.
Proof.
  intros [|c s] i cap H; cbn [star_loop]; [exact H|].
  destruct (p c); [|exact H].
  destruct (star_loop p (S i) s cap k); [discriminate | exact H].
Qed.

Lemma run_extend (post : string) (r : regex) :
  anchor_free r = true ->
  forall (A B : Type) (k : Cont A) (k' : Cont B),
    (forall i s cap i' cap', k i s cap <> None -> k' i' (s ++ post) cap' <> None) ->
    forall i s cap i' cap',
      run r i s cap k <> None -> run r i' (s ++ post) cap' k' <> None.
Proof.
  induction r as [|p|r1 IH1 r2 IH2|r1 IH1 r2 IH2|p|r1 IH1| |];
    cbn [anchor_free]; intros Hr A B k k' Hk i s cap i' cap'; try discriminate.
  - cbn [run]. apply Hk.
  - cbn [run]. destruct s as [|c s]; [congruence|]. cbn [append].
    destruct (p c); [apply Hk | congruence].
  - apply andb_prop in Hr as [Hr1 Hr2]. cbn [run].
    apply (IH1 Hr1). intros j t c j' c'. now apply (IH2 Hr2).
  - apply andb_prop in Hr as [Hr1 Hr2]. cbn [run].
    destruct (run r1 i s cap k) eqn:E1.
    + intros _.
      assert (H : run r1 i' (s ++ post) cap' k' <> None).
      { apply (IH1 Hr1 A B k k' Hk i s cap). congruence. }
      destruct (run r1 i' (s ++ post) cap' k'); [discriminate | contradiction].
    + intros H2.
      destruct (run r1 i' (s ++ post) cap' k'); [discriminate|].
      now apply (IH2 Hr2 A B k k' Hk i s cap).
  - cbn [run]. revert i i'. induction s as [|c s IHs]; intros i i'.
    + cbn [star_loop append]. intros H. apply star_loop_fallback.
      now apply (Hk i "" cap).
    + cbn [star_loop append]. destruct (p c); [|now apply Hk].
      destruct (star_loop p (S i) s cap k) eqn:E.
      * intros _.
        assert (H : star_loop p (S i') (s ++ post) cap' k' <> None).
        { apply (IHs (S i)). congruence. }
        destruct (star_loop p (S i') (s ++ post) cap' k');
          [discriminate | contradiction].
      * intros H. destruct (star_loop p (S i') (s ++ post) cap' k'); [discriminate|].
        now apply (Hk i (String c s) cap).
  - cbn [run]. apply (IH1 Hr). intros j t c j' c'. apply Hk.
Qed.

Lemma search_extend_right (post : string) (r : regex) :
  anchor_free r = true ->
  forall s i i', search_from r i s <> None -> search_from r i' (s ++ post) <> None.
Proof.
  intros Hr.
  assert (Hm : forall s i i', match_at r i s <> None ->
                              match_at r i' (s ++ post) <> None).
  { intros s i i'. unfold match_at. apply (run_extend post r Hr). discriminate. }
  induction s as [|c s IH]; intros i i'.
  - cbn [search_from]. destruct (match_at r i "") eqn:E; [|congruence].
    intros _. assert (H : match_at r i' ("" ++ post) <> None).
    { apply (Hm "" i). congruence. }
    destruct post as [|d post]; cbn [append search_from] in *;
      destruct (match_at r i' _); (discriminate || contradiction).
  - cbn [search_from append]. destruct (match_at r i (String c s)) eqn:E.
    + intros _. assert (H : match_at r i' (String c s ++ post) <> None).
      { apply (Hm (String c s) i). congruence. }
      cbn [append] in H.
      destruct (match_at r i' (String c (s ++ post))); [discriminate | contradiction].
    + intros H. destruct (match_at r i' (String c (s ++ post))); [discriminate|].
      now apply (IH (S i)).
Qed.

Lemma str_app_nil (s : string) : s ++ "" = s.
Proof. induction s as [|c s IH]; simpl; [reflexivity | now rewrite IH]. Qed.

Lemma search_extend_left (r : regex) :
  anchor_free r = true ->
  forall pre s i i', search_from r i s <> None -> search_from r i' (pre ++ s) <> None.
Proof.
  intros Hr. induction pre as [|c pre IH]; intros s i i' H.
  - cbn [append]. rewrite <- (str_app_nil s). now apply (search_extend_right "" r Hr s i).
  - cbn [append search_from].
    destruct (match_at r i' (String c (pre ++ s))); [discriminate|].
    now apply (IH s i).
Qed.

(** A pattern without assertions that matches somewhere in a text matches
    somewhere in every text that contains it. *)
Lemma test_embedded (r : regex) (pre m post : string) :
  anchor_free r = true -> test r m = true -> test r (pre ++ m ++ post) = true.
Proof.
  unfold test. intros Hr H.
  assert (H1 : search_from r 0 m <> None).
  { destruct (search_from r 0 m); [discriminate | discriminate]. }
  assert (H2 : search_from r 0 (pre ++ m ++ post) <> None).
  { apply (search_extend_left r Hr pre (m ++ post) 0).
    now apply (search_extend_right post r Hr m 0). }
  destruct (search_from r 0 (pre ++ m ++ post)); [reflexivity | contradiction].
Qed.

(** X17.  The login-wall test is a test for phrases anywhere in the
    page: a page that contains a text which the test takes for a login
    interstitial is itself taken for one, whatever comes before and after
    that text in the page. *)
Theorem login_phrase_anywhere_marks_the_page (pre m post : string) :
  FbScrape.isFacebookLoginInterstitial m = true ->
  FbScrape.isFacebookLoginInterstitial (pre ++ m ++ post) = true.
Proof.
  unfold FbScrape.isFacebookLoginInterstitial.
  destruct (Js.truthy m) eqn:Hm; cbn [negb]; [|discriminate].
  assert (Ht : Js.truthy (pre ++ m ++ post) = true).
  { destruct pre; [|reflexivity]. destruct m; [discriminate | reflexivity]. }
  rewrite Ht. cbn [negb].
  destruct (test FbScrape.re_login1 m) eqn:E1.
  - intros _. now rewrite (test_embedded FbScrape.re_login1 pre m post eq_refl E1).
  - destruct (test FbScrape.re_login2 m) eqn:E2.
    + intros _. rewrite (test_embedded FbScrape.re_login2 pre m post eq_refl E2).
      now destruct (test FbScrape.re_login1 (pre ++ m ++ post)).
    + destruct (test FbScrape.re_login3 m) eqn:E3; [|discriminate].
      intros _. rewrite (test_embedded FbScrape.re_login3 pre m post eq_refl E3).
      now destruct (test FbScrape.re_login1 (pre ++ m ++ post)),
        (test FbScrape.re_login2 (pre ++ m ++ post)).
Qed.

End Embedding.

Lemma login_phrase_witness :
  FbScrape.isFacebookLoginInterstitial "log  INTO facebook" = true /\
  FbScrape.isFacebookLoginInterstitial
    ("<p>She wrote: " ++ "log  INTO facebook" ++ " to see my photos.</p>") = true.
Proof.
  split; [reflexivity|].
  apply login_phrase_anywhere_marks_the_page. reflexivity.
Defined.

(** ** The fetch loops of the earlier versions *)

Section EarlierLoops.
Import Spec Law FbScrapeEarlier.

Lemma pageAt_S (c : string) (cs : list string) (r : option FetchResult)
      (rs : list (option FetchResult)) (n : nat) :
  pageAt (c :: cs) (r :: rs) (S n) = pageAt cs rs n.
Proof. reflexivity. Qed.

Lemma last_index_none (A : Type) (f : A -> bool) (l : list A) :
  last_index f l = None <-> existsb f l = false.
Proof.
  induction l as [|a l IH]; cbn [last_index existsb]; [tauto|].
  destruct (last_index f l) as [n|].
  - split; [discriminate|]. intros H. apply orb_false_iff in H as [_ H].
    apply IH in H. discriminate.
  - destruct (f a); cbn [orb]; [split; discriminate|].
    split; intros _; [now apply IH | reflexivity].
Qed.

Section FirstVersion.
Variable N : Network.

Lemma tryCandidates_result (candidates : list string) :
  forall (w : World N) (tried0 : list string) (fetched0 : option (string * string)),
    let rs := responses N w candidates in
    let st := tryCandidates N candidates w tried0 fetched0 in
    match first_index ogPage rs with
    | Some n =>
        tried st = (tried0 ++ firstn (S n) candidates)%list /\
        fetched st = pageAt candidates rs n /\ fetched st <> None
    | None =>
        tried st = (tried0 ++ candidates)%list /\
        fetched st = match last_index usable rs with
                     | Some n => pageAt candidates rs n
                     | None => fetched0
                     end
    end.
Proof.
  induction candidates as [|c cs IH]; intros w tried0 fetched0; cbv zeta.
  - cbn. now rewrite app_nil_r.
  - cbn [responses tryCandidates].
    destruct (safeFetch N w c buildHeaders) as [res w'].
    specialize (IH w'). cbv zeta in IH.
    cbn [first_index last_index].
    destruct res as [r|]; cbn [ogPage usable].
    + destruct (ok r && Js.truthy (text r)) eqn:Hu; cbn [andb].
      * destruct (containsOg (text r)) eqn:Hog.
        -- cbn [tried fetched firstn]. unfold pageAt. cbn [nth_error].
           repeat split. discriminate.
        -- specialize (IH (tried0 ++ [c])%list (Some (text r, Js.or_else (url r) c))).
           destruct (first_index ogPage (responses N w' cs)) as [n|].
           ++ destruct IH as (Ht & Hf & Hn). rewrite Ht, Hf, <- app_assoc.
              rewrite pageAt_S. repeat split. now rewrite <- Hf.
           ++ destruct IH as (Ht & Hf). rewrite Ht, Hf, <- app_assoc.
              split; [reflexivity|].
              destruct (last_index usable (responses N w' cs)); reflexivity.
      * specialize (IH (tried0 ++ [c])%list fetched0).
        destruct (first_index ogPage (responses N w' cs)) as [n|].
        -- destruct IH as (Ht & Hf & Hn). rewrite Ht, Hf, <- app_assoc.
           rewrite pageAt_S. repeat split. now rewrite <- Hf.
        -- destruct IH as (Ht & Hf). rewrite Ht, Hf, <- app_assoc.
           split; [reflexivity|].
           destruct (last_index usable (responses N w' cs)); reflexivity.
    + specialize (IH (tried0 ++ [c])%list fetched0).
      destruct (first_index ogPage (responses N w' cs)) as [n|].
      * destruct IH as (Ht & Hf & Hn). rewrite Ht, Hf, <- app_assoc.
        rewrite pageAt_S. repeat split. now rewrite <- Hf.
      * destruct IH as (Ht & Hf). rewrite Ht, Hf, <- app_assoc.
        split; [reflexivity|].
        destruct (last_index usable (responses N w' cs)); reflexivity.
Qed.

Lemma pageAt_usable (cs : list string) :
  forall (w : World N) (n : nat),
    last_index usable (responses N w cs) = Some n ->
    pageAt cs (responses N w cs) n <> None.
Proof.
  induction cs as [|c cs IH]; intros w n; [discriminate|].
  cbn [responses]. destruct (safeFetch N w c buildHeaders) as [res w'].
  cbn [last_index]. destruct (last_index usable (responses N w' cs)) as [m|] eqn:E.
  - intros H. injection H as <-. rewrite pageAt_S. now apply IH.
  - destruct (usable res) eqn:Hu; [|discriminate].
    intros H. injection H as <-. destruct res as [r|]; [|discriminate].
    unfold pageAt. cbn [nth_error]. discriminate.
Qed.

(** X18.  The loop of the first earlier version.  It fetches the
    candidates in order and stops at the first response with status ok and
    a body that has Open Graph tags, whose page it keeps.  When no
    response is such, every candidate was tried and the page kept is that
    of the last response with status ok and a non-empty body, a login
    interstitial included; there is no page exactly when no response had
    status ok and a non-empty body. *)
Theorem earlier_loop_keeps_the_last_page (candidates : list string) (w : World N) :
  let rs := responses N w candidates in
  let st := tryCandidates N candidates w [] None in
  match first_index ogPage rs with
  | Some n =>
      tried st = firstn (S n) candidates /\
      fetched st = pageAt candidates rs n /\ fetched st <> None
  | None =>
      tried st = candidates /\
      fetched st = match last_index usable rs with
                   | Some n => pageAt candidates rs n
                   | None => None
                   end /\
      (fetched st = None <-> existsb usable rs = false)
  end.
Proof.
  cbv zeta. pose proof (tryCandidates_result candidates w [] None) as H.
  cbv zeta in H. cbn [app] in H.
  destruct (first_index ogPage (responses N w candidates)) as [n|]; [exact H|].
  destruct H as [Ht Hf]. split; [exact Ht|]. split; [exact Hf|].
  rewrite Hf, <- last_index_none.
  destruct (last_index usable (responses N w candidates)) as [n|] eqn:E.
  - split; [|discriminate]. intros H. now apply pageAt_usable in E.
  - tauto.
Qed.

End FirstVersion.

Section SecondVersion.
Variable P : Platform.
Variable N : RawNetwork.

Lemma rawPageAt_S (c : string) (cs : list string) (r : option RawResponse)
      (rs : list (option RawResponse)) (n : nat) :
  rawPageAt (c :: cs) (r :: rs) (S n) = rawPageAt cs rs n.
Proof. reflexivity. Qed.

Lemma tryCandidatesRaw_result (candidates : list string) :
  forall (w : RawWorld N) (tried0 : list string) (fetched0 : option (string * string)),
    let rs := rawResponses N w candidates in
    let st := tryCandidatesRaw N candidates w tried0 fetched0 in
    match first_index rawOgPage rs with
    | Some n =>
        raw_tried st = (tried0 ++ firstn (S n) candidates)%list /\
        raw_fetched st = rawPageAt candidates rs n
    | None =>
        raw_tried st = (tried0 ++ candidates)%list /\
        raw_fetched st = match last_index isReadable rs with
                         | Some n => rawPageAt candidates rs n
                         | None => fetched0
                         end
    end.
Proof.
  induction candidates as [|c cs IH]; intros w tried0 fetched0; cbv zeta.
  - cbn. now rewrite app_nil_r.
  - cbn [rawResponses tryCandidatesRaw].
    destruct (fetch N w c buildHeaders) as [res w'].
    specialize (IH w'). cbv zeta in IH.
    cbn [first_index last_index].
    assert (Hskip : forall f0,
      isReadable res = false -> rawOgPage res = false ->
      match
        (if rawOgPage res then Some 0
         else match first_index rawOgPage (rawResponses N w' cs) with
              | Some n => Some (S n) | None => None end)
      with
      | Some n =>
          raw_tried (tryCandidatesRaw N cs w' (tried0 ++ [c]) f0) =
            (tried0 ++ firstn (S n) (c :: cs))%list /\
          raw_fetched (tryCandidatesRaw N cs w' (tried0 ++ [c]) f0) =
            rawPageAt (c :: cs) (res :: rawResponses N w' cs) n
      | None =>
          raw_tried (tryCandidatesRaw N cs w' (tried0 ++ [c]) f0) =
            (tried0 ++ c :: cs)%list /\
          raw_fetched (tryCandidatesRaw N cs w' (tried0 ++ [c]) f0) =
            match
              match last_index isReadable (rawResponses N w' cs) with
              | Some n => Some (S n)
              | None => if isReadable res then Some 0 else None
              end
            with
            | Some n => rawPageAt (c :: cs) (res :: rawResponses N w' cs) n
            | None => f0
            end
      end).
    { intros f0 Hr Ho. rewrite Hr, Ho.
      specialize (IH (tried0 ++ [c])%list f0).
      destruct (first_index rawOgPage (rawResponses N w' cs)) as [n|].
      - destruct IH as (Ht & Hf). rewrite Ht, Hf, <- app_assoc. now split.
      - destruct IH as (Ht & Hf). rewrite Ht, Hf, <- app_assoc.
        split; [reflexivity|].
        destruct (last_index isReadable (rawResponses N w' cs)); reflexivity. }
    destruct res as [r|]; [|now apply Hskip].
    destruct (r_ok r) eqn:Hok;
      [|apply Hskip; unfold isReadable, rawOgPage, readable; now rewrite Hok].
    destruct (r_text r) as [html|] eqn:Htext;
      [|apply Hskip; unfold isReadable, rawOgPage, readable; now rewrite Hok, Htext].
    assert (Hrd : readable (Some r) = Some html).
    { unfold readable. now rewrite Hok. }
    unfold rawOgPage at 1. rewrite Hrd.
    destruct (containsOg html) eqn:Hog.
    + cbn [raw_tried raw_fetched firstn]. unfold rawPageAt. cbn [nth_error].
      rewrite Hrd. now split.
    + specialize (IH (tried0 ++ [c])%list (Some (html, Js.or_else (r_url r) c))).
      destruct (first_index rawOgPage (rawResponses N w' cs)) as [n|].
      * destruct IH as (Ht & Hf). rewrite Ht, Hf, <- app_assoc. now split.
      * destruct IH as (Ht & Hf). rewrite Ht, Hf, <- app_assoc.
        split; [reflexivity|].
        destruct (last_index isReadable (rawResponses N w' cs)); [reflexivity|].
        unfold isReadable. rewrite Hrd. unfold rawPageAt. cbn [nth_error].
        now rewrite Hrd.
Qed.

(** X19.  The second earlier version.  A request whose [url] is not a
    string, or is the empty string, is answered with 400.  Otherwise the
    loop stops at the first response with status ok whose body could be
    read and has Open Graph tags; failing that it tries every candidate
    and keeps the body of the last response with status ok that could be
    read, an empty body included.  The request is answered with 500 when
    the URL does not parse, with 200 when the body kept is not empty, and
    with 502 otherwise: an empty body read last discards a page read
    before it. *)
Theorem earlier_status_depends_on_the_last_body (url : Json.value) (w : RawWorld N) :
  match url with
  | Json.Str inputUrl =>
      if Js.truthy inputUrl then
        match FbScrape.buildCandidateUrls P inputUrl with
        | None => status N P url w = 500
        | Some candidates =>
            let rs := rawResponses N w candidates in
            let st := tryCandidatesRaw N candidates w [] None in
            let kept :=
              match first_index rawOgPage rs with
              | Some n => rawPageAt candidates rs n
              | None =>
                  match last_index isReadable rs with
                  | Some n => rawPageAt candidates rs n
                  | None => None
                  end
              end in
            raw_fetched st = kept /\
            raw_tried st =
              match first_index rawOgPage rs with
              | Some n => firstn (S n) candidates
              | None => candidates
              end /\
            status N P url w =
              match kept with
              | Some (html, _) => if Js.truthy html then 200 else 502
              | None => 502
              end
        end
      else status N P url w = 400
  | _ => status N P url w = 400
  end.
Proof.
  unfold status.
  destruct url as [| | | |inputUrl| |]; try reflexivity.
  destruct (Js.truthy inputUrl); cbn [negb]; [|reflexivity].
  destruct (FbScrape.buildCandidateUrls P inputUrl) as [candidates|]; [|reflexivity].
  cbv zeta. pose proof (tryCandidatesRaw_result candidates w [] None) as H.
  cbv zeta in H. cbn [app] in H.
  destruct (first_index rawOgPage (rawResponses N w candidates)) as [n|];
    destruct H as [Ht Hf]; rewrite Hf; now repeat split.
Qed.

End SecondVersion.

End EarlierLoops.

(** A run of the second earlier version: the first candidate returns a
    page without Open Graph tags, the second an empty body, the third
    nothing; the answer is 502. *)
Example earlier_page_discarded :
  FbScrapeEarlier.status Law.pageThenEmpty Demo.platform
    (Json.Str "https://www.facebook.com/somepage/posts/123") 0 = 502.
Proof. reflexivity. Qed.

(** ** Decoding entities *)

Section Entities.
Import Re Spec Law.

(** A global replacement of a literal by one character is a pass with a
    table of one entity. *)
Lemma replace_all_lit (a : ascii) (w : string) (ch : ascii) (s : string) :
  forall (i skip : nat),
    replace_all_from (lit (String a w)) (String ch "") i s skip
    = unescape_with [(String a w, ch)] s skip.
Proof.
  induction s as [|c s IH]; intros i skip.
  - cbn [replace_all_from unescape_with]. destruct skip; [|reflexivity].
    unfold match_at. rewrite run_lit. reflexivity.
  - cbn [replace_all_from unescape_with]. destruct skip as [|k]; [|apply IH].
    unfold match_at. rewrite run_lit. cbn [find fst].
    destruct (Js.starts_with (String a w) (String c s)); [|now rewrite IH].
    cbn [m_end]. replace (i + String.length (String a w) - i) with (S (String.length w))
      by (cbn [String.length]; lia).
    replace (String.length (String a w) - 1) with (String.length w)
      by (cbn [String.length]; lia).
    cbn [append]. now rewrite IH.
Qed.

Lemma unescape_skip (T : list (string * ascii)) (s : string) :
  forall k, unescape_with T s k = unescape_with T (Js.drop k s) 0.
Proof.
  induction s as [|c s IH]; intros [|k]; try reflexivity.
  cbn [unescape_with Js.drop]. apply IH.
Qed.

Lemma drop_length (s : string) : forall k, String.length (Js.drop k s) <= String.length s.
Proof.
  induction s as [|c s IH]; intros [|k]; cbn [Js.drop String.length]; try lia.
  specialize (IH k). lia.
Qed.

Section OnePass.
Variable b : string.      (* the body of the entity of the pass *)
Variable ch : ascii.      (* the character the pass writes *)

Let e : string := String "&" b.
Let pass (s : string) : string := unescape_with [(e, ch)] s 0.

Lemma pass_cons (c : ascii) (s : string) :
  Js.starts_with e (String c s) = false -> pass (String c s) = String c (pass s).
Proof.
  intros H. unfold pass. cbn [unescape_with find fst]. now rewrite H.
Qed.

Lemma pass_entity (c : ascii) (s : string) :
  Js.starts_with e (String c s) = true ->
  c = "&"%char /\ pass (String c s) = String ch (pass (Js.drop (String.length b) s)).
Proof.
  intros H. split.
  - unfold e in H. cbn [Js.starts_with] in H. apply andb_prop in H as [H _].
    apply Ascii.eqb_eq in H. now subst.
  - unfold pass. cbn [unescape_with find fst]. rewrite H.
    unfold e. cbn [String.length]. rewrite Nat.sub_succ, Nat.sub_0_r. now rewrite unescape_skip.
Qed.

Lemma not_entity (c : ascii) (s : string) :
  Ascii.eqb c "&" = false -> Js.starts_with e (String c s) = false.
Proof.
  intros H. unfold e. cbn [Js.starts_with]. rewrite Ascii.eqb_sym, H. reflexivity.
Qed.

(** The pass keeps every prefix that has neither an ampersand nor the
    character it writes. *)
Lemma pass_prefix (t : string) :
  lacks "&" t = true -> lacks ch t = true ->
  forall s, Js.starts_with t (pass s) = Js.starts_with t s.
Proof.
  induction t as [|x t IH]; intros Ha Hc s; [reflexivity|].
  cbn [lacks] in Ha, Hc. apply andb_prop in Ha as [Hxa Ha].
  apply andb_prop in Hc as [Hxc Hc]. apply negb_true_iff in Hxa, Hxc.
  destruct s as [|d s]; [reflexivity|].
  destruct (Js.starts_with e (String d s)) eqn:He.
  - destruct (pass_entity _ _ He) as [-> Hp]. rewrite Hp.
    cbn [Js.starts_with]. now rewrite Hxa, Hxc.
  - rewrite (pass_cons _ _ He). cbn [Js.starts_with]. now rewrite (IH Ha Hc).
Qed.

Lemma pass_body (t : string) :
  lacks "&" t = true ->
  forall s, Js.starts_with t s = true ->
            pass s = t ++ pass (Js.drop (String.length t) s).
Proof.
  induction t as [|x t IH]; intros Ha s Hs; [reflexivity|].
  cbn [lacks] in Ha. apply andb_prop in Ha as [Hxa Ha]. apply negb_true_iff in Hxa.
  destruct s as [|d s]; [discriminate|].
  cbn [Js.starts_with] in Hs. apply andb_prop in Hs as [Hxd Hs].
  apply Ascii.eqb_eq in Hxd. subst d.
  rewrite (pass_cons _ _ (not_entity _ _ Hxa)).
  cbn [String.length Js.drop append]. now rewrite (IH Ha s Hs).
Qed.

Variable T : list (string * ascii).
Hypothesis T_ok : forallb (entity_ok ch) T = true.
Hypothesis ch_ok : Ascii.eqb ch "&" = false.

Lemma find_after_pass (c : ascii) (s : string) :
  find (fun p => Js.starts_with (fst p) (String c (pass s))) T
  = find (fun p => Js.starts_with (fst p) (String c s)) T.
Proof.
  revert T_ok. clear ch_ok. induction T as [|[e' ch'] T' IH]; [reflexivity|].
  cbn [forallb find fst]. intros H. apply andb_prop in H as [He' HT'].
  unfold entity_ok in He'. cbn [fst] in He'. destruct e' as [|a b']; [discriminate|].
  apply andb_prop in He' as [He' Hc]. apply andb_prop in He' as [_ Ha].
  cbn [Js.starts_with]. rewrite (pass_prefix _ Ha Hc).
  destruct (Ascii.eqb a c && Js.starts_with b' s); [reflexivity | now apply IH].
Qed.

Lemma find_body (s : string) (e' : string) (ch' : ascii) :
  find (fun p => Js.starts_with (fst p) s) T = Some (e', ch') ->
  exists b', e' = String "&" b' /\ lacks "&" b' = true /\
             Js.starts_with e' s = true.
Proof.
  intros H. apply find_some in H as [Hin Hs]. cbn [fst] in Hs.
  assert (Hok : entity_ok ch (e', ch') = true).
  { apply (proj1 (forallb_forall _ _) T_ok). exact Hin. }
  unfold entity_ok in Hok. cbn [fst] in Hok. destruct e' as [|a b']; [discriminate|].
  apply andb_prop in Hok as [Hok _]. apply andb_prop in Hok as [Ha Hb].
  apply Ascii.eqb_eq in Ha. subst a. now exists b'.
Qed.

Lemma find_at_ch (s : string) :
  find (fun p => Js.starts_with (fst p) (String ch s)) T = None.
Proof.
  revert T_ok. induction T as [|[e' ch'] T' IH]; [reflexivity|].
  cbn [forallb find fst]. intros H. apply andb_prop in H as [He' HT'].
  unfold entity_ok in He'. cbn [fst] in He'. destruct e' as [|a b']; [discriminate|].
  apply andb_prop in He' as [He' _]. apply andb_prop in He' as [Ha _].
  apply Ascii.eqb_eq in Ha. subst a.
  cbn [Js.starts_with]. rewrite Ascii.eqb_sym, ch_ok. cbn [andb]. now apply IH.
Qed.

(** One pass over the table is the pass of its first entity followed by
    one pass over the others. *)
Lemma unescape_split (n : nat) :
  forall s, String.length s <= n ->
            unescape_with ((e, ch) :: T) s 0 = unescape_with T (pass s) 0.
Proof.
  induction n as [|n IH]; intros [|c s] Hlen; try reflexivity;
    cbn [String.length] in Hlen; [lia|].
  destruct (Js.starts_with e (String c s)) eqn:He.
  - destruct (pass_entity _ _ He) as [-> Hp]. rewrite Hp.
    cbn [unescape_with find fst]. rewrite He, find_at_ch.
    rewrite unescape_skip. unfold e. cbn [String.length]. rewrite Nat.sub_succ, Nat.sub_0_r.
    rewrite IH; [reflexivity|]. pose proof (drop_length s (String.length b)). lia.
  - rewrite (pass_cons _ _ He).
    cbn [unescape_with find fst]. rewrite He, find_after_pass.
    destruct (find (fun p => Js.starts_with (fst p) (String c s)) T)
      as [[e' ch']|] eqn:Hf.
    + destruct (find_body _ Hf) as (b' & -> & Hb' & Hs).
      cbn [String.length]. rewrite Nat.sub_succ, Nat.sub_0_r.
      cbn [Js.starts_with] in Hs. apply andb_prop in Hs as [_ Hs].
      rewrite (unescape_skip _ s), (unescape_skip _ (pass s)).
      rewrite (pass_body _ Hb' _ Hs), drop_app.
      rewrite IH; [reflexivity|]. pose proof (drop_length s (String.length b')). lia.
    + rewrite IH; [reflexivity | lia].
Qed.

End OnePass.

Lemma unescape_nil (s : string) : unescape_with [] s 0 = s.
Proof. induction s as [|c s IH]; cbn; [reflexivity | now rewrite IH]. Qed.

(** The four later replacements of [decodeHtml] are one pass. *)
Lemma four_passes (s : string) :
  replace_all (lit "&#39;") "'"
    (replace_all (lit "&quot;") (String FbScrape.dq "")
      (replace_all (lit "&gt;") ">"
        (replace_all (lit "&lt;") "<" s)))
  = unescape_with entities4 s 0.
Proof.
  unfold replace_all. rewrite !replace_all_lit. unfold entities4.
  rewrite (@unescape_split "lt;" "<"
             [("&gt;", ">"%char); ("&quot;", FbScrape.dq); ("&#39;", "'"%char)]
             eq_refl eq_refl _ s (le_n _)).
  rewrite (@unescape_split "gt;" ">"
             [("&quot;", FbScrape.dq); ("&#39;", "'"%char)]
             eq_refl eq_refl _ _ (le_n _)).
  rewrite (@unescape_split "quot;" FbScrape.dq [("&#39;", "'"%char)]
             eq_refl eq_refl _ _ (le_n _)).
  rewrite (@unescape_split "#39;" "'" [] eq_refl eq_refl _ _ (le_n _)).
  now rewrite unescape_nil.
Qed.

Lemma unescape_without_amp (s : string) :
  Js.includes "&amp;" s = false ->
  forall k, unescape_with [("&amp;", "&"%char)] s k = Js.drop k s /\
            unescape_from s k = unescape_with entities4 s k.
Proof.
  induction s as [|c s IH]; intros H k; [now destruct k|].
  cbn [Js.includes] in H. apply orb_false_iff in H as [H0 H].
  destruct k as [|k]; [|cbn [unescape_with unescape_from Js.drop]; now apply IH].
  cbn [unescape_with unescape_from find fst Js.drop]. rewrite H0. unfold entities4.
  cbn [find fst].
  destruct (IH H 0) as [IH1 IH2]. cbn [Js.drop] in IH1.
  split; [now rewrite IH1|].
  destruct (Js.starts_with "&lt;" (String c s)); [now rewrite (proj2 (IH H 3))|].
  destruct (Js.starts_with "&gt;" (String c s)); [now rewrite (proj2 (IH H 3))|].
  destruct (Js.starts_with "&quot;" (String c s)); [now rewrite (proj2 (IH H 5))|].
  destruct (Js.starts_with "&#39;" (String c s)); [now rewrite (proj2 (IH H 4))|].
  now rewrite IH2.
Qed.

Lemma unescape_without_ampersand (s : string) :
  lacks "&" s = true -> unescape_with entities4 s 0 = s.
Proof.
  induction s as [|c s IH]; [reflexivity|].
  cbn [lacks]. intros H. apply andb_prop in H as [Hc H]. apply negb_true_iff in Hc.
  cbn [unescape_with]. unfold entities4. cbn [find fst Js.starts_with].
  rewrite (Ascii.eqb_sym "&" c), Hc. cbn [andb]. fold entities4. now rewrite IH.
Qed.

Lemma includes_lacks (s : string) :
  lacks "&" s = true -> Js.includes "&amp;" s = false.
Proof.
  induction s as [|c s IH]; [reflexivity|].
  cbn [lacks]. intros H. apply andb_prop in H as [Hc H]. apply negb_true_iff in Hc.
  cbn [Js.includes Js.starts_with]. rewrite (Ascii.eqb_sym "&" c), Hc.
  cbn [andb orb]. now apply IH.
Qed.

(** X20.  [decodeHtml] is two passes over the text: one that replaces
    [&amp;], and one over its result that replaces the four other
    entities, each place read once.  On a text in which [&amp;] does not
    occur it therefore unescapes every entity exactly once, as a single
    pass over the five entities does; and a text without an ampersand
    comes back unchanged. *)
Theorem decode_is_two_passes :
  (forall s : string,
      FbScrape.decodeHtml s =
      unescape_with entities4 (unescape_with [("&amp;", "&"%char)] s 0) 0) /\
  (forall s : string,
      Js.includes "&amp;" s = false -> FbScrape.decodeHtml s = unescapeHtml s) /\
  (forall s : string, lacks "&" s = true -> FbScrape.decodeHtml s = s).
Proof.
  assert (H1 : forall s : string,
             FbScrape.decodeHtml s =
             unescape_with entities4 (unescape_with [("&amp;", "&"%char)] s 0) 0).
  { intros s. unfold FbScrape.decodeHtml. rewrite four_passes.
    unfold replace_all. now rewrite replace_all_lit. }
  assert (H2 : forall s : string,
             Js.includes "&amp;" s = false -> FbScrape.decodeHtml s = unescapeHtml s).
  { intros s Hs. rewrite H1. destruct (unescape_without_amp s Hs 0) as [Ha Hb].
    cbn [Js.drop] in Ha. rewrite Ha. unfold unescapeHtml. now rewrite Hb. }
  split; [exact H1|]. split; [exact H2|].
  intros s Hs. rewrite H1.
  destruct (unescape_without_amp s (includes_lacks s Hs) 0) as [Ha _].
  cbn [Js.drop] in Ha. rewrite Ha. now apply unescape_without_ampersand.
Qed.

End Entities.

Lemma decode_witness :
  Js.includes "&amp;" "1 &lt; 2 &quot;or&quot; 3 &gt; 2" = false /\
  FbScrape.decodeHtml "1 &lt; 2 &quot;or&quot; 3 &gt; 2"
  = Spec.unescapeHtml "1 &lt; 2 &quot;or&quot; 3 &gt; 2" /\
  Law.lacks "&" "1 < 2" = true /\
  FbScrape.decodeHtml "1 < 2" = "1 < 2".
Proof.
  split; [reflexivity|]. split.
  - apply (proj1 (proj2 decode_is_two_passes)). reflexivity.
  - split; [reflexivity|]. apply (proj2 (proj2 decode_is_two_passes)). reflexivity.
Defined.

(** ** Tags that the extractor reads back *)

Section Tags.
Import Re Spec Law FbScrape.

Lemma star_loop_greedy (A : Type) (p : ascii -> bool) (k : Cont A) (x : A)
      (rest : string) (cap : option string) :
  match rest with String c _ => p c = false | EmptyString => True end ->
  forall (t : string) (i : nat),
    all_chars p t = true ->
    k (i + String.length t) rest cap = Some x ->
    star_loop p i (t ++ rest) cap k = Some x.
Proof.
  intros Hrest. induction t as [|c t IH]; intros i Ht Hk.
  - cbn [append String.length] in *. rewrite Nat.add_0_r in Hk.
    destruct rest as [|d rest]; cbn [star_loop]; [exact Hk|]. now rewrite Hrest.
  - cbn [all_chars] in Ht. apply andb_prop in Ht as [Hc Ht].
    cbn [append star_loop]. rewrite Hc.
    rewrite (IH (S i) Ht); [reflexivity|].
    cbn [String.length] in Hk. now rewrite Nat.add_succ_r in Hk.
Qed.

Lemma eq_ci_refl (c : ascii) : Js.eq_ci c c = true.
Proof. unfold Js.eq_ci. apply Ascii.eqb_refl. Qed.

Lemma starts_with_ci_app (t s : string) : starts_with_ci t (t ++ s) = true.
Proof.
  induction t as [|c t IH]; [reflexivity|].
  cbn [append starts_with_ci]. now rewrite eq_ci_refl, IH.
Qed.

Lemma eq_ci_lt (c : ascii) : Ascii.eqb c "<" = false -> Js.eq_ci c "<" = false.
Proof.
  destruct c as [[] [] [] [] [] [] [] []]; intros H; try reflexivity; discriminate.
Qed.

(** A pattern whose first character is [<] finds nothing that starts in
    a text without [<]. *)
Lemma search_skip (t : string) (r : regex) (pre : string) :
  lacks "<" pre = true ->
  forall (s : string) (i : nat),
    search_from (Cat (lit_i (String "<" t)) r) i (pre ++ s)
    = search_from (Cat (lit_i (String "<" t)) r) (i + String.length pre) s.
Proof.
  induction pre as [|c pre IH]; intros Hp s i.
  - cbn [append String.length]. now rewrite Nat.add_0_r.
  - cbn [lacks] in Hp. apply andb_prop in Hp as [Hc Hp]. apply negb_true_iff in Hc.
    cbn [append search_from]. unfold match_at at 1. cbn [run lit_i].
    unfold ch_i at 1. rewrite (eq_ci_lt _ Hc).
    rewrite (IH Hp). cbn [String.length]. now rewrite Nat.add_succ_r.
Qed.

Lemma lacks_all (c : ascii) (s : string) :
  lacks c s = true -> all_chars (none_of (String c "")) s = true.
Proof.
  induction s as [|a s IH]; [reflexivity|].
  cbn [lacks all_chars]. intros H. apply andb_prop in H as [Ha H].
  unfold none_of at 1. cbn [mem]. rewrite orb_false_r, Ha. now apply IH.
Qed.

Lemma match_title (t post : string) (i : nat) :
  lacks "<" t = true ->
  exists m, match_at re_title i ("<title>" ++ t ++ "</title>" ++ post) = Some m /\
            m_cap m = Some t.
Proof.
  intros Ht. unfold match_at, re_title. cbn [seq run].
  rewrite run_lit_i, starts_with_ci_app, drop_app.
  cbn [run]. eexists. split.
  - apply star_loop_greedy; [reflexivity | now apply lacks_all |].
    rewrite run_lit_i, starts_with_ci_app. reflexivity.
  - cbn [m_cap]. f_equal.
    replace (i + String.length "<title>" + String.length t
             - (i + String.length "<title>")) with (String.length t) by lia.
    apply take_app.
Qed.

(** X21.  Round trip of the title: for a page whose first [<] opens a
    title tag, the extractor reads back the text of the tag, entities
    decoded, when that text has no [<]; with no ampersand in it either,
    the text comes back as it was written. *)
Theorem title_is_read_back (pre t post : string) :
  lacks "<" pre = true ->
  lacks "<" t = true ->
  extractTitle (pre ++ "<title>" ++ t ++ "</title>" ++ post) = decodeHtml t /\
  (lacks "&" t = true ->
   extractTitle (pre ++ "<title>" ++ t ++ "</title>" ++ post) = t).
Proof.
  intros Hpre Ht.
  assert (H : extractTitle (pre ++ "<title>" ++ t ++ "</title>" ++ post) = decodeHtml t).
  { unfold extractTitle, match1, re_title. cbn [seq].
    rewrite (search_skip "title>" _ pre Hpre).
    destruct (match_title t post (0 + String.length pre) Ht) as (m & Hm & Hc).
    unfold re_title in Hm. cbn [seq] in Hm.
    destruct ("<title>" ++ t ++ "</title>" ++ post) eqn:E; [discriminate|].
    cbn [search_from]. rewrite Hm. now rewrite Hc. }
  split; [exact H|].
  intros Ha. rewrite H. unfold decodeHtml. rewrite four_passes.
  unfold replace_all. rewrite replace_all_lit.
  destruct (unescape_without_amp t (includes_lacks t Ha) 0) as [Hx _].
  cbn [Js.drop] in Hx. rewrite Hx. now apply unescape_without_ampersand.
Qed.

End Tags.

Lemma title_witness :
  FbScrape.extractTitle
    ("  " ++ "<title>" ++ "Anna's photos" ++ "</title>" ++ "<body></body>")
  = "Anna's photos".
Proof.
  apply (proj2 (title_is_read_back "  " "Anna's photos" "<body></body>"
                  eq_refl eq_refl)).
  reflexivity.
Defined.

Section MetaTags.
Import Re Spec Law FbScrape.

Lemma run_plus_ws (A : Type) (k : Cont A) (s : string) (i : nat) (cap : option string) :
  match s with String c _ => Js.is_space c = false | EmptyString => True end ->
  run (Plus ws) i (" " ++ s) cap k = k (S i) s cap.
Proof.
  intros Hs. unfold Plus. cbn [run append].
  change (ws " ") with true. cbv iota.
  destruct s as [|c s]; cbn [star_loop]; [reflexivity|].
  unfold ws at 1. now rewrite Hs.
Qed.

Lemma lacks_quotes (a : string) :
  lacks dq a = true -> lacks "'" a = true -> all_chars (none_of quotes) a = true.
Proof.
  induction a as [|c a IH]; [reflexivity|].
  cbn [lacks all_chars]. intros H1 H2.
  apply andb_prop in H1 as [Hc1 H1]. apply andb_prop in H2 as [Hc2 H2].
  apply negb_true_iff in Hc1, Hc2.
  unfold none_of at 1, quotes. cbn [mem]. rewrite Hc1, Hc2. cbn. now apply IH.
Qed.

Lemma match_meta (attr key a r1 post : string) (q : ascii) (i : nat) :
  match attr with String c _ => Js.is_space c = false | EmptyString => False end ->
  lacks dq a = true -> lacks "'" a = true ->
  one_of quotes q = true ->
  lacks ">" r1 = true ->
  exists m,
    match_at (meta_re attr key) i
      (metaOpen attr key ++ a ++ String q (r1 ++ ">" ++ post)) = Some m /\
    m_cap m = Some a.
Proof.
  intros Hattr Ha1 Ha2 Hq Hr.
  unfold match_at, meta_re, metaOpen. cbn [seq run].
  rewrite !str_app_assoc.
  rewrite run_lit_i, starts_with_ci_app, drop_app.
  rewrite run_plus_ws by (destruct attr; [contradiction | exact Hattr]).
  rewrite run_lit_i, starts_with_ci_app, drop_app.
  rewrite run_lit. cbn [append Js.starts_with Js.drop String.length].
  rewrite Ascii.eqb_refl. cbn [andb].
  change (one_of quotes dq) with true. cbv iota.
  rewrite !str_app_assoc.
  rewrite run_lit_i, starts_with_ci_app, drop_app.
  cbn [append]. change (one_of quotes dq) with true. cbv iota.
  change (String " " (String "c" ?x)) with (" " ++ String "c" x).
  rewrite run_plus_ws by reflexivity.
  rewrite run_lit_i.
  change (starts_with_ci "content=" (String "c" _)) with true. cbv iota.
  cbn [Js.drop String.length].
  change (one_of quotes dq) with true. cbv iota.
  eexists. split.
  - apply star_loop_greedy;
      [unfold none_of; unfold one_of in Hq; now rewrite Hq | now apply lacks_quotes |].
    cbv beta iota. rewrite Hq.
    apply star_loop_greedy; [reflexivity | now apply lacks_all |].
    rewrite run_lit. cbn [append Js.starts_with Js.drop String.length].
    rewrite Ascii.eqb_refl. cbn [andb]. reflexivity.
  - cbn [m_cap]. f_equal.
    match goal with
    | |- Js.take (?n + String.length a - ?n) _ = _ =>
        replace (n + String.length a - n) with (String.length a) by lia
    end.
    apply take_app.
Qed.

(** X22.  The content of a meta tag is read up to its first quote of
    either kind.  For a page whose first [<] opens the tag, the extractor
    reads the content up to the first double or single quote, entities
    decoded, whatever follows up to the end of the tag: it reads back a
    content that has no quote in it, and cuts a double-quoted content at
    its first apostrophe. *)
Theorem meta_content_ends_at_first_quote
        (P : Platform) (baseUrl pre a r1 post : string) (q : ascii) :
  lacks "<" pre = true ->
  lacks dq a = true -> lacks "'" a = true ->
  one_of quotes q = true ->
  lacks ">" r1 = true ->
  (forall attr key : string,
      In (attr, key)
         [ ("property", "og:title"); ("property", "og:description");
           ("name", "description"); ("property", "og:image");
           ("property", "og:image:secure_url"); ("property", "og:image:url");
           ("property", "og:site_name"); ("name", "twitter:description") ] ->
      metaContent (meta_re attr key)
        (pre ++ metaOpen attr key ++ a ++ String q (r1 ++ ">" ++ post))
      = decodeHtml a) /\
  ogTitle (extractMeta P
             (pre ++ metaOpen "property" "og:title" ++ a ++ String q (r1 ++ ">" ++ post))
             baseUrl)
  = decodeHtml a.
Proof.
  intros Hpre Ha1 Ha2 Hq Hr.
  assert (H : forall attr key : string,
             match attr with
             | String c _ => Js.is_space c = false
             | EmptyString => False
             end ->
             metaContent (meta_re attr key)
               (pre ++ metaOpen attr key ++ a ++ String q (r1 ++ ">" ++ post))
             = decodeHtml a).
  { intros attr key Hattr. unfold metaContent, match1.
    destruct (match_meta attr key a r1 post q (0 + String.length pre)
                Hattr Ha1 Ha2 Hq Hr) as (m & Hm & Hc).
    unfold meta_re in *. cbn [seq] in *.
    rewrite (search_skip "meta" _ pre Hpre).
    destruct (metaOpen attr key ++ a ++ String q (r1 ++ ">" ++ post)) eqn:E;
      [discriminate|].
    cbn [search_from]. rewrite Hm. now rewrite Hc. }
  split.
  - intros attr key Hin. apply H. cbn [In] in Hin.
    repeat (destruct Hin as [Hin | Hin]; [injection Hin as <- <-; reflexivity|]).
    contradiction.
  - unfold extractMeta. cbn [ogTitle].
    exact (H "property" "og:title" eq_refl).
Qed.

End MetaTags.

Lemma meta_content_witness :
  FbScrape.ogTitle
    (FbScrape.extractMeta Demo.platform
       ("" ++ Law.metaOpen "property" "og:title" ++ "It"
           ++ String "'" (("s here" ++ String FbScrape.dq "") ++ ">" ++ ""))
       "https://example.com/article")
  = "It".
Proof.
  rewrite (proj2 (meta_content_ends_at_first_quote Demo.platform
                    "https://example.com/article" "" "It"
                    ("s here" ++ String FbScrape.dq "") "" "'"
                    eq_refl eq_refl eq_refl eq_refl eq_refl)).
  reflexivity.
Defined.

(** ** Where the cookies come from *)

Section CookieSource.
Import Spec ScreenshotPost.
Variable P : Platform.
Variable E : Env.

(** X23.  The cookies of an accepted request.  Whenever the handler
    accepted the request, the body parsed and both [cookies] and [cookie]
    could be read from it, so the [catch] of [getCookieInput] is not what
    answers: the input of the cookie parser is the first truthy value of
    the body's [cookies], the body's [cookie], the configured cookie JSON
    and the configured cookie header.  A truthy [cookies] of the request
    that is neither an array nor a string gives no cookies at all, the
    configured ones included. *)
Theorem cookie_source_precedence (eventBody url : string) :
  requestUrl P eventBody = Some url ->
  exists b cookies cookie : Json.value,
    parseBody P eventBody = Some b /\
    Json.get b "cookies" = Some cookies /\
    Json.get b "cookie" = Some cookie /\
    getCookieInput P E eventBody =
      (if Json.truthy cookies then cookies
       else if Json.truthy cookie then cookie
       else if Js.truthy (ENV_COOKIES_JSON E) then Json.Str (ENV_COOKIES_JSON E)
       else Json.Str (ENV_COOKIE_HEADER E)) /\
    (Json.truthy cookies = true ->
     match cookies with Json.Arr _ | Json.Str _ => False | _ => True end ->
     parseCookies P (getCookieInput P E eventBody) = []).
Proof.
  unfold requestUrl, getCookieInput.
  destruct (parseBody P eventBody) as [b|]; [|discriminate].
  destruct (Json.get b "url") as [u|] eqn:Hu; [|discriminate].
  intros _.
  assert (Hget : forall k, exists v, Json.get b k = Some v).
  { intros k. destruct b; try discriminate; cbn [Json.get]; eauto. }
  destruct (Hget "cookies") as [cookies Hc]. destruct (Hget "cookie") as [cookie Hk].
  exists b, cookies, cookie. rewrite Hc, Hk.
  repeat split.
  - unfold envCookies, Json.or_else. cbn [Json.truthy].
    destruct (Json.truthy cookies); [reflexivity|].
    destruct (Json.truthy cookie); [reflexivity|].
    destruct (Js.truthy (ENV_COOKIES_JSON E)); [reflexivity|].
    now destruct (ENV_COOKIE_HEADER E).
  - intros Ht Hshape. unfold Json.or_else at 1. rewrite Ht.
    unfold parseCookies. rewrite Ht. cbn [negb].
    destruct cookies; try contradiction; reflexivity.
Qed.

End CookieSource.

Lemma cookie_source_witness :
  ScreenshotPost.getCookieInput Demo.platform Law.env_cookies Demo.body_post
  = Json.Str "a=b".
Proof.
  destruct (cookie_source_precedence Demo.platform Law.env_cookies Demo.body_post
              (url := "https://mbasic.facebook.com/somepage/posts/123") eq_refl)
    as (b & cookies & cookie & Hb & Hc & Hk & H & _).
  rewrite H.
  vm_compute in Hb. injection Hb as <-.
  vm_compute in Hc. injection Hc as <-.
  vm_compute in Hk. injection Hk as <-.
  reflexivity.
Defined.

(** ** The extractor across the versions *)

Section ExtractorVersions.
Import Spec.
Variable P : Platform.

(** X24.  The current extractor against the earlier one, on every page.
    The name is the same: the first non-empty of the site name, the Open
    Graph title and the title tag.  The caption is the earlier caption
    (Open Graph description, then Twitter description) when that is not
    empty, and the meta description otherwise.  With an [og:image] the
    earlier image is that image resolved against the base, and the current
    image is the earlier one proxy-unwrapped (unless unwrapping leaves
    nothing); without one the earlier extractor has no image. *)
Theorem extractor_versions_agree (html baseUrl : string) :
  let old := FbScrapeEarlier.extractMeta P html baseUrl in
  let new := FbScrape.extractMeta P html baseUrl in
  FbScrape.name new = FbScrapeEarlier.name old /\
  FbScrape.name new =
    first_nonempty [ metaContent FbScrape.re_ogSite html;
                     metaContent FbScrape.re_ogTitle html;
                     FbScrape.extractTitle html ] /\
  FbScrape.caption new =
    (if Js.truthy (FbScrapeEarlier.caption old) then FbScrapeEarlier.caption old
     else metaContent FbScrape.re_metaDesc html) /\
  (Js.truthy (metaContent FbScrape.re_ogImage html) = true ->
   FbScrapeEarlier.image old
     = resolvedOrRaw P baseUrl (metaContent FbScrape.re_ogImage html) /\
   (Js.truthy (FbScrape.unwrapSafeImage P (FbScrapeEarlier.image old)) = true ->
    FbScrape.image new = FbScrape.unwrapSafeImage P (FbScrapeEarlier.image old))) /\
  (Js.truthy (metaContent FbScrape.re_ogImage html) = false ->
   FbScrapeEarlier.image old = "").
Proof.
  cbv zeta. unfold FbScrape.extractMeta, FbScrapeEarlier.extractMeta.
  cbn [FbScrape.name FbScrape.caption FbScrape.image
       FbScrapeEarlier.name FbScrapeEarlier.caption FbScrapeEarlier.image].
  fold (metaContent FbScrape.re_ogSite html) (metaContent FbScrape.re_ogTitle html)
       (metaContent FbScrape.re_ogDesc html) (metaContent FbScrape.re_twDesc html)
       (metaContent FbScrape.re_metaDesc html) (metaContent FbScrape.re_ogImage html)
       (metaContent FbScrape.re_ogImageSecure html)
       (metaContent FbScrape.re_ogImageUrl html).
  split; [reflexivity|]. split; [apply or_else_first_nonempty|]. split.
  - unfold Js.or_else.
    destruct (Js.truthy (metaContent FbScrape.re_ogDesc html)) eqn:E1.
    + now rewrite E1.
    + destruct (Js.truthy (metaContent FbScrape.re_twDesc html)) eqn:E2.
      * now rewrite E2.
      * cbn [Js.truthy].
        destruct (Js.truthy (metaContent FbScrape.re_metaDesc html)) eqn:E3;
          [reflexivity | symmetry; now apply falsy_empty].
  - split.
    + intros Hog. rewrite Hog. unfold resolvedOrRaw. split; [reflexivity|].
      intros Hu.
      assert (Hor : forall x,
                 Js.or_else (metaContent FbScrape.re_ogImage html) x
                 = metaContent FbScrape.re_ogImage html).
      { intros x. unfold Js.or_else. now rewrite Hog. }
      rewrite !Hor, Hog, Hu. cbn [negb]. reflexivity.
    + intros Hog. rewrite Hog. now apply falsy_empty.
Qed.

End ExtractorVersions.

Lemma extractor_versions_witness :
  FbScrapeEarlier.image
    (FbScrapeEarlier.extractMeta Demo.platform
       "<meta property='og:image' content='https://example.com/photo.jpg'>"
       "https://example.com/article")
  = "https://example.com/photo.jpg" /\
  FbScrape.image
    (FbScrape.extractMeta Demo.platform
       "<meta property='og:image' content='https://example.com/photo.jpg'>"
       "https://example.com/article")
  = "https://example.com/photo.jpg".
Proof.
  destruct (extractor_versions_agree Demo.platform
              "<meta property='og:image' content='https://example.com/photo.jpg'>"
              "https://example.com/article") as (_ & _ & _ & H & _).
  destruct (H eq_refl) as [H1 H2]. split.
  - rewrite H1. reflexivity.
  - rewrite (H2 eq_refl). reflexivity.
Defined.

(** ** Image sources that are never candidates *)

Section TrackingNames.
Import Re Spec Law FbScrape.
Variable P : Platform.

Lemma starts_with_ci_lower (t : string) :
  forall w : string, Js.lower_string w = Js.lower_string t -> starts_with_ci t w = true.
Proof.
  intros w H. apply equal_ci_iff in H. unfold equal_ci in H.
  now apply andb_prop in H as [H _].
Qed.

(** X25.  The filter on tracking names reads the whole URL: an image
    source whose resolved URL contains [pixel], [analytics] or [spacer]
    anywhere, in any letter case, is never a candidate of the image
    fallback, whatever the rest of the URL is. *)
Theorem tracking_name_anywhere_disqualifies
        (baseUrl src pre w post : string) (u : Url.t) :
  URL_parse_base P src baseUrl = Some u ->
  Url.href u = pre ++ w ++ post ->
  In (Js.lower_string w) ["pixel"; "analytics"; "spacer"] ->
  imageCandidate P baseUrl src = None /\
  qualifying (Url.href u) = false.
Proof.
  intros Hu Hhref Hw.
  assert (Ht : test re_tracking w = true).
  { unfold re_tracking, test. cbn [In] in Hw.
    assert (Hs : search_from (Alt (lit_i "pixel")
                                (Alt (lit_i "analytics") (lit_i "spacer"))) 0 w <> None).
    { assert (Hm : match_at (Alt (lit_i "pixel")
                               (Alt (lit_i "analytics") (lit_i "spacer"))) 0 w <> None).
      { unfold match_at. cbn [run]. rewrite !run_lit_i.
        destruct Hw as [Hw | [Hw | [Hw | []]]].
        - rewrite (starts_with_ci_lower "pixel" w (eq_sym Hw)). discriminate.
        - rewrite (starts_with_ci_lower "analytics" w (eq_sym Hw)).
          destruct (starts_with_ci "pixel" w); discriminate.
        - rewrite (starts_with_ci_lower "spacer" w (eq_sym Hw)).
          destruct (starts_with_ci "pixel" w), (starts_with_ci "analytics" w);
            discriminate. }
      destruct w as [|c w]; cbn [search_from];
        destruct (match_at _ 0 _); (discriminate || contradiction). }
    destruct (search_from _ 0 w); [reflexivity | contradiction]. }
  assert (Hall : test re_tracking (Url.href u) = true).
  { rewrite Hhref. now apply test_embedded. }
  split.
  - unfold imageCandidate. rewrite Hu. cbv zeta.
    destruct (negb (Js.truthy src)); [reflexivity|].
    destruct (negb (Js.truthy (Url.href u))); [reflexivity|].
    destruct (Js.starts_with "data:" (Url.href u)); [reflexivity|].
    now rewrite Hall.
  - unfold qualifying. rewrite Hall. cbn [negb]. now rewrite andb_false_r.
Qed.

End TrackingNames.

Lemma tracking_name_witness :
  FbScrape.imageCandidate Law.artPlatform "https://example.com/article"
    "https://example.com/Pixel-art/cat.jpg" = None.
Proof.
  exact (proj1 (tracking_name_anywhere_disqualifies Law.artPlatform
                  "https://example.com/article"
                  "https://example.com/Pixel-art/cat.jpg"
                  "https://example.com/" "Pixel" "-art/cat.jpg"
                  (u := Law.url_pixel_art)
                  eq_refl eq_refl (or_introl eq_refl))).
Defined.
